(** * InteractiveImageOverlay: geometric overlay and interaction engine

    A shallow embedding of [src/components/InteractiveImageOverlay.tsx],
    followed by the handlers of [src/components/ObjectSelection.tsx] and the
    form field that [src/components/ImageUpload.tsx] builds from the
    selected objects.

    Conventions of the embedding.

    - A JavaScript [number] is an extended rational: a finite value is a
      rational, next to [Infinity], [-Infinity] and [NaN]; the sign of zero
      is not kept.  The operations of [JS] are exact on finite values and
      follow IEEE 754 on the others and on division by zero.  The engine
      rounds the result of every operation to binary64: [Binary64] gives
      that rounding, and the functions whose result depends on it
      ([getScaledDimensions], [updateDimensions], [formatCoordinate]) once
      more with each operation rounded.  What the engine returns from
      these three functions is stated on the rounded versions; the exact
      versions serve the event handlers and the renderer.  [Math.round]
      and [toFixed] are exact on the value they are given.
    - React state is a record, one field per [useState]; an event handler is
      a function from the state of the render it closes over to the next
      state.  The [selectedDetectionId] prop and its setter
      [onDetectionSelect] live in the parent and are threaded as one more
      field.
    - A ref ([containerRef], [imageRef]) is an optional bounding rectangle:
      [None] when the element is not mounted.
    - A value that TypeScript types as defined but that is [undefined] at
      run time (the result of [find(...)!]) is an [option]; reading a
      property of it raises a [TypeError].
    - A JavaScript string of the object selection is the sequence of its
      code units, for strings of code units below 256; [trim],
      [toLowerCase], [split], [join] and [includes] are written out on
      these. *)

From Stdlib Require Import NArith ZArith QArith Qround Qabs Qpower Lqa Lia.
From Stdlib Require Import List String Ascii Bool.
Import ListNotations.

(** ** JavaScript numbers *)

Module JS.

Inductive number : Type :=
| Fin (q : Q)
| PosInf
| NegInf
| NaN.

Definition of_Z (z : Z) : number := Fin (inject_Z z).


(** Sign of a rational: [Lt], [Eq] or [Gt] against zero. *)
Definition Qsign (q : Q) : comparison := q ?= 0.

Definition neg (x : number) : number :=
  match x with
  | Fin q => Fin (- q)
  | PosInf => NegInf
  | NegInf => PosInf
  | NaN => NaN
  end.

(** [x + y] *)
Definition add (x y : number) : number :=
  match x, y with
  | NaN, _ | _, NaN => NaN
  | Fin a, Fin b => Fin (a + b)
  | PosInf, NegInf | NegInf, PosInf => NaN
  | PosInf, _ | _, PosInf => PosInf
  | NegInf, _ | _, NegInf => NegInf
  end.

(** [x - y] *)
Definition sub (x y : number) : number := add x (neg y).

(** An infinity scaled by a value of the given sign; zero times infinity is
    [NaN]. *)
Definition inf_scaled (pos : bool) (s : comparison) : number :=
  match s with
  | Eq => NaN
  | Gt => if pos then PosInf else NegInf
  | Lt => if pos then NegInf else PosInf
  end.

(** [x * y] *)
Definition mul (x y : number) : number :=
  match x, y with
  | NaN, _ | _, NaN => NaN
  | Fin a, Fin b => Fin (a * b)
  | Fin a, PosInf | PosInf, Fin a => inf_scaled true (Qsign a)
  | Fin a, NegInf | NegInf, Fin a => inf_scaled false (Qsign a)
  | PosInf, PosInf | NegInf, NegInf => PosInf
  | PosInf, NegInf | NegInf, PosInf => NegInf
  end.

(** [x / y]; a finite value over zero is an infinity of the sign of the
    numerator, zero over zero is [NaN]. *)
Definition div (x y : number) : number :=
  match x, y with
  | NaN, _ | _, NaN => NaN
  | Fin a, Fin b =>
      match Qsign b with
      | Eq => inf_scaled true (Qsign a)
      | _ => Fin (a / b)
      end
  | Fin _, _ => Fin 0
  | PosInf, Fin b => match Qsign b with Lt => NegInf | _ => PosInf end
  | NegInf, Fin b => match Qsign b with Lt => PosInf | _ => NegInf end
  | _, _ => NaN
  end.

(** [x <= y]; every comparison with [NaN] is false. *)
Definition leb (x y : number) : bool :=
  match x, y with
  | NaN, _ | _, NaN => false
  | Fin a, Fin b => Qle_bool a b
  | NegInf, _ | _, PosInf => true
  | _, _ => false
  end.

(** [x < y] *)
Definition ltb (x y : number) : bool :=
  match x, y with
  | NaN, _ | _, NaN => false
  | Fin a, Fin b => negb (Qle_bool b a)
  | PosInf, _ | _, NegInf => false
  | _, _ => true
  end.

(** [Math.max(x, y)] *)
Definition max (x y : number) : number :=
  match x, y with
  | NaN, _ | _, NaN => NaN
  | _, _ => if leb x y then y else x
  end.

(** [Math.min(x, y)] *)
Definition min (x y : number) : number :=
  match x, y with
  | NaN, _ | _, NaN => NaN
  | _, _ => if leb x y then x else y
  end.

(** Equality of values: rationals up to their fraction. *)
Definition num_eq (x y : number) : Prop :=
  match x, y with
  | Fin a, Fin b => a == b
  | PosInf, PosInf | NegInf, NegInf | NaN, NaN => True
  | _, _ => False
  end.

(** *** Integral values

    [Math.round] returns a number without fractional part (or a non-finite
    one); [integral] keeps that fact in the type, so that [toString] is
    defined on exactly the values the component prints with it. *)

Inductive integral : Type :=
| IFin (z : Z)
| IPosInf
| INegInf
| INaN.

Definition to_number (i : integral) : number :=
  match i with
  | IFin z => of_Z z
  | IPosInf => PosInf
  | INegInf => NegInf
  | INaN => NaN
  end.

(** Nearest integer, a tie going towards plus infinity. *)
Definition round_half_up (q : Q) : Z := Qfloor (q + (1 # 2)).

(** [Math.round(x)] *)
Definition round (x : number) : integral :=
  match x with
  | Fin q => IFin (round_half_up q)
  | PosInf => IPosInf
  | NegInf => INegInf
  | NaN => INaN
  end.

(** *** Completions *)

Inductive Exception : Type := TypeError | RangeError | DOMException.

Inductive completion (A : Type) : Type :=
| Normal (a : A)
| Throw (e : Exception).

Arguments Normal {A} a.
Arguments Throw {A} e.

Definition bind {A B : Type} (c : completion A) (k : A -> completion B)
  : completion B :=
  match c with
  | Normal a => k a
  | Throw e => Throw e
  end.

Definition returns {A : Type} (c : completion A) : Prop :=
  exists a, c = Normal a.

(** *** Decimal digits *)

Local Open Scope string_scope.

Definition digit_char (d : N) : ascii := ascii_of_N (48 + d).

(** The digits of [n], most significant first, in front of [acc]. *)
Fixpoint digits_aux (fuel : nat) (n : N) (acc : string) : string :=
  match fuel with
  | O => acc
  | S fuel' =>
      let acc' := String (digit_char (n mod 10)) acc in
      if (n / 10 =? 0)%N then acc' else digits_aux fuel' (n / 10) acc'
  end.

(** The decimal representation of [n], with no leading zero; ["0"] for 0. *)
Definition digits (n : N) : string :=
  digits_aux (S (N.to_nat (N.log2 n))) n "".

Fixpoint zeros (k : nat) : string :=
  match k with
  | O => ""
  | S k' => String "0" (zeros k')
  end.

Fixpoint strip_trailing_zeros (s : string) : string :=
  match s with
  | "" => ""
  | String c r =>
      let r' := strip_trailing_zeros r in
      if (Ascii.eqb c "0" && String.eqb r' "")%bool then "" else String c r'
  end.

(** [Number::toString] of a non-negative integer [m]: its digits when there
    are at most 21 of them, else the exponent notation on its significant
    digits. *)
Definition toString_N (m : N) : string :=
  let ds := digits m in
  let n := String.length ds in
  if (n <=? 21)%nat then ds
  else
    let e := "e+" ++ digits (N.of_nat (n - 1)) in
    match strip_trailing_zeros ds with
    | String c "" => String c e
    | String c r => String c ("." ++ r ++ e)
    | "" => e
    end.

Definition toString_Z (z : Z) : string :=
  if (z <? 0)%Z then "-" ++ toString_N (Z.abs_N z) else toString_N (Z.abs_N z).

(** [x.toString()] on an integral value. *)
Definition toString (x : integral) : string :=
  match x with
  | IFin z => toString_Z z
  | IPosInf => "Infinity"
  | INegInf => "-Infinity"
  | INaN => "NaN"
  end.

(** The step of [toFixed] that places the decimal point in the digits [m]
    of [n]: for [f] other than 0, [m] is padded with zeros on the left to
    [f + 1] digits when it has at most [f], and the point goes before its
    last [f] digits. *)
Definition insert_point (m : string) (f : nat) : string :=
  if (f =? 0)%nat then m
  else
    let k := String.length m in
    let m := if (k <=? f)%nat then zeros (f + 1 - k) ++ m else m in
    let k := String.length m in
    substring 0 (k - f) m ++ "." ++ substring (k - f) f m.

(** [x.toFixed(f)], after ECMAScript's Number.prototype.toFixed.  A binary64
    value of magnitude [10^21] or more has no fractional part: that branch
    prints the integral part. *)
Definition toFixed (x : number) (f : nat) : completion string :=
  if (100 <? f)%nat then Throw RangeError
  else
    match x with
    | PosInf => Normal "Infinity"
    | NegInf => Normal "-Infinity"
    | NaN => Normal "NaN"
    | Fin q =>
        let s := if Qle_bool 0 q then "" else "-" in
        let x := if Qle_bool 0 q then q else (- q)%Q in
        if Qle_bool (inject_Z (10 ^ 21)) x then
          Normal (s ++ toString_N (Z.to_N (Qfloor x)))
        else
          let n := round_half_up (x * inject_Z (10 ^ Z.of_nat f)) in
          let m := digits (Z.to_N n) in
          Normal (s ++ insert_point m f)
    end.

End JS.

Abbreviation number := JS.number.
Abbreviation Fin := JS.Fin.
Abbreviation PosInf := JS.PosInf.
Abbreviation NegInf := JS.NegInf.
Abbreviation NaN := JS.NaN.

Declare Scope js_scope.
Delimit Scope js_scope with js.
Infix "+" := JS.add : js_scope.
Infix "-" := JS.sub : js_scope.
Infix "*" := JS.mul : js_scope.
Infix "/" := JS.div : js_scope.
Infix "<=?" := JS.leb : js_scope.
Infix "<?" := JS.ltb : js_scope.

(** A numeric literal of the source. *)
Definition lit (q : Q) : number := Fin q.

Notation "'do' x <- c ; k" := (JS.bind c (fun x => k))
  (at level 10, x name, c at level 100, k at level 200).

Local Open Scope string_scope.

(** ** Data model *)

(** [{ x: number; y: number }] *)
Record Point : Type := mkPoint { px : number; py : number }.

(** [{ width: number; height: number }] *)
Record Extents : Type := mkExtents { width : number; height : number }.

Inductive CoordinateFormat : Type := pixels | percentage | normalized.

(** The optional [axis] argument of [formatCoordinate]. *)
Inductive Axis : Type := axis_x | axis_y.

Record BBox : Type := mkBBox {
  x1 : number;
  y1 : number;
  x2 : number;
  y2 : number
}.

Record Vertices : Type := mkVertices {
  top_left : Point;
  top_right : Point;
  bottom_left : Point;
  bottom_right : Point
}.

(** [DetectionData]; the [id] of a detection is an integer. *)
Record DetectionData : Type := mkDetection {
  id : Z;
  class_name : string;
  confidence : number;
  bbox : BBox;
  vertices : Vertices;
  center_point : Point;
  area : number;
  dimensions : Extents;
  matched_request : bool
}.

(** [CoordinatePopupData] *)
Record CoordinatePopupData : Type := mkPopup {
  popup_detection : DetectionData;
  popup_x : number;
  popup_y : number
}.

(** The state behind [tooltipData].  Its [detection] is written from
    [detections.find(...)!]: [None] is the [undefined] that [find] returns
    when no detection has the hovered id. *)
Record TooltipData : Type := mkTooltip {
  tooltip_detection : option DetectionData;
  tooltip_x : number;
  tooltip_y : number
}.

(** [RulerPoint]: [x], [y] in display space, [imageX], [imageY] in image
    space. *)
Record RulerPoint : Type := mkRulerPoint {
  ruler_x : number;
  ruler_y : number;
  imageX : number;
  imageY : number
}.

(** The result of [getBoundingClientRect()]. *)
Record DOMRect : Type := mkRect {
  rect_left : number;
  rect_top : number;
  rect_width : number;
  rect_height : number
}.

(** The part of a [React.MouseEvent] the handlers read. *)
Record MouseEvent : Type := mkMouseEvent { clientX : number; clientY : number }.

(** The props of the component, [selectedDetectionId] and its setter
    apart. *)
Record Props : Type := mkProps {
  imageWidth : number;
  imageHeight : number;
  detections : list DetectionData;
  exactDimensions : bool
}.

(** [containerRef.current] and [imageRef.current], as their bounding
    rectangles. *)
Record Refs : Type := mkRefs {
  containerRef : option DOMRect;
  imageRef : option DOMRect
}.

(** One field per [useState] of the component, and the parent's
    [selectedDetectionId]. *)
Record State : Type := mkState {
  hoveredDetection : option Z;
  tooltipData : option TooltipData;
  coordinatePopup : option CoordinatePopupData;
  coordinateFormat : CoordinateFormat;
  rulerMode : bool;
  rulerPoints : list RulerPoint;
  copiedCoordinate : option string;
  mousePosition : option Point;
  displayDimensions : Extents;
  scaleFactors : Point;
  selectedDetectionId : option Z
}.

(** The state of the first render. *)
Definition initialState : State :=
  {| hoveredDetection := None;
     tooltipData := None;
     coordinatePopup := None;
     coordinateFormat := pixels;
     rulerMode := false;
     rulerPoints := [];
     copiedCoordinate := None;
     mousePosition := None;
     displayDimensions := {| width := lit 0; height := lit 0 |};
     scaleFactors := {| px := lit 1; py := lit 1 |};
     selectedDetectionId := None |}.

(** *** State setters *)

Definition setHoveredDetection (v : option Z) (s : State) : State :=
  mkState v (tooltipData s) (coordinatePopup s) (coordinateFormat s)
    (rulerMode s) (rulerPoints s) (copiedCoordinate s) (mousePosition s)
    (displayDimensions s) (scaleFactors s) (selectedDetectionId s).

Definition setTooltipData (v : option TooltipData) (s : State) : State :=
  mkState (hoveredDetection s) v (coordinatePopup s) (coordinateFormat s)
    (rulerMode s) (rulerPoints s) (copiedCoordinate s) (mousePosition s)
    (displayDimensions s) (scaleFactors s) (selectedDetectionId s).

Definition setCoordinatePopup (v : option CoordinatePopupData) (s : State)
  : State :=
  mkState (hoveredDetection s) (tooltipData s) v (coordinateFormat s)
    (rulerMode s) (rulerPoints s) (copiedCoordinate s) (mousePosition s)
    (displayDimensions s) (scaleFactors s) (selectedDetectionId s).

Definition setCoordinateFormat (v : CoordinateFormat) (s : State) : State :=
  mkState (hoveredDetection s) (tooltipData s) (coordinatePopup s) v
    (rulerMode s) (rulerPoints s) (copiedCoordinate s) (mousePosition s)
    (displayDimensions s) (scaleFactors s) (selectedDetectionId s).

Definition setRulerMode (v : bool) (s : State) : State :=
  mkState (hoveredDetection s) (tooltipData s) (coordinatePopup s)
    (coordinateFormat s) v (rulerPoints s) (copiedCoordinate s)
    (mousePosition s) (displayDimensions s) (scaleFactors s)
    (selectedDetectionId s).

(** [setRulerPoints] takes an updater, applied to the stored collection. *)
Definition setRulerPoints (f : list RulerPoint -> list RulerPoint) (s : State)
  : State :=
  mkState (hoveredDetection s) (tooltipData s) (coordinatePopup s)
    (coordinateFormat s) (rulerMode s) (f (rulerPoints s))
    (copiedCoordinate s) (mousePosition s) (displayDimensions s)
    (scaleFactors s) (selectedDetectionId s).

Definition setCopiedCoordinate (v : option string) (s : State) : State :=
  mkState (hoveredDetection s) (tooltipData s) (coordinatePopup s)
    (coordinateFormat s) (rulerMode s) (rulerPoints s) v (mousePosition s)
    (displayDimensions s) (scaleFactors s) (selectedDetectionId s).

Definition setMousePosition (v : option Point) (s : State) : State :=
  mkState (hoveredDetection s) (tooltipData s) (coordinatePopup s)
    (coordinateFormat s) (rulerMode s) (rulerPoints s) (copiedCoordinate s) v
    (displayDimensions s) (scaleFactors s) (selectedDetectionId s).

Definition setDisplayDimensions (v : Extents) (s : State) : State :=
  mkState (hoveredDetection s) (tooltipData s) (coordinatePopup s)
    (coordinateFormat s) (rulerMode s) (rulerPoints s) (copiedCoordinate s)
    (mousePosition s) v (scaleFactors s) (selectedDetectionId s).

Definition setScaleFactors (v : Point) (s : State) : State :=
  mkState (hoveredDetection s) (tooltipData s) (coordinatePopup s)
    (coordinateFormat s) (rulerMode s) (rulerPoints s) (copiedCoordinate s)
    (mousePosition s) (displayDimensions s) v (selectedDetectionId s).

(** The parent's [setSelectedDetectionId], passed as [onDetectionSelect]. *)
Definition onDetectionSelect (v : option Z) (s : State) : State :=
  mkState (hoveredDetection s) (tooltipData s) (coordinatePopup s)
    (coordinateFormat s) (rulerMode s) (rulerPoints s) (copiedCoordinate s)
    (mousePosition s) (displayDimensions s) (scaleFactors s) v.

(** ** Scaling *)

Section Scaling.

Variable props : Props.

(** [getScaledDimensions], in exact arithmetic. *)
Definition getScaledDimensions : Extents :=
  if exactDimensions props then
    {| width := imageWidth props; height := imageHeight props |}
  else
    let maxHeight := lit 600 in
    let aspectRatio := (imageWidth props / imageHeight props)%js in
    if (imageHeight props <=? maxHeight)%js then
      {| width := imageWidth props; height := imageHeight props |}
    else
      let scaledHeight := maxHeight in
      let scaledWidth :=
        JS.to_number (JS.round (scaledHeight * aspectRatio)%js) in
      {| width := scaledWidth; height := scaledHeight |}.

(** The body of [updateDimensions] (and of the image's [onLoad]): the pair
    written to [displayDimensions] and [scaleFactors], in exact
    arithmetic. *)
Definition updateDimensions (s : State) : State :=
  let scaledDimensions := getScaledDimensions in
  if exactDimensions props then
    setScaleFactors {| px := lit 1; py := lit 1 |}
      (setDisplayDimensions
         {| width := imageWidth props; height := imageHeight props |} s)
  else
    setScaleFactors
      {| px := (width scaledDimensions / imageWidth props)%js;
         py := (height scaledDimensions / imageHeight props)%js |}
      (setDisplayDimensions
         {| width := width scaledDimensions;
            height := height scaledDimensions |} s).

End Scaling.

(** ** Coordinate formatting *)

Section Formatting.

(** The props and the [coordinateFormat] of the render. *)
Variables (props : Props) (format : CoordinateFormat).

(** The extent a value is normalised against: the expression bound to
    [maxValue] and to [normalizedMax]. *)
Definition axisExtent (axis : option Axis) : number :=
  match axis with
  | Some axis_x => imageWidth props
  | Some axis_y => imageHeight props
  | None => JS.max (imageWidth props) (imageHeight props)
  end.

(** [formatCoordinate], in exact arithmetic. *)
Definition formatCoordinate (value : number) (axis : option Axis)
  : JS.completion string :=
  match format with
  | percentage =>
      let maxValue := axisExtent axis in
      do s <- JS.toFixed ((value / maxValue) * lit 100)%js 1;
      JS.Normal (s ++ "%")
  | normalized =>
      let normalizedMax := axisExtent axis in
      JS.toFixed (value / normalizedMax)%js 3
  | pixels => JS.Normal (JS.toString (JS.round value))
  end.

(** [formatCoordinatePair] *)
Definition formatCoordinatePair (point : Point) : JS.completion string :=
  match format with
  | percentage =>
      do sx <- JS.toFixed ((px point / imageWidth props) * lit 100)%js 1;
      do sy <- JS.toFixed ((py point / imageHeight props) * lit 100)%js 1;
      JS.Normal (sx ++ "%, " ++ sy ++ "%")
  | normalized =>
      do sx <- JS.toFixed (px point / imageWidth props)%js 3;
      do sy <- JS.toFixed (py point / imageHeight props)%js 3;
      JS.Normal (sx ++ ", " ++ sy)
  | pixels =>
      JS.Normal (JS.toString (JS.round (px point)) ++ ", "
                 ++ JS.toString (JS.round (py point)))
  end.

End Formatting.

(** ** Coordinate mapping and event handlers *)

(** Display space from image space: the product with the scale factors
    that [renderBoundingBox] writes out for each coordinate. *)
Definition scalePoint (p factors : Point) : Point :=
  {| px := (px p * px factors)%js; py := (py p * py factors)%js |}.

(** What a handler leaves behind besides the next state. *)
Inductive Effect : Type :=
| ClipboardWriteText (text : string)
| ConsoleError (message : string)
| SetTimeout (delay : Z).

Section Handlers.

Variables (props : Props) (refs : Refs).

(** [getImageCoordinates] *)
Definition getImageCoordinates (cx cy : number) : Point :=
  match imageRef refs with
  | None => {| px := lit 0; py := lit 0 |}
  | Some rect =>
      let x :=
        (((cx - rect_left rect) / rect_width rect) * imageWidth props)%js in
      let y :=
        (((cy - rect_top rect) / rect_height rect) * imageHeight props)%js in
      {| px := x; py := y |}
  end.

(** [detections.find(d => d.id === hoveredDetection)] *)
Definition findDetection (hovered : Z) : option DetectionData :=
  find (fun d => (id d =? hovered)%Z) (detections props).

(** [handleMouseMove] *)
Definition handleMouseMove (e : MouseEvent) (s : State) : State :=
  let imageCoords := getImageCoordinates (clientX e) (clientY e) in
  let s1 := setMousePosition (Some imageCoords) s in
  match hoveredDetection s with
  | Some hovered =>
      match containerRef refs with
      | Some rect =>
          setTooltipData
            (Some {| tooltip_detection := findDetection hovered;
                     tooltip_x := (clientX e - rect_left rect)%js;
                     tooltip_y := (clientY e - rect_top rect)%js |}) s1
      | None => s1
      end
  | None => s1
  end.

(** [handleMouseLeave] *)
Definition handleMouseLeave (s : State) : State :=
  setMousePosition None (setTooltipData None (setHoveredDetection None s)).

(** The [onMouseEnter] of a detection's path and of its corner dots. *)
Definition handleMouseEnter (detection : DetectionData) (s : State) : State :=
  setHoveredDetection (Some (id detection)) s.

(** [handleBoxClick]; the boolean is the event's propagation flag after the
    handler: [true] once [e.stopPropagation()] has run. *)
Definition handleBoxClick (detection : DetectionData) (e : MouseEvent)
  (s : State) : State * bool :=
  let stopped := true in
  if rulerMode s then (s, stopped)
  else
    match containerRef refs with
    | Some rect =>
        (onDetectionSelect (Some (id detection))
           (setCoordinatePopup
              (Some {| popup_detection := detection;
                       popup_x := (clientX e - rect_left rect)%js;
                       popup_y := (clientY e - rect_top rect)%js |}) s),
         stopped)
    | None => (s, stopped)
    end.

(** The updater that [handleImageClick] passes to [setRulerPoints]. *)
Definition addRulerPoint (newPoint : RulerPoint) (prev : list RulerPoint)
  : list RulerPoint :=
  if (2 <=? List.length prev)%nat then [newPoint] else prev ++ [newPoint].

(** The [newPoint] that [handleImageClick] builds from the click, the
    rectangle of the container and the mapped coordinates. *)
Definition newRulerPoint (imageCoords : Point) (rect : DOMRect)
  (e : MouseEvent) : RulerPoint :=
  {| ruler_x := (clientX e - rect_left rect)%js;
     ruler_y := (clientY e - rect_top rect)%js;
     imageX := px imageCoords;
     imageY := py imageCoords |}.

(** [handleImageClick] *)
Definition handleImageClick (e : MouseEvent) (s : State) : State :=
  if rulerMode s then
    let imageCoords := getImageCoordinates (clientX e) (clientY e) in
    match containerRef refs with
    | Some rect =>
        let newPoint := newRulerPoint imageCoords rect e in
        setRulerPoints (addRulerPoint newPoint) s
    | None => s
    end
  else onDetectionSelect None (setCoordinatePopup None s).

(** [clearRuler] *)
Definition clearRuler (s : State) : State := setRulerPoints (fun _ => []) s.

(** The [onClick] of the ruler toggle. *)
Definition handleRulerToggle (s : State) : State :=
  let s1 := setRulerMode (negb (rulerMode s)) s in
  if negb (rulerMode s) then clearRuler s1 else s1.

(** [copyToClipboard], given how [navigator.clipboard.writeText] settles.
    The [try] block runs to its end on [Normal]; the [catch] block takes
    every exception. *)
Definition copyToClipboard (written : JS.completion unit) (text label : string)
  (s : State) : JS.completion (State * list Effect) :=
  match written with
  | JS.Normal _ =>
      JS.Normal (setCopiedCoordinate (Some label) s,
                 [ClipboardWriteText text; SetTimeout 2000])
  | JS.Throw _ =>
      JS.Normal (s, [ClipboardWriteText text; ConsoleError "Failed to copy:"])
  end.

(** The callback that [copyToClipboard] hands to [setTimeout]. *)
Definition copiedTimeout (s : State) : State := setCopiedCoordinate None s.

(** *** Events

    Where a click lands: on the path of a detection, on one of its corner
    dots, or on the SVG surface itself. *)
Inductive ClickTarget : Type :=
| OnPath (detection : DetectionData)
| OnCornerDot (detection : DetectionData) (index : nat)
| OnSurface.

Inductive Event : Type :=
| PointerMove (e : MouseEvent)
| PointerLeave
| PointerEnter (detection : DetectionData)
| Click (target : ClickTarget) (e : MouseEvent)
| FormatButton (format : CoordinateFormat)
| RulerToggle
| ClearButton
| PopupClose
| CopySettled (written : JS.completion unit) (text label : string)
| CopiedTimeout
| Resize.

(** A click is handled by its target first and bubbles to the [onClick] of
    the SVG element unless the target's handler stopped it. *)
Definition dispatchClick (target : ClickTarget) (e : MouseEvent) (s : State)
  : State :=
  match target with
  | OnPath detection | OnCornerDot detection _ =>
      let '(s1, stopped) := handleBoxClick detection e s in
      if stopped then s1 else handleImageClick e s1
  | OnSurface => handleImageClick e s
  end.

Definition step (ev : Event) (s : State) : State :=
  match ev with
  | PointerMove e => handleMouseMove e s
  | PointerLeave => handleMouseLeave s
  | PointerEnter detection => handleMouseEnter detection s
  | Click target e => dispatchClick target e s
  | FormatButton format => setCoordinateFormat format s
  | RulerToggle => handleRulerToggle s
  | ClearButton => clearRuler s
  | PopupClose => setCoordinatePopup None s
  | CopySettled written text label =>
      match copyToClipboard written text label s with
      | JS.Normal (s1, _) => s1
      | JS.Throw _ => s
      end
  | CopiedTimeout => copiedTimeout s
  | Resize => updateDimensions props s
  end.

(** The effects that an event leaves behind. *)
Definition effectsOf (ev : Event) (s : State) : list Effect :=
  match ev with
  | CopySettled written text label =>
      match copyToClipboard written text label s with
      | JS.Normal (_, effects) => effects
      | JS.Throw _ => []
      end
  | _ => []
  end.

Definition run (evs : list Event) (s : State) : State :=
  fold_left (fun s ev => step ev s) evs s.

End Handlers.

(** The props and the refs may differ from one render to the next: a
    history is a list of events, each with the props and the refs of the
    render it occurs in. *)
Definition History : Type := list (Props * Refs * Event).

Fixpoint runHistory (history : History) (s : State) : State :=
  match history with
  | [] => s
  | (props, refs, ev) :: rest => runHistory rest (step props refs ev s)
  end.

Fixpoint historyEffects (history : History) (s : State) : list Effect :=
  match history with
  | [] => []
  | (props, refs, ev) :: rest =>
      (effectsOf ev s ++ historyEffects rest (step props refs ev s))%list
  end.

(** ** Rendering

    The JSX is embedded as the data it describes: the [d] attribute of a
    path is its list of commands, an element is the record of the
    attributes that depend on the state. *)

Inductive PathCommand : Type :=
| MoveTo (p : Point)
| LineTo (p : Point)
| ClosePath.

Record Circle : Type := mkCircle {
  circle_cx : number;
  circle_cy : number;
  circle_r : number;
  circle_opacity : number
}.

Record Line : Type := mkLine {
  line_x1 : number;
  line_y1 : number;
  line_x2 : number;
  line_y2 : number
}.

(** The [<g>] that [renderBoundingBox] returns. *)
Record BoxElement : Type := mkBox {
  box_key : Z;
  path_d : list PathCommand;
  path_stroke : string;
  path_strokeWidth : number;
  path_strokeDasharray : string;
  path_opacity : number;
  corner_dots : list Circle;
  crosshair : option (Line * Line);
  label_x : number;
  label_y : number;
  label_text : string
}.

(** The hover tooltip. *)
Record TooltipElement : Type := mkTooltipElement {
  tooltip_left : number;
  tooltip_top : number;
  tooltip_class_name : string;
  tooltip_confidence : string;
  tooltip_center : string;
  tooltip_size : string * string
}.

(** What a render shows of the boxes, the ruler, the tooltip and the
    popup. *)
Record Rendered : Type := mkRendered {
  boxes : list BoxElement;
  ruler_circles : list Circle;
  ruler_line : option Line;
  tooltip : option TooltipElement;
  popup_title : option string
}.

Fixpoint mapM {A B : Type} (f : A -> JS.completion B) (l : list A)
  : JS.completion (list B) :=
  match l with
  | [] => JS.Normal []
  | a :: l' =>
      do b <- f a;
      do bs <- mapM f l';
      JS.Normal (b :: bs)
  end.

(** [selectedDetectionId === detection.id], and the same for
    [hoveredDetection]. *)
Definition isId (current : option Z) (detection : DetectionData) : bool :=
  match current with
  | Some i => (i =? id detection)%Z
  | None => false
  end.

(** [const strokeWidth = isSelected ? 3 : isHovered ? 2.5 : 2] *)
Definition strokeWidth (isSelected isHovered : bool) : number :=
  if isSelected then lit 3 else if isHovered then lit 2.5 else lit 2.

(** [const opacity = isHovered ? 0.8 : 0.6] *)
Definition opacity (isHovered : bool) : number :=
  if isHovered then lit 0.8 else lit 0.6.

Section Render.

Variables (props : Props) (s : State).

(** [renderBoundingBox] *)
Definition renderBoundingBox (detection : DetectionData)
  : JS.completion BoxElement :=
  let v := vertices detection in
  let isSelected := isId (selectedDetectionId s) detection in
  let isHovered := isId (hoveredDetection s) detection in
  let scaled_top_left := scalePoint (top_left v) (scaleFactors s) in
  let scaled_top_right := scalePoint (top_right v) (scaleFactors s) in
  let scaled_bottom_left := scalePoint (bottom_left v) (scaleFactors s) in
  let scaled_bottom_right := scalePoint (bottom_right v) (scaleFactors s) in
  let pathData :=
    [MoveTo scaled_top_left; LineTo scaled_top_right;
     LineTo scaled_bottom_right; LineTo scaled_bottom_left; ClosePath] in
  let color := if matched_request detection then "#22c55e" else "#f97316" in
  let dot (vertex : Point) :=
    {| circle_cx := px vertex;
       circle_cy := py vertex;
       circle_r := if isSelected then lit 4 else lit 3;
       circle_opacity :=
         if (isHovered || isSelected)%bool then lit 1 else lit 0.7 |} in
  let center := scalePoint (center_point detection) (scaleFactors s) in
  do percent <- JS.toFixed (confidence detection * lit 100)%js 0;
  JS.Normal
    {| box_key := id detection;
       path_d := pathData;
       path_stroke := color;
       path_strokeWidth := strokeWidth isSelected isHovered;
       path_strokeDasharray := if isSelected then "5,5" else "none";
       path_opacity := opacity isHovered;
       corner_dots :=
         map dot [scaled_top_left; scaled_top_right;
                  scaled_bottom_left; scaled_bottom_right];
       crosshair :=
         if isSelected then
           Some ({| line_x1 := (px center - lit 8)%js; line_y1 := py center;
                    line_x2 := (px center + lit 8)%js; line_y2 := py center |},
                 {| line_x1 := px center; line_y1 := (py center - lit 8)%js;
                    line_x2 := px center; line_y2 := (py center + lit 8)%js |})
         else None;
       label_x := px scaled_top_left;
       label_y := (py scaled_top_left - lit 8)%js;
       label_text := class_name detection ++ " (" ++ percent ++ "%)" |}.

(** The [{tooltipData && (...)}] block.  Reading [class_name] of an
    [undefined] detection raises a [TypeError]. *)
Definition renderTooltip : JS.completion (option TooltipElement) :=
  match tooltipData s with
  | None => JS.Normal None
  | Some t =>
      match tooltip_detection t with
      | None => JS.Throw JS.TypeError
      | Some detection =>
          do conf <- JS.toFixed (confidence detection * lit 100)%js 1;
          do center <- formatCoordinatePair props (coordinateFormat s)
                         (center_point detection);
          do w <- formatCoordinate props (coordinateFormat s)
                    (width (dimensions detection)) None;
          do h <- formatCoordinate props (coordinateFormat s)
                    (height (dimensions detection)) None;
          JS.Normal
            (Some {| tooltip_left := (tooltip_x t + lit 10)%js;
                     tooltip_top := (tooltip_y t - lit 10)%js;
                     tooltip_class_name := class_name detection;
                     tooltip_confidence := conf ++ "%";
                     tooltip_center := center;
                     tooltip_size := (w, h) |})
      end
  end.

Definition rulerCircle (point : RulerPoint) : Circle :=
  {| circle_cx := ruler_x point; circle_cy := ruler_y point;
     circle_r := lit 6; circle_opacity := lit 1 |}.

(** The component's returned tree, in the order of the JSX. *)
Definition render : JS.completion Rendered :=
  do bs <- mapM renderBoundingBox (detections props);
  let circles := map rulerCircle (rulerPoints s) in
  let line :=
    match rulerPoints s with
    | [p0; p1] =>
        Some {| line_x1 := ruler_x p0; line_y1 := ruler_y p0;
                line_x2 := ruler_x p1; line_y2 := ruler_y p1 |}
    | _ => None
    end in
  do tip <- renderTooltip;
  let title :=
    match coordinatePopup s with
    | Some popup => Some (class_name (popup_detection popup))
    | None => None
    end in
  JS.Normal
    {| boxes := bs; ruler_circles := circles; ruler_line := line;
       tooltip := tip; popup_title := title |}.

End Render.

(** ** The specification's contracts

    Definitions that follow the words of the specification, to be compared
    with the functions of the source. *)

(** [computeDisplayExtents(imageExtents, maxHeight, exactDimensions)]: the
    extents unchanged under [exactDimensions] or when the height is at most
    [maxHeight]; else height [maxHeight] and width
    [round(maxHeight * width / height)]. *)
Definition computeDisplayExtents (imageExtents : Extents) (maxHeight : number)
  (exact : bool) : Extents :=
  if exact then imageExtents
  else if (height imageExtents <=? maxHeight)%js then imageExtents
  else
    {| width :=
         JS.to_number
           (JS.round
              ((maxHeight * width imageExtents) / height imageExtents)%js);
       height := maxHeight |}.


(** *** Reading a decimal numeral

    The value of the strings that the formatter prints: an optional minus
    sign, digits, and an optional point followed by digits. *)












(** The axis-aligned rectangle of a bounding box, in display space. *)
Definition bboxRectangle (b : BBox) (factors : Point) : list PathCommand :=
  [MoveTo (scalePoint (mkPoint (x1 b) (y1 b)) factors);
   LineTo (scalePoint (mkPoint (x2 b) (y1 b)) factors);
   LineTo (scalePoint (mkPoint (x2 b) (y2 b)) factors);
   LineTo (scalePoint (mkPoint (x1 b) (y2 b)) factors);
   ClosePath].

(** The polygon through four vertices, in display space, in the order
    top-left, top-right, bottom-right, bottom-left. *)
Definition vertexPolygon (v : Vertices) (factors : Point) : list PathCommand :=
  [MoveTo (scalePoint (top_left v) factors);
   LineTo (scalePoint (top_right v) factors);
   LineTo (scalePoint (bottom_right v) factors);
   LineTo (scalePoint (bottom_left v) factors);
   ClosePath].

(** The vertices are the corners of the bounding box. *)
Definition consistentVertices (detection : DetectionData) : Prop :=
  let b := bbox detection in
  vertices detection =
    {| top_left := mkPoint (x1 b) (y1 b);
       top_right := mkPoint (x2 b) (y1 b);
       bottom_left := mkPoint (x1 b) (y2 b);
       bottom_right := mkPoint (x2 b) (y2 b) |}.

(** A click in ruler mode stores a ruler point: the stored collection after
    the click is the one before it with the point of the click added, the
    point carrying the image-space coordinates of the coordinate mapper. *)
Definition clickAddsRulerPoint (props : Props) (refs : Refs)
  (target : ClickTarget) (e : MouseEvent) (s : State) : Prop :=
  exists rect,
    containerRef refs = Some rect /\
    rulerPoints (step props refs (Click target e) s) =
    addRulerPoint
      (newRulerPoint
         (getImageCoordinates props refs (clientX e) (clientY e)) rect e)
      (rulerPoints s).

(** Restoring the pointer position and the tooltip of [s] in [s'] gives
    back [s]: nothing else differs between the two. *)
Definition onlyPointerFieldsDiffer (s s' : State) : Prop :=
  setTooltipData (tooltipData s) (setMousePosition (mousePosition s) s') = s.

(** Equality of two numbers as values, decided. *)
Definition num_eqb (a b : number) : bool :=
  match a, b with
  | Fin x, Fin y => Qeq_bool x y
  | PosInf, PosInf | NegInf, NegInf | NaN, NaN => true
  | _, _ => false
  end.

Definition point_eqb (p q : Point) : bool :=
  num_eqb (px p) (px q) && num_eqb (py p) (py q).

(** Two paths draw the same commands through the same points. *)
Fixpoint path_eqb (a b : list PathCommand) : bool :=
  match a, b with
  | [], [] => true
  | MoveTo p :: a', MoveTo q :: b' => point_eqb p q && path_eqb a' b'
  | LineTo p :: a', LineTo q :: b' => point_eqb p q && path_eqb a' b'
  | ClosePath :: a', ClosePath :: b' => path_eqb a' b'
  | _, _ => false
  end.

(** Stroke width and opacity of a path both grow strictly from the default
    rendering to the hovered one, and from the hovered one to the selected
    one. *)
Definition visualWeightOrdered (selected hovered default : BoxElement) : Prop :=
  JS.ltb (path_strokeWidth hovered) (path_strokeWidth selected) = true /\
  JS.ltb (path_opacity hovered) (path_opacity selected) = true /\
  JS.ltb (path_strokeWidth default) (path_strokeWidth hovered) = true /\
  JS.ltb (path_opacity default) (path_opacity hovered) = true.

(** A failed clipboard write is surfaced as a transient notice: the state
    after it differs from the state before it, and a timer is set to take
    the notice away. *)
Definition failureSurfaced (before : State)
  (result : JS.completion (State * list Effect)) : Prop :=
  exists after effects delay,
    result = JS.Normal (after, effects) /\
    after <> before /\
    In (SetTimeout delay) effects.

(** Every clipboard write of the history is rejected. *)
Definition everyWriteFails (history : History) : Prop :=
  Forall
    (fun entry : Props * Refs * Event =>
       match snd entry with
       | CopySettled (JS.Normal _) _ _ => False
       | _ => True
       end) history.

(** The history consists of pointer moves over the surface. *)
Definition onlyPointerMoves (history : History) : Prop :=
  Forall
    (fun entry : Props * Refs * Event =>
       match snd entry with
       | PointerMove _ => True
       | _ => False
       end) history.


(** ** Sample inputs *)

Definition catDetection : DetectionData :=
  {| id := 1;
     class_name := "cat";
     confidence := lit 0.87;
     bbox := mkBBox (lit 100) (lit 200) (lit 300) (lit 400);
     vertices :=
       mkVertices (mkPoint (lit 100) (lit 200)) (mkPoint (lit 300) (lit 200))
         (mkPoint (lit 100) (lit 400)) (mkPoint (lit 300) (lit 400));
     center_point := mkPoint (lit 200) (lit 300);
     area := lit 40000;
     dimensions := mkExtents (lit 200) (lit 200);
     matched_request := true |}.

(** A detection whose vertices are not the corners of its bounding box. *)
Definition skewedDetection : DetectionData :=
  {| id := 2;
     class_name := "dog";
     confidence := lit 0.5;
     bbox := mkBBox (lit 0) (lit 0) (lit 10) (lit 10);
     vertices :=
       mkVertices (mkPoint (lit 1) (lit 1)) (mkPoint (lit 5) (lit 2))
         (mkPoint (lit 0) (lit 5)) (mkPoint (lit 6) (lit 7));
     center_point := mkPoint (lit 5) (lit 5);
     area := lit 100;
     dimensions := mkExtents (lit 10) (lit 10);
     matched_request := false |}.

(** A detection with a vertex that is not finite. *)
Definition nonFiniteDetection : DetectionData :=
  {| id := 3;
     class_name := "bird";
     confidence := NaN;
     bbox := mkBBox (lit 0) (lit 0) (lit 10) (lit 10);
     vertices :=
       mkVertices (mkPoint NaN PosInf) (mkPoint (lit 10) (lit 0))
         (mkPoint (lit 0) (lit 10)) (mkPoint (lit 10) (lit 10));
     center_point := mkPoint (lit 5) (lit 5);
     area := lit 100;
     dimensions := mkExtents (lit 10) (lit 10);
     matched_request := false |}.

(** A 1920 x 1080 image with one detection. *)
Definition hdProps : Props :=
  {| imageWidth := lit 1920; imageHeight := lit 1080;
     detections := [catDetection]; exactDimensions := false |}.

(** The same image once the detection array no longer holds detection 1. *)
Definition emptiedProps : Props :=
  {| imageWidth := lit 1920; imageHeight := lit 1080;
     detections := []; exactDimensions := false |}.

(** Container and image mounted at the origin, the image at 1067 x 600. *)
Definition mountedRefs : Refs :=
  {| containerRef := Some (mkRect (lit 0) (lit 0) (lit 1067) (lit 700));
     imageRef := Some (mkRect (lit 0) (lit 100) (lit 1067) (lit 600)) |}.

Definition pointerAt (x y : Q) : MouseEvent :=
  {| clientX := lit x; clientY := lit y |}.

Definition rulerOn : State := handleRulerToggle initialState.

(** Detection 1 selected and not hovered; hovered and not selected; hovered
    and selected. *)
Definition selectedState : State := onDetectionSelect (Some 1%Z) initialState.

Definition hoveredState : State := setHoveredDetection (Some 1%Z) initialState.

Definition hoveredSelectedState : State :=
  setHoveredDetection (Some 1%Z) selectedState.

(** ** Further parts of the overlay *)

(** The [left] and [top] of the coordinate popup: the anchor of the click,
    kept 320 inside the right edge of the display and 10 below its top. *)
Definition popupPosition (s : State) : option (number * number) :=
  match coordinatePopup s with
  | Some popup =>
      Some (JS.min (popup_x popup) (width (displayDimensions s) - lit 320)%js,
            JS.max (lit 10) (popup_y popup - lit 150)%js)
  | None => None
  end.

(** A box is drawn as selected: with the crosshair on its centre. *)
Definition drawnSelected (box : BoxElement) : bool :=
  match crosshair box with
  | Some _ => true
  | None => false
  end.

(** The [onClick] of a detection card of [DetectionResults], the parent of
    the overlay:
    [setSelectedDetectionId(selectedDetectionId === detection.id ? null :
    detection.id)]. *)
Definition handleCardClick (detection : DetectionData) (s : State) : State :=
  onDetectionSelect
    (if isId (selectedDetectionId s) detection then None
     else Some (id detection)) s.

(** Every render of the history receives the detections [ds]. *)
Definition sameDetections (ds : list DetectionData) (history : History)
  : Prop :=
  Forall
    (fun entry : Props * Refs * Event => detections (fst (fst entry)) = ds)
    history.

(** The pointer enters only shapes that the render draws: those of the
    detections of its props. *)
Definition entersDrawnShapes (history : History) : Prop :=
  Forall
    (fun entry : Props * Refs * Event =>
       match snd entry with
       | PointerEnter detection => In detection (detections (fst (fst entry)))
       | _ => True
       end) history.

(** The tooltip is stored only with a hover and a pointer position. *)
Definition tooltipWithHover (s : State) : Prop :=
  match tooltipData s with
  | Some _ => hoveredDetection s <> None /\ mousePosition s <> None
  | None => True
  end.

(** Every hovered id and every stored tooltip names a detection of [ds]. *)
Definition hoverWithin (ds : list DetectionData) (s : State) : Prop :=
  (forall hovered,
      hoveredDetection s = Some hovered ->
      exists detection, In detection ds /\ id detection = hovered)
  /\ (forall t,
      tooltipData s = Some t ->
      exists detection,
        tooltip_detection t = Some detection /\ In detection ds).

(** ** Strings of the object selection

    A JavaScript string is embedded as the sequence of its code units, for
    strings whose code units are below 256 (Latin-1): on these [trim],
    [split], [join], [includes] and [toLowerCase] act unit by unit as
    below. *)

Module JSString.

(** White space and line terminators of ECMAScript below 256: tab, line
    feed, vertical tab, form feed, carriage return, space and no-break
    space. *)
Definition is_whitespace (c : ascii) : bool :=
  let n := N_of_ascii c in
  ((9 <=? n) && (n <=? 13) || (n =? 32) || (n =? 160))%N.

Fixpoint trimStart (s : string) : string :=
  match s with
  | "" => ""
  | String c r => if is_whitespace c then trimStart r else s
  end.

Fixpoint trimEnd (s : string) : string :=
  match s with
  | "" => ""
  | String c r =>
      let r' := trimEnd r in
      if (is_whitespace c && String.eqb r' "")%bool then "" else String c r'
  end.

(** [s.trim()] *)
Definition trim (s : string) : string := trimEnd (trimStart s).

(** The lower case of a code unit: the letters A to Z and the capital
    letters of U+00C0 to U+00DE, the multiplication sign apart, move up by
    32. *)
Definition lower_char (c : ascii) : ascii :=
  let n := N_of_ascii c in
  if ((65 <=? n) && (n <=? 90) || (192 <=? n) && (n <=? 214)
      || (216 <=? n) && (n <=? 222))%N
  then ascii_of_N (n + 32) else c.

(** [s.toLowerCase()] *)
Fixpoint toLowerCase (s : string) : string :=
  match s with
  | "" => ""
  | String c r => String (lower_char c) (toLowerCase r)
  end.

(** [s.includes(search)] *)
Fixpoint includes (s search : string) : bool :=
  (prefix search s
   || match s with
      | "" => false
      | String _ r => includes r search
      end)%bool.

(** [s.split(sep)] for a separator of one code unit: never empty. *)
Fixpoint split (sep : ascii) (s : string) : list string :=
  match s with
  | "" => [""]
  | String c r =>
      if Ascii.eqb c sep then "" :: split sep r
      else
        match split sep r with
        | w :: ws => String c w :: ws
        | [] => [String c ""]
        end
  end.

(** [array.join(sep)] *)
Fixpoint join (sep : string) (l : list string) : string :=
  match l with
  | [] => ""
  | [x] => x
  | x :: rest => x ++ sep ++ join sep rest
  end.

(** [array.includes(x)] on strings. *)
Definition array_includes (l : list string) (x : string) : bool :=
  existsb (String.eqb x) l.

(** The code unit [c] occurs in [s]. *)
Fixpoint contains_char (c : ascii) (s : string) : bool :=
  match s with
  | "" => false
  | String x r => (Ascii.eqb x c || contains_char c r)%bool
  end.

(** A string that does not start with white space. *)
Definition startsBlack (s : string) : Prop :=
  match s with
  | "" => True
  | String c _ => is_whitespace c = false
  end.

End JSString.

(** ** Object selection

    The handlers of [ObjectSelection.tsx] that keep the text of the input,
    the selected objects, the suggestions and the recent searches.  The
    selected objects live in the parent and are threaded as a field, as
    for the overlay. *)

Module ObjectSelection.

Import JSString.

Record State : Type := mkState {
  inputValue : string;
  availableClasses : list string;
  suggestions : list string;
  showSuggestions : bool;
  recentSearches : list string;
  showRecentSearches : bool;
  selectedObjects : list string
}.

Definition setInputValue (v : string) (s : State) : State :=
  mkState v (availableClasses s) (suggestions s) (showSuggestions s)
    (recentSearches s) (showRecentSearches s) (selectedObjects s).

Definition setSuggestions (v : list string) (s : State) : State :=
  mkState (inputValue s) (availableClasses s) v (showSuggestions s)
    (recentSearches s) (showRecentSearches s) (selectedObjects s).

Definition setShowSuggestions (v : bool) (s : State) : State :=
  mkState (inputValue s) (availableClasses s) (suggestions s) v
    (recentSearches s) (showRecentSearches s) (selectedObjects s).

Definition setRecentSearches (v : list string) (s : State) : State :=
  mkState (inputValue s) (availableClasses s) (suggestions s)
    (showSuggestions s) v (showRecentSearches s) (selectedObjects s).

Definition setShowRecentSearches (v : bool) (s : State) : State :=
  mkState (inputValue s) (availableClasses s) (suggestions s)
    (showSuggestions s) (recentSearches s) v (selectedObjects s).

(** The parent's setter, passed as [onObjectsChange]. *)
Definition onObjectsChange (v : list string) (s : State) : State :=
  mkState (inputValue s) (availableClasses s) (suggestions s)
    (showSuggestions s) (recentSearches s) (showRecentSearches s) v.

(** What the handlers write to [localStorage] and to the console. *)
Inductive StorageEffect : Type :=
| SetItem (value : list string)
| RemoveItem
| LogError (message : string).

(** [value.split(',').map(obj => obj.trim()).filter(obj => obj.length > 0)],
    as [handleInputBlur], [handleSuggestionClick] and
    [handleRecentSearchClick] write it out. *)
Definition parseObjects (value : string) : list string :=
  filter (fun obj => (0 <? String.length obj)%nat)
    (map trim (split "," value)).

(** [saveToRecentSearches], given how [localStorage.setItem] completes.
    The state is set before the item: a failed write is logged and leaves
    the new list in the state. *)
Definition saveToRecentSearches (stored : JS.completion unit)
  (objects : list string) (s : State) : State * list StorageEffect :=
  match objects with
  | [] => (s, [])
  | _ =>
      let searchString := join ", " objects in
      let updated :=
        firstn 10
          (searchString
           :: filter (fun x => negb (String.eqb x searchString))
                (recentSearches s)) in
      (setRecentSearches updated s,
       match stored with
       | JS.Normal _ => [SetItem updated]
       | JS.Throw _ =>
           [SetItem updated; LogError "Failed to save recent search:"]
       end)
  end.

(** [generateSuggestions] *)
Definition generateSuggestions (s : State) (input : string) : list string :=
  if (String.eqb (trim input) ""
      || (List.length (availableClasses s) =? 0)%nat)%bool
  then []
  else
    let searchTerm := trim (toLowerCase input) in
    let currentObjects :=
      map (fun obj => trim (toLowerCase obj)) (selectedObjects s) in
    firstn 8
      (filter
         (fun className =>
            (includes (toLowerCase className) searchTerm
             && negb (array_includes currentObjects (toLowerCase className)))%bool)
         (availableClasses s)).

(** [handleInputChange] *)
Definition handleInputChange (value : string) (s : State) : State :=
  let words := split "," value in
  let currentWord := trim (last words "") in
  let newSuggestions := generateSuggestions s currentWord in
  setShowSuggestions
    ((0 <? List.length newSuggestions)%nat
     && (0 <? String.length currentWord)%nat)%bool
    (setSuggestions newSuggestions (setInputValue value s)).

(** [handleInputBlur]; the two dropdowns are hidden by the callback of its
    timer, [hideDropdowns]. *)
Definition handleInputBlur (stored : JS.completion unit) (s : State)
  : State * list StorageEffect :=
  let objects := parseObjects (inputValue s) in
  let s1 := onObjectsChange objects s in
  if (0 <? List.length objects)%nat then saveToRecentSearches stored objects s1
  else (s1, []).

Definition hideDropdowns (s : State) : State :=
  setShowRecentSearches false (setShowSuggestions false s).

(** The effect on [selectedObjects]:
    [setInputValue(selectedObjects.join(', '))]. *)
Definition syncInputValue (s : State) : State :=
  setInputValue (join ", " (selectedObjects s)) s.

(** [handleInputFocus], as the handler of the render of state [rendered]
    run on the pending state [s]: it reads the [inputValue] and the
    [recentSearches] of its render. *)
Definition handleInputFocusOf (rendered s : State) : State :=
  if (String.eqb (trim (inputValue rendered)) ""
      && (0 <? List.length (recentSearches rendered))%nat)%bool
  then setShowRecentSearches true s else s.

Definition handleInputFocus (s : State) : State := handleInputFocusOf s s.

(** [inputRef.current?.focus()]: [focusFires] says whether the input is
    mounted and not focused yet, so that the call fires its focus
    handler. *)
Definition focusInput (focusFires : bool) (rendered s : State) : State :=
  if focusFires then handleInputFocusOf rendered s else s.

(** [words[words.length - 1] = v] on an array that is not empty. *)
Fixpoint setLast (v : string) (words : list string) : list string :=
  match words with
  | [] => []
  | [_] => [v]
  | w :: rest => w :: setLast v rest
  end.

(** [handleSuggestionClick] *)
Definition handleSuggestionClick (focusFires : bool) (suggestion : string)
  (s : State) : State :=
  let words := split "," (inputValue s) in
  let words := setLast (" " ++ suggestion) words in
  let newValue := join "," words in
  let objects := parseObjects newValue in
  focusInput focusFires s
    (onObjectsChange objects
       (setShowSuggestions false (setInputValue newValue s))).

(** [handleRecentSearchClick] *)
Definition handleRecentSearchClick (focusFires : bool)
  (searchString : string) (s : State) : State :=
  let objects := parseObjects searchString in
  focusInput focusFires s
    (onObjectsChange objects
       (setShowRecentSearches false (setInputValue searchString s))).

(** [array.filter((_, index) => keep index)], from index [i] on. *)
Fixpoint filterIndex {A : Type} (keep : nat -> bool) (i : nat) (l : list A)
  : list A :=
  match l with
  | [] => []
  | a :: rest =>
      if keep i then a :: filterIndex keep (S i) rest
      else filterIndex keep (S i) rest
  end.

(** [removeObject] *)
Definition removeObject (indexToRemove : nat) (s : State) : State :=
  let newObjects :=
    filterIndex (fun index => negb (index =? indexToRemove)%nat) 0
      (selectedObjects s) in
  onObjectsChange newObjects s.

(** [clearRecentSearches] *)
Definition clearRecentSearches (s : State) : State * list StorageEffect :=
  (setShowRecentSearches false (setRecentSearches [] s), [RemoveItem]).

(** An object as the parser returns it: not empty, without comma, and
    without white space at either end. *)
Definition cleanObject (obj : string) : Prop :=
  obj <> "" /\ contains_char "," obj = false /\ trim obj = obj.

(** [handleKeyDown]: Enter commits the input as a blur does. *)
Definition handleKeyDown (key : string) (stored : JS.completion unit)
  (s : State) : State * list StorageEffect :=
  if String.eqb key "Enter" then handleInputBlur stored s else (s, []).

(** What happens to a mounted selection: the events of its input, of its
    dropdowns and of the tags, the callback of the blur timer, the effect
    on [selectedObjects], and the two loads of the mount. *)
Inductive Event : Type :=
| InputChange (value : string)
| InputBlur (stored : JS.completion unit)
| BlurTimer
| SelectedObjectsEffect
| InputFocus
| SuggestionClick (focusFires : bool) (suggestion : string)
| RecentSearchClick (focusFires : bool) (searchString : string)
| KeyDown (key : string) (stored : JS.completion unit)
| RemoveObject (index : nat)
| ClearRecentSearches
| ClassesLoaded (classes : list string)
| RecentSearchesLoaded (saved : list string).

Definition setAvailableClasses (v : list string) (s : State) : State :=
  mkState (inputValue s) v (suggestions s) (showSuggestions s)
    (recentSearches s) (showRecentSearches s) (selectedObjects s).

Definition step (e : Event) (s : State) : State * list StorageEffect :=
  match e with
  | InputChange value => (handleInputChange value s, [])
  | InputBlur stored => handleInputBlur stored s
  | BlurTimer => (hideDropdowns s, [])
  | SelectedObjectsEffect => (syncInputValue s, [])
  | InputFocus => (handleInputFocus s, [])
  | SuggestionClick focusFires suggestion =>
      (handleSuggestionClick focusFires suggestion s, [])
  | RecentSearchClick focusFires searchString =>
      (handleRecentSearchClick focusFires searchString s, [])
  | KeyDown key stored => handleKeyDown key stored s
  | RemoveObject index => (removeObject index s, [])
  | ClearRecentSearches => clearRecentSearches s
  | ClassesLoaded classes => (setAvailableClasses classes s, [])
  | RecentSearchesLoaded saved => (setRecentSearches saved s, [])
  end.

Fixpoint run (history : list Event) (s : State) : State :=
  match history with
  | [] => s
  | e :: rest => run rest (fst (step e s))
  end.

(** The selection as [ImageUpload] mounts it: nothing typed, nothing
    loaded, no object selected. *)
Definition initialState : State := mkState "" [] [] false [] false [].

End ObjectSelection.

(** ** The detection request

    [handleDetectObjects] of [ImageUpload.tsx] sends the selected objects
    as one form field. *)

Module ImageUpload.

(** [formData.append('objects', detectionOptions.objects.join(','))] *)
Definition objectsField (objects : list string) : string :=
  JSString.join "," objects.

End ImageUpload.

(** ** Binary64

    What the engine computes: every arithmetic operation of the source
    returns the binary64 value nearest to its exact result.  The
    functions of the overlay whose result depends on that rounding are
    given here once more, expression by expression as in the source, with
    each operation rounded; [Math.round] and [toFixed] are exact on the
    binary64 value they receive.  The sign of zero is not kept. *)

Module Binary64.

(** The exponent of a positive rational: the [e] with
    [2 ^ e <= q < 2 ^ (e + 1)]. *)
Definition floor_log2 (q : Q) : Z :=
  let e0 := (Z.log2 (Qnum q) - Z.log2 (Z.pos (Qden q)))%Z in
  if Qle_bool (2 ^ e0) q then e0 else (e0 - 1)%Z.

(** Nearest integer, a tie going to the even one. *)
Definition round_half_even (q : Q) : Z :=
  let k := Qfloor q in
  match Qcompare (q - inject_Z k) (1 # 2) with
  | Lt => k
  | Gt => (k + 1)%Z
  | Eq => if Z.even k then k else (k + 1)%Z
  end.

(** The unit in the last place of a positive rational: 53 significant
    bits, and never below [2 ^ -1074] (the subnormal values). *)
Definition ulp_exponent (q : Q) : Z := Z.max (floor_log2 q - 52) (-1074).

(** The multiple of the unit in the last place nearest to [q], a tie
    going to the even significand: the binary64 value of [q] before the
    check for overflow. *)
Definition round64 (q : Q) : Q :=
  match Qcompare q 0 with
  | Eq => 0
  | Gt =>
      let u := ulp_exponent q in
      inject_Z (round_half_even (q / 2 ^ u)) * 2 ^ u
  | Lt =>
      let u := ulp_exponent (- q) in
      - (inject_Z (round_half_even (- q / 2 ^ u)) * 2 ^ u)
  end.

(** Rounding of an exact result to binary64: a magnitude that rounds to
    [2 ^ 1024] or more overflows to an infinity. *)
Definition fl (x : number) : number :=
  match x with
  | Fin q =>
      let r := round64 q in
      if Qle_bool (2 ^ 1024) (Qabs r)
      then (if Qle_bool 0 q then PosInf else NegInf)
      else Fin r
  | _ => x
  end.

Definition mul (x y : number) : number := fl (JS.mul x y).

Definition div (x y : number) : number := fl (JS.div x y).

Section Overlay.

Variable props : Props.

(** [getScaledDimensions] *)
Definition getScaledDimensions : Extents :=
  if exactDimensions props then
    {| width := imageWidth props; height := imageHeight props |}
  else
    let maxHeight := lit 600 in
    let aspectRatio := div (imageWidth props) (imageHeight props) in
    if (imageHeight props <=? maxHeight)%js then
      {| width := imageWidth props; height := imageHeight props |}
    else
      let scaledHeight := maxHeight in
      let scaledWidth :=
        JS.to_number (JS.round (mul scaledHeight aspectRatio)) in
      {| width := scaledWidth; height := scaledHeight |}.

(** The body of [updateDimensions]. *)
Definition updateDimensions (s : State) : State :=
  let scaledDimensions := getScaledDimensions in
  if exactDimensions props then
    setScaleFactors {| px := lit 1; py := lit 1 |}
      (setDisplayDimensions
         {| width := imageWidth props; height := imageHeight props |} s)
  else
    setScaleFactors
      {| px := div (width scaledDimensions) (imageWidth props);
         py := div (height scaledDimensions) (imageHeight props) |}
      (setDisplayDimensions
         {| width := width scaledDimensions;
            height := height scaledDimensions |} s).

(** [formatCoordinate] *)
Definition formatCoordinate (format : CoordinateFormat) (value : number)
  (axis : option Axis) : JS.completion string :=
  match format with
  | percentage =>
      let maxValue := axisExtent props axis in
      do s <- JS.toFixed (mul (div value maxValue) (lit 100)) 1;
      JS.Normal (s ++ "%")
  | normalized =>
      let normalizedMax := axisExtent props axis in
      JS.toFixed (div value normalizedMax) 3
  | pixels => JS.Normal (JS.toString (JS.round value))
  end.

End Overlay.

End Binary64.

(** ** Detections that differ in their bounding box *)

(** The detection with another bounding box and every other field kept. *)
Definition withBBox (b : BBox) (detection : DetectionData) : DetectionData :=
  {| id := id detection;
     class_name := class_name detection;
     confidence := confidence detection;
     bbox := b;
     vertices := vertices detection;
     center_point := center_point detection;
     area := area detection;
     dimensions := dimensions detection;
     matched_request := matched_request detection |}.

(** ** The stale reference of the specification *)


(** ** Proof automation *)

(** Case analysis on what the handlers read of the state and of the refs
    before they write. *)
Ltac handler_cases s refs :=
  repeat
    match goal with
    | |- context [rulerMode s] => destruct (rulerMode s) eqn:?
    | |- context [containerRef refs] => destruct (containerRef refs) eqn:?
    end.


(** * Properties *)

(** ** Numbers *)

Lemma round_half_up_near (q : Q) :
  inject_Z (JS.round_half_up q) - (1 # 2) <= q /\
  q < inject_Z (JS.round_half_up q) + (1 # 2).
Proof.
  unfold JS.round_half_up.
  pose proof (Qfloor_le (q + (1 # 2))) as Hle.
  pose proof (Qlt_floor (q + (1 # 2))) as Hlt.
  rewrite inject_Z_plus in Hlt. change (inject_Z 1) with 1 in Hlt.
  split; lra.
Qed.

Lemma Qle_bool_false_lt (a b : Q) : Qle_bool a b = false -> b < a.
Proof.
  intros H. apply Qnot_le_lt. intros L.
  apply Qle_bool_iff in L. congruence.
Qed.

Lemma Qsign_pos (q : Q) : 0 < q -> JS.Qsign q = Gt.
Proof.
  intros H. unfold JS.Qsign. now apply Qgt_alt.
Qed.

Lemma Qsign_nonzero (q : Q) : ~ q == 0 -> JS.Qsign q <> Eq.
Proof.
  intros Hq E. apply Hq. unfold JS.Qsign in E. now apply Qeq_alt.
Qed.

Lemma div_finite (a b : Q) :
  ~ b == 0 -> JS.div (Fin a) (Fin b) = Fin (a / b).
Proof.
  intros Hb. unfold JS.div.
  pose proof (Qsign_nonzero b Hb) as Hs.
  destruct (JS.Qsign b); [contradiction | reflexivity | reflexivity].
Qed.

(** ** Scaling *)

Lemma leb_cap_refl : JS.leb (lit 600) (lit 600) = true.
Proof. reflexivity. Qed.

(** ** Ruler *)

Lemma addRulerPoint_length (p : RulerPoint) (prev : list RulerPoint) :
  (List.length (addRulerPoint p prev) <= 2)%nat.
Proof.
  unfold addRulerPoint.
  destruct (2 <=? List.length prev)%nat eqn:E.
  - simpl. lia.
  - apply Nat.leb_gt in E. rewrite length_app. simpl. lia.
Qed.

Lemma handleImageClick_ruler (props : Props) (refs : Refs) (rect : DOMRect)
  (e : MouseEvent) (s : State) :
  rulerMode s = true -> containerRef refs = Some rect ->
  handleImageClick props refs e s =
  setRulerPoints
    (addRulerPoint
       (newRulerPoint
          (getImageCoordinates props refs (clientX e) (clientY e)) rect e)) s.
Proof.
  intros Hr Hc. unfold handleImageClick. now rewrite Hr, Hc.
Qed.

Lemma step_ruler_bound (props : Props) (refs : Refs) (ev : Event) (s : State) :
  (List.length (rulerPoints s) <= 2)%nat ->
  (List.length (rulerPoints (step props refs ev s)) <= 2)%nat.
Proof.
  intros Hs.
  destruct ev as [e| |d|target e|f| | | |written text label| |]; simpl.
  - unfold handleMouseMove.
    destruct (hoveredDetection s); [destruct (containerRef refs)|]; exact Hs.
  - exact Hs.
  - exact Hs.
  - destruct target as [d|d i|]; simpl;
      unfold handleBoxClick, handleImageClick; handler_cases s refs; simpl;
      try exact Hs; apply addRulerPoint_length.
  - exact Hs.
  - unfold handleRulerToggle. destruct (rulerMode s); simpl; [exact Hs | lia].
  - lia.
  - exact Hs.
  - destruct written; exact Hs.
  - exact Hs.
  - unfold updateDimensions. destruct (exactDimensions props); exact Hs.
Qed.

Lemma history_ruler_bound (history : History) (s : State) :
  (List.length (rulerPoints s) <= 2)%nat ->
  (List.length (rulerPoints (runHistory history s)) <= 2)%nat.
Proof.
  revert s. induction history as [|[[props refs] ev] history IH]; intros s Hs.
  - exact Hs.
  - simpl. apply IH. now apply step_ruler_bound.
Qed.

(** C8.  Ruler overflow: a third point added to [[p1; p2]] leaves exactly
    [[p3]]; a point added to fewer than two is appended; a click in ruler
    mode adds its point in this way, and no history of events from the
    first render stores more than two points. *)
Theorem ruler_overflow_resets :
  (forall p1 p2 p3 : RulerPoint, addRulerPoint p3 [p1; p2] = [p3])
  /\ (forall (prev : list RulerPoint) (p : RulerPoint),
      (List.length prev < 2)%nat -> addRulerPoint p prev = (prev ++ [p])%list)
  /\ (forall (props : Props) (refs : Refs) (rect : DOMRect) (e : MouseEvent)
        (s : State),
      rulerMode s = true -> containerRef refs = Some rect ->
      rulerPoints (step props refs (Click OnSurface e) s) =
      addRulerPoint
        (newRulerPoint
           (getImageCoordinates props refs (clientX e) (clientY e)) rect e)
        (rulerPoints s))
  /\ (forall history : History,
      (List.length (rulerPoints (runHistory history initialState)) <= 2)%nat).
Proof.
  split; [reflexivity|]. split; [|split].
  - intros prev p Hlen. unfold addRulerPoint.
    destruct (2 <=? List.length prev)%nat eqn:E; [|reflexivity].
    apply Nat.leb_le in E. lia.
  - intros props refs rect e s Hr Hc. simpl.
    now rewrite (handleImageClick_ruler props refs rect e s Hr Hc).
  - intros history. apply history_ruler_bound. simpl. lia.
Qed.

Example ruler_third_click :
  rulerPoints
    (run hdProps mountedRefs
       [RulerToggle; Click OnSurface (pointerAt 10 110);
        Click OnSurface (pointerAt 20 120); Click OnSurface (pointerAt 30 130)]
       initialState)
  = [newRulerPoint
       (getImageCoordinates hdProps mountedRefs (lit 30) (lit 130))
       (mkRect (lit 0) (lit 0) (lit 1067) (lit 700)) (pointerAt 30 130)].
Proof. vm_compute. reflexivity. Qed.

(** ** Hover *)

Lemma handleMouseMove_hovered (props : Props) (refs : Refs) (e : MouseEvent)
  (s : State) :
  hoveredDetection (handleMouseMove props refs e s) = hoveredDetection s.
Proof.
  unfold handleMouseMove.
  destruct (hoveredDetection s) eqn:E; [destruct (containerRef refs)|];
    simpl; congruence.
Qed.

Lemma handleMouseMove_frame (props : Props) (refs : Refs) (e : MouseEvent)
  (s : State) :
  onlyPointerFieldsDiffer s (handleMouseMove props refs e s).
Proof.
  unfold onlyPointerFieldsDiffer, handleMouseMove.
  destruct s as [hov tip pop fmt rm rp cc mp dd sf sel]; simpl.
  destruct hov; [destruct (containerRef refs)|]; reflexivity.
Qed.

Lemma pointer_moves_keep_hover (history : History) (s : State) :
  onlyPointerMoves history ->
  hoveredDetection (runHistory history s) = hoveredDetection s.
Proof.
  intros Hmoves. revert s.
  induction Hmoves as [|[[props refs] ev] history Hev _ IH]; intros s;
    [reflexivity|].
  simpl in Hev. destruct ev; try contradiction.
  simpl. rewrite IH. apply handleMouseMove_hovered.
Qed.

(** Every event other than leaving the container and entering a shape
    leaves [hoveredDetection] as it is. *)
Lemma step_hover_change (props : Props) (refs : Refs) (ev : Event) (s : State) :
  hoveredDetection (step props refs ev s) <> hoveredDetection s ->
  (ev = PointerLeave /\ hoveredDetection (step props refs ev s) = None) \/
  (exists detection,
      ev = PointerEnter detection /\
      hoveredDetection (step props refs ev s) = Some (id detection)).
Proof.
  intros Hne.
  destruct ev as [e| |d|target e|f| | | |written text label| |].
  - exfalso. apply Hne. apply handleMouseMove_hovered.
  - left. split; reflexivity.
  - right. exists d. split; reflexivity.
  - exfalso. apply Hne. simpl.
    destruct target as [d|d i|]; simpl; unfold handleBoxClick, handleImageClick;
      handler_cases s refs; reflexivity.
  - exfalso. apply Hne. reflexivity.
  - exfalso. apply Hne. simpl. unfold handleRulerToggle.
    destruct (rulerMode s); reflexivity.
  - exfalso. apply Hne. reflexivity.
  - exfalso. apply Hne. reflexivity.
  - exfalso. apply Hne. simpl. destruct written; reflexivity.
  - exfalso. apply Hne. reflexivity.
  - exfalso. apply Hne. simpl. unfold updateDimensions.
    destruct (exactDimensions props); reflexivity.
Qed.

(** C10.  Hover persistence: a pointer move never changes
    [hoveredDetection]; it only writes the pointer position and, while a
    detection is hovered and the container is mounted, a tooltip at the
    pointer for the hovered id.  So the hover survives any run of pointer
    moves, and it changes only when the pointer leaves the container (to
    null) or enters a shape (to the id of that shape). *)
Theorem hover_persists_across_pointer_moves (props : Props) (refs : Refs) :
  (forall (e : MouseEvent) (s : State),
      hoveredDetection (handleMouseMove props refs e s) = hoveredDetection s
      /\ onlyPointerFieldsDiffer s (handleMouseMove props refs e s)
      /\ mousePosition (handleMouseMove props refs e s) =
         Some (getImageCoordinates props refs (clientX e) (clientY e)))
  /\ (forall (e : MouseEvent) (s : State) (hovered : Z) (rect : DOMRect),
      hoveredDetection s = Some hovered ->
      containerRef refs = Some rect ->
      tooltipData (handleMouseMove props refs e s) =
      Some {| tooltip_detection := findDetection props hovered;
              tooltip_x := (clientX e - rect_left rect)%js;
              tooltip_y := (clientY e - rect_top rect)%js |})
  /\ (forall (history : History) (s : State),
      onlyPointerMoves history ->
      hoveredDetection (runHistory history s) = hoveredDetection s)
  /\ (forall (ev : Event) (s : State),
      hoveredDetection (step props refs ev s) <> hoveredDetection s ->
      (ev = PointerLeave /\ hoveredDetection (step props refs ev s) = None) \/
      (exists detection,
          ev = PointerEnter detection /\
          hoveredDetection (step props refs ev s) = Some (id detection)))
  /\ (forall s : State,
      hoveredDetection (step props refs PointerLeave s) = None)
  /\ (forall (detection : DetectionData) (s : State),
      hoveredDetection (step props refs (PointerEnter detection) s) =
      Some (id detection)).
Proof.
  split; [|split; [|split; [|split; [|split]]]].
  - intros e s. split; [apply handleMouseMove_hovered|].
    split; [apply handleMouseMove_frame|].
    unfold handleMouseMove.
    destruct (hoveredDetection s); [destruct (containerRef refs)|]; reflexivity.
  - intros e s hovered rect Hh Hc. unfold handleMouseMove.
    now rewrite Hh, Hc.
  - apply pointer_moves_keep_hover.
  - apply step_hover_change.
  - reflexivity.
  - reflexivity.
Qed.

(** The pointer enters the cat, moves off it over the surface, and the
    tooltip still shows the cat at the pointer. *)
Example hover_off_shape :
  let s :=
    run hdProps mountedRefs
      [PointerEnter catDetection; PointerMove (pointerAt 900 650)]
      initialState in
  hoveredDetection s = Some 1%Z /\
  tooltipData s =
    Some {| tooltip_detection := Some catDetection;
            tooltip_x := (lit 900 - lit 0)%js;
            tooltip_y := (lit 650 - lit 0)%js |}.
Proof. vm_compute. split; reflexivity. Qed.

(** ** Clicks in ruler mode *)

Lemma handleBoxClick_ruler (refs : Refs)
  (detection : DetectionData) (e : MouseEvent) (s : State) :
  rulerMode s = true ->
  handleBoxClick refs detection e s = (s, true).
Proof.
  intros Hr. unfold handleBoxClick. now rewrite Hr.
Qed.

Lemma box_click_stops_propagation (refs : Refs) (detection : DetectionData)
  (e : MouseEvent) (s : State) :
  snd (handleBoxClick refs detection e s) = true.
Proof.
  unfold handleBoxClick. handler_cases s refs; reflexivity.
Qed.

(** With ruler mode on, a click on the path of the cat stores no point:
    [handleBoxClick] stops the propagation and returns, so
    [handleImageClick] never sees the click. *)
Lemma shape_click_in_ruler_mode_adds_no_point :
  rulerMode rulerOn = true /\
  ~ clickAddsRulerPoint hdProps mountedRefs (OnPath catDetection)
      (pointerAt 56 211) rulerOn.
Proof.
  split; [reflexivity|].
  intros [rect [_ Hadd]]. vm_compute in Hadd. discriminate Hadd.
Qed.

(** C2, amended.  With ruler mode on and the container mounted, a click
    that reaches the click handler of the surface (a click on its
    background) stores the point of the click, with the image-space
    coordinates of [getImageCoordinates], under the overflow rule; a click
    on the path or on a corner dot of a detection is consumed by
    [handleBoxClick] and changes nothing. *)
Theorem surface_click_in_ruler_mode_adds_point (props : Props) (refs : Refs)
  (rect : DOMRect) (e : MouseEvent) (s : State) :
  rulerMode s = true ->
  containerRef refs = Some rect ->
  clickAddsRulerPoint props refs OnSurface e s
  /\ (forall point,
      In point (rulerPoints (step props refs (Click OnSurface e) s)) ->
      In point (rulerPoints s) \/
      (imageX point =
         px (getImageCoordinates props refs (clientX e) (clientY e))
       /\ imageY point =
          py (getImageCoordinates props refs (clientX e) (clientY e))))
  /\ In (newRulerPoint (getImageCoordinates props refs (clientX e) (clientY e))
           rect e)
        (rulerPoints (step props refs (Click OnSurface e) s))
  /\ (forall detection : DetectionData,
      step props refs (Click (OnPath detection) e) s = s)
  /\ (forall (detection : DetectionData) (index : nat),
      step props refs (Click (OnCornerDot detection index) e) s = s).
Proof.
  intros Hr Hc.
  assert (rulerPoints (step props refs (Click OnSurface e) s) =
          addRulerPoint
            (newRulerPoint
               (getImageCoordinates props refs (clientX e) (clientY e)) rect e)
            (rulerPoints s)) as Hadd.
  { simpl. now rewrite (handleImageClick_ruler props refs rect e s Hr Hc). }
  split; [exists rect; split; [exact Hc | exact Hadd]|].
  split; [|split; [|split]].
  - intros point Hin. rewrite Hadd in Hin. unfold addRulerPoint in Hin.
    destruct (2 <=? List.length (rulerPoints s))%nat.
    + destruct Hin as [<-|[]]. right. split; reflexivity.
    + apply in_app_or in Hin. destruct Hin as [Hin|[<-|[]]].
      * left. exact Hin.
      * right. split; reflexivity.
  - rewrite Hadd. unfold addRulerPoint.
    destruct (2 <=? List.length (rulerPoints s))%nat.
    + left. reflexivity.
    + apply in_or_app. right. left. reflexivity.
  - intros detection. simpl.
    now rewrite (handleBoxClick_ruler refs detection e s Hr).
  - intros detection index. simpl.
    now rewrite (handleBoxClick_ruler refs detection e s Hr).
Qed.

Lemma surface_click_in_ruler_mode_adds_point_witness :
  clickAddsRulerPoint hdProps mountedRefs OnSurface (pointerAt 56 211) rulerOn
  /\ step hdProps mountedRefs (Click (OnPath catDetection) (pointerAt 56 211))
       rulerOn = rulerOn.
Proof.
  pose proof
    (surface_click_in_ruler_mode_adds_point hdProps mountedRefs
       (mkRect (lit 0) (lit 0) (lit 1067) (lit 700)) (pointerAt 56 211) rulerOn
       eq_refl eq_refl) as [Hadd [_ [_ [Hpath _]]]].
  split; [exact Hadd | exact (Hpath catDetection)].
Defined.

(** ** Rendering never throws on the boxes *)

Lemma toFixed_returns (x : number) (f : nat) :
  (f <= 100)%nat -> JS.returns (JS.toFixed x f).
Proof.
  intros Hf. unfold JS.toFixed, JS.returns.
  destruct (100 <? f)%nat eqn:E.
  - apply Nat.ltb_lt in E. lia.
  - destruct x as [q| | |]; try (eexists; reflexivity).
    destruct (Qle_bool (inject_Z (10 ^ 21)) (if Qle_bool 0 q then q else - q));
      eexists; reflexivity.
Qed.

Lemma formatCoordinate_returns (props : Props) (format : CoordinateFormat)
  (value : number) (axis : option Axis) :
  JS.returns (formatCoordinate props format value axis).
Proof.
  unfold formatCoordinate. destruct format.
  - eexists. reflexivity.
  - destruct (toFixed_returns (value / axisExtent props axis * lit 100)%js 1)
      as [str Hs]; [lia|].
    rewrite Hs. eexists. reflexivity.
  - apply toFixed_returns. lia.
Qed.

Lemma renderBoundingBox_returns (s : State) (detection : DetectionData) :
  exists percent,
    JS.toFixed (confidence detection * lit 100)%js 0 = JS.Normal percent /\
    exists box,
      renderBoundingBox s detection = JS.Normal box /\
      path_d box = vertexPolygon (vertices detection) (scaleFactors s) /\
      path_strokeWidth box =
        strokeWidth (isId (selectedDetectionId s) detection)
          (isId (hoveredDetection s) detection) /\
      path_opacity box = opacity (isId (hoveredDetection s) detection).
Proof.
  destruct (toFixed_returns (confidence detection * lit 100)%js 0)
    as [percent Hp]; [lia|].
  exists percent. split; [exact Hp|].
  unfold renderBoundingBox. rewrite Hp. simpl.
  eexists. split; [reflexivity|]. repeat split.
Qed.

Lemma mapM_returns {A B : Type} (f : A -> JS.completion B) (l : list A) :
  (forall a, In a l -> JS.returns (f a)) -> JS.returns (mapM f l).
Proof.
  induction l as [|a l IH]; intros Hall.
  - exists []. reflexivity.
  - destruct (Hall a (or_introl eq_refl)) as [b Hb].
    destruct IH as [bs Hbs].
    { intros a' Hin. apply Hall. now right. }
    exists (b :: bs). simpl. rewrite Hb. simpl. rewrite Hbs. reflexivity.
Qed.

Lemma boxes_return (props : Props) (s : State) :
  JS.returns (mapM (renderBoundingBox s) (detections props)).
Proof.
  apply mapM_returns. intros detection _.
  destruct (renderBoundingBox_returns s detection) as [_ [_ [box [Hbox _]]]].
  now exists box.
Qed.

(** ** Visual weight *)

(** The selected cat is drawn with less opacity than the hovered cat: 0.6
    against 0.8; selected and hovered at once, it is drawn with the opacity
    of the hovered cat, and no more. *)
Lemma selected_opacity_below_hovered :
  exists selected hovered default both,
    renderBoundingBox selectedState catDetection = JS.Normal selected /\
    renderBoundingBox hoveredState catDetection = JS.Normal hovered /\
    renderBoundingBox initialState catDetection = JS.Normal default /\
    renderBoundingBox hoveredSelectedState catDetection = JS.Normal both /\
    path_opacity selected = lit 0.6 /\
    path_opacity hovered = lit 0.8 /\
    path_opacity both = lit 0.8 /\
    JS.ltb (path_opacity selected) (path_opacity hovered) = true /\
    ~ visualWeightOrdered selected hovered default /\
    ~ visualWeightOrdered both hovered default.
Proof.
  do 4 eexists. split; [vm_compute; reflexivity|].
  split; [vm_compute; reflexivity|]. split; [vm_compute; reflexivity|].
  split; [vm_compute; reflexivity|].
  split; [reflexivity|]. split; [reflexivity|]. split; [reflexivity|].
  split; [reflexivity|].
  split; intros [_ [Hop _]]; vm_compute in Hop; discriminate Hop.
Qed.

(** C6, amended.  The stroke width of a path grows strictly with the
    interaction state: 3 when selected, 2.5 when hovered and not selected,
    2 otherwise.  Its opacity depends on the hover alone: 0.8 when hovered,
    0.6 otherwise, whether the detection is selected or not. *)
Theorem stroke_width_ordered_opacity_by_hover (s : State)
  (detection : DetectionData) :
  (exists box,
      renderBoundingBox s detection = JS.Normal box /\
      path_strokeWidth box =
        strokeWidth (isId (selectedDetectionId s) detection)
          (isId (hoveredDetection s) detection) /\
      path_opacity box = opacity (isId (hoveredDetection s) detection))
  /\ (forall isHovered : bool,
      strokeWidth true isHovered = lit 3 /\
      JS.ltb (strokeWidth false true) (strokeWidth true isHovered) = true)
  /\ strokeWidth false true = lit 2.5
  /\ strokeWidth false false = lit 2
  /\ JS.ltb (strokeWidth false false) (strokeWidth false true) = true
  /\ opacity true = lit 0.8
  /\ opacity false = lit 0.6
  /\ JS.ltb (opacity false) (opacity true) = true.
Proof.
  split.
  - destruct (renderBoundingBox_returns s detection)
      as [_ [_ [box [Hbox [_ [Hw Ho]]]]]].
    exists box. repeat split; assumption.
  - split; [intros []; split; reflexivity|]. repeat split.
Qed.

(** ** Geometry of a box *)

(** The skewed detection is drawn through its own vertices, starting at
    (1, 1), and not as the rectangle of its bounding box, which starts at
    (0, 0); the detection with a vertex that is not finite is drawn through
    that vertex as well. *)
Lemma skewed_vertices_are_drawn :
  ~ consistentVertices skewedDetection /\
  (exists box,
      renderBoundingBox initialState skewedDetection = JS.Normal box /\
      path_d box =
        vertexPolygon (vertices skewedDetection) (scaleFactors initialState) /\
      path_eqb (path_d box)
        (bboxRectangle (bbox skewedDetection) (scaleFactors initialState))
      = false) /\
  (exists box,
      renderBoundingBox initialState nonFiniteDetection = JS.Normal box /\
      hd ClosePath (path_d box) = MoveTo (mkPoint NaN PosInf) /\
      path_eqb (path_d box)
        (bboxRectangle (bbox nonFiniteDetection) (scaleFactors initialState))
      = false).
Proof.
  split; [intros H; discriminate H|]. split.
  - eexists. split; [vm_compute; reflexivity|]. split; vm_compute; reflexivity.
  - eexists. split; [vm_compute; reflexivity|]. split; vm_compute; reflexivity.
Qed.

(** C3, amended.  Every detection is drawn as the polygon through its four
    vertices scaled to display space, whether or not its coordinates are
    finite and whatever its bounding box, which the renderer never reads:
    with another bounding box the detection is drawn the same.  So the
    polygon is the rectangle of the bounding box whenever the vertices are
    the corners of the box.  Rendering a box, and the boxes of any
    detection array, never throws. *)
Theorem box_is_drawn_through_vertices (props : Props) (s : State)
  (detection : DetectionData) :
  (exists box,
      renderBoundingBox s detection = JS.Normal box /\
      path_d box = vertexPolygon (vertices detection) (scaleFactors s) /\
      (consistentVertices detection ->
       path_d box = bboxRectangle (bbox detection) (scaleFactors s)))
  /\ (forall b : BBox,
      renderBoundingBox s (withBBox b detection)
      = renderBoundingBox s detection)
  /\ JS.returns (mapM (renderBoundingBox s) (detections props)).
Proof.
  split; [|split; [intros b; reflexivity|apply boxes_return]].
  destruct (renderBoundingBox_returns s detection)
    as [_ [_ [box [Hbox [Hpath _]]]]].
  exists box. split; [exact Hbox|]. split; [exact Hpath|].
  intros Hc. rewrite Hpath. unfold vertexPolygon, bboxRectangle.
  unfold consistentVertices in Hc. cbv zeta in Hc. rewrite Hc. reflexivity.
Qed.

Example consistent_box_is_rectangle :
  consistentVertices catDetection /\
  exists box,
    renderBoundingBox initialState catDetection = JS.Normal box /\
    path_d box = bboxRectangle (bbox catDetection) (scaleFactors initialState).
Proof.
  split; [reflexivity|]. eexists. split; vm_compute; reflexivity.
Qed.

(** ** Clipboard *)

(** A rejected write leaves the state of the first render as it is and sets
    no timer: nothing is surfaced. *)
Lemma failed_copy_surfaces_nothing :
  copyToClipboard (JS.Throw JS.DOMException) "100, 200" "popup-center"
    initialState
  = JS.Normal
      (initialState,
       [ClipboardWriteText "100, 200"; ConsoleError "Failed to copy:"])
  /\ ~ failureSurfaced initialState
       (copyToClipboard (JS.Throw JS.DOMException) "100, 200" "popup-center"
          initialState).
Proof.
  split; [reflexivity|].
  intros [after [effects [delay [Hres [Hne _]]]]].
  simpl in Hres. injection Hres as <- _. now apply Hne.
Qed.

Lemma step_copied_mark (props : Props) (refs : Refs) (ev : Event) (s : State) :
  match ev with CopySettled (JS.Normal _) _ _ => False | _ => True end ->
  copiedCoordinate s = None ->
  copiedCoordinate (step props refs ev s) = None /\
  forall delay, ~ In (SetTimeout delay) (effectsOf ev s).
Proof.
  intros Hev Hs.
  destruct ev as [e| |d|target e|f| | | |written text label| |]; simpl.
  - split; [|intros delay []]. unfold handleMouseMove.
    destruct (hoveredDetection s); [destruct (containerRef refs)|]; exact Hs.
  - split; [exact Hs | intros delay []].
  - split; [exact Hs | intros delay []].
  - split; [|intros delay []].
    destruct target as [d|d i|]; simpl;
      unfold handleBoxClick, handleImageClick; handler_cases s refs; exact Hs.
  - split; [exact Hs | intros delay []].
  - split; [|intros delay []]. unfold handleRulerToggle.
    destruct (rulerMode s); exact Hs.
  - split; [exact Hs | intros delay []].
  - split; [exact Hs | intros delay []].
  - destruct written as [u|x]; [contradiction|]. split; [exact Hs|].
    intros delay [H|[H|[]]]; discriminate H.
  - split; [reflexivity | intros delay []].
  - split; [|intros delay []]. unfold updateDimensions.
    destruct (exactDimensions props); exact Hs.
Qed.

(** While every write fails, no history ever shows the copied mark or sets
    a timer. *)
Lemma failing_writes_leave_no_mark (history : History) (s : State) :
  everyWriteFails history ->
  copiedCoordinate s = None ->
  copiedCoordinate (runHistory history s) = None /\
  forall delay, ~ In (SetTimeout delay) (historyEffects history s).
Proof.
  intros Hfail. revert s.
  induction Hfail as [|[[props refs] ev] history Hev _ IH]; intros s Hs.
  - split; [exact Hs | intros delay []].
  - simpl in Hev. destruct (step_copied_mark props refs ev s Hev Hs) as [H1 H2].
    destruct (IH (step props refs ev s) H1) as [H3 H4].
    split; [exact H3|]. intros delay Hin. simpl in Hin.
    apply in_app_or in Hin. destruct Hin as [Hin|Hin].
    + exact (H2 delay Hin).
    + exact (H4 delay Hin).
Qed.

(** C7, amended.  When the clipboard write fails, [copyToClipboard]
    completes normally (the failure is caught, never escalated), has
    attempted the write once and logged the failure to the console, sets no
    timer and leaves the state unchanged: no notice is shown, and the
    render is the one before the write.  Over any history of events whose
    writes all fail, the copied mark never shows and no timer is ever set.
    The copied mark and its timer of 2000 ms belong to the successful
    write. *)
Theorem failed_copy_is_logged_only (e : JS.Exception) (text label : string)
  (props : Props) (refs : Refs) (s : State) :
  copyToClipboard (JS.Throw e) text label s =
    JS.Normal (s, [ClipboardWriteText text; ConsoleError "Failed to copy:"])
  /\ step props refs (CopySettled (JS.Throw e) text label) s = s
  /\ render props (step props refs (CopySettled (JS.Throw e) text label) s) =
     render props s
  /\ (forall history : History,
      everyWriteFails history ->
      copiedCoordinate (runHistory history initialState) = None /\
      forall delay,
        ~ In (SetTimeout delay) (historyEffects history initialState))
  /\ copyToClipboard (JS.Normal tt) text label s =
     JS.Normal (setCopiedCoordinate (Some label) s,
                [ClipboardWriteText text; SetTimeout 2000])
  /\ copiedCoordinate
       (copiedTimeout (setCopiedCoordinate (Some label) s)) = None.
Proof.
  split; [reflexivity|]. split; [reflexivity|]. split; [reflexivity|].
  split; [|split; reflexivity].
  intros history Hfail.
  destruct (failing_writes_leave_no_mark history initialState Hfail eq_refl)
    as [Hmark Htimer].
  split; [exact Hmark | exact Htimer].
Qed.

(** ** Stale hover *)


Lemma render_tooltip_undefined (props : Props) (s : State) (t : TooltipData) :
  tooltipData s = Some t -> tooltip_detection t = None ->
  render props s = JS.Throw JS.TypeError.
Proof.
  intros Ht Hd. unfold render.
  destruct (boxes_return props s) as [bs Hbs]. rewrite Hbs. simpl.
  unfold renderTooltip. rewrite Ht, Hd. reflexivity.
Qed.

Lemma formatCoordinatePair_returns (props : Props) (format : CoordinateFormat)
  (point : Point) :
  JS.returns (formatCoordinatePair props format point).
Proof.
  unfold formatCoordinatePair. destruct format.
  - eexists. reflexivity.
  - destruct (toFixed_returns (px point / imageWidth props * lit 100)%js 1)
      as [sx Hx]; [lia|].
    destruct (toFixed_returns (py point / imageHeight props * lit 100)%js 1)
      as [sy Hy]; [lia|].
    rewrite Hx. simpl. rewrite Hy. eexists. reflexivity.
  - destruct (toFixed_returns (px point / imageWidth props)%js 3)
      as [sx Hx]; [lia|].
    destruct (toFixed_returns (py point / imageHeight props)%js 3)
      as [sy Hy]; [lia|].
    rewrite Hx. simpl. rewrite Hy. eexists. reflexivity.
Qed.

(** A render throws exactly when the stored tooltip has no detection. *)
Lemma render_returns_or_tooltip_undefined (props : Props) (s : State) :
  JS.returns (render props s) \/
  (exists t,
      tooltipData s = Some t /\ tooltip_detection t = None /\
      render props s = JS.Throw JS.TypeError).
Proof.
  destruct (tooltipData s) as [t|] eqn:Ht.
  - destruct (tooltip_detection t) as [detection|] eqn:Hd.
    + left. unfold render.
      destruct (boxes_return props s) as [bs Hbs]. rewrite Hbs. simpl.
      unfold renderTooltip. rewrite Ht, Hd.
      destruct (toFixed_returns (confidence detection * lit 100)%js 1)
        as [conf Hc]; [lia|].
      destruct (formatCoordinatePair_returns props (coordinateFormat s)
                  (center_point detection)) as [center Hp].
      destruct (formatCoordinate_returns props (coordinateFormat s)
                  (width (dimensions detection)) None) as [w Hw].
      destruct (formatCoordinate_returns props (coordinateFormat s)
                  (height (dimensions detection)) None) as [h Hh].
      rewrite Hc. simpl. rewrite Hp. simpl. rewrite Hw. simpl. rewrite Hh.
      eexists. reflexivity.
    + right. exists t. split; [reflexivity|]. split; [exact Hd|].
      now apply (render_tooltip_undefined props s t).
  - left. unfold render.
    destruct (boxes_return props s) as [bs Hbs]. rewrite Hbs. simpl.
    unfold renderTooltip. rewrite Ht. eexists. reflexivity.
Qed.


(** The stale hover arises when the pointer has entered the cat and the
    next render receives an array without it. *)
Example stale_hover_after_new_detections :
  let s := step hdProps mountedRefs (PointerEnter catDetection) initialState in
  render hdProps s <> JS.Throw JS.TypeError /\
  render emptiedProps
    (step emptiedProps mountedRefs (PointerMove (pointerAt 56 211)) s)
  = JS.Throw JS.TypeError.
Proof.
  split; [vm_compute; discriminate | vm_compute; reflexivity].
Qed.

(** A popup keeps its own copy of the detection it was opened on: once the
    array no longer holds that detection, the popup stays open on the copy
    and the selection stays on the id, which then matches no box. *)
Example stale_popup_stays_open :
  let s :=
    step hdProps mountedRefs (Click (OnPath catDetection) (pointerAt 56 211))
      initialState in
  selectedDetectionId s = Some 1%Z /\
  exists view,
    render emptiedProps s = JS.Normal view /\
    popup_title view = Some "cat" /\ boxes view = [].
Proof.
  split; [reflexivity|]. eexists. split; [vm_compute; reflexivity|].
  split; reflexivity.
Qed.

(** ** Coordinate mapping *)





(** ** Decimal numerals *)


Lemma app_assoc_string (a b c : string) : (a ++ b) ++ c = a ++ (b ++ c).
Proof.
  induction a as [|x a IH]; simpl; [reflexivity | now rewrite IH].
Qed.
























(** * Further properties of the overlay *)

(** ** Pairs *)

(** A pair is formatted as its [x] against the image width and its [y]
    against the image height, each as [formatCoordinate] prints it, with a
    comma and a space between the two. *)
Theorem formatCoordinatePair_by_axis (props : Props)
  (format : CoordinateFormat) (point : Point) :
  exists sx sy,
    formatCoordinate props format (px point) (Some axis_x) = JS.Normal sx /\
    formatCoordinate props format (py point) (Some axis_y) = JS.Normal sy /\
    formatCoordinatePair props format point = JS.Normal (sx ++ ", " ++ sy).
Proof.
  unfold formatCoordinate, formatCoordinatePair, axisExtent.
  destruct format.
  - do 2 eexists. repeat split.
  - destruct (toFixed_returns (px point / imageWidth props * lit 100)%js 1)
      as [tx Hx]; [lia|].
    destruct (toFixed_returns (py point / imageHeight props * lit 100)%js 1)
      as [ty Hy]; [lia|].
    rewrite Hx, Hy. simpl. do 2 eexists.
    split; [reflexivity|]. split; [reflexivity|].
    now rewrite app_assoc_string.
  - destruct (toFixed_returns (px point / imageWidth props)%js 3)
      as [tx Hx]; [lia|].
    destruct (toFixed_returns (py point / imageHeight props)%js 3)
      as [ty Hy]; [lia|].
    rewrite Hx, Hy. simpl. do 2 eexists. repeat split.
Qed.

(** ** Selection *)

(** Outside ruler mode, with the container mounted, a click on the path or
    on a corner dot of a detection opens the popup on that detection at the
    offset of the click in the container and selects its id; the click does
    not reach the handler of the surface, which would close the popup and
    clear the selection, as a later click on the surface does.  The close
    button of the popup closes it and keeps the selection. *)
Theorem shape_click_opens_popup_and_selects (props : Props) (refs : Refs)
  (rect : DOMRect) (detection : DetectionData) (index : nat)
  (e e' : MouseEvent) (s : State) :
  rulerMode s = false ->
  containerRef refs = Some rect ->
  let opened := step props refs (Click (OnPath detection) e) s in
  coordinatePopup opened =
    Some {| popup_detection := detection;
            popup_x := (clientX e - rect_left rect)%js;
            popup_y := (clientY e - rect_top rect)%js |}
  /\ selectedDetectionId opened = Some (id detection)
  /\ step props refs (Click (OnCornerDot detection index) e) s = opened
  /\ opened = onDetectionSelect (selectedDetectionId opened)
               (setCoordinatePopup (coordinatePopup opened) s)
  /\ (let cleared := step props refs (Click OnSurface e') opened in
      coordinatePopup cleared = None /\ selectedDetectionId cleared = None)
  /\ (let closed := step props refs PopupClose opened in
      coordinatePopup closed = None /\
      selectedDetectionId closed = Some (id detection)).
Proof.
  intros Hr Hc opened.
  assert (opened =
          onDetectionSelect (Some (id detection))
            (setCoordinatePopup
               (Some {| popup_detection := detection;
                        popup_x := (clientX e - rect_left rect)%js;
                        popup_y := (clientY e - rect_top rect)%js |}) s))
    as Hopened.
  { unfold opened. simpl. unfold handleBoxClick. now rewrite Hr, Hc. }
  split; [now rewrite Hopened|]. split; [now rewrite Hopened|].
  split; [rewrite Hopened; simpl; unfold handleBoxClick; now rewrite Hr, Hc|].
  split; [now rewrite Hopened|].
  assert (rulerMode opened = false) as Hr' by (now rewrite Hopened).
  split.
  - simpl. unfold handleImageClick. rewrite Hr'. split; reflexivity.
  - rewrite Hopened. split; reflexivity.
Qed.

Lemma shape_click_opens_popup_and_selects_witness :
  let opened :=
    step hdProps mountedRefs (Click (OnPath catDetection) (pointerAt 56 211))
      initialState in
  selectedDetectionId opened = Some 1%Z /\
  selectedDetectionId
    (step hdProps mountedRefs (Click OnSurface (pointerAt 900 650)) opened)
  = None.
Proof.
  pose proof
    (shape_click_opens_popup_and_selects hdProps mountedRefs
       (mkRect (lit 0) (lit 0) (lit 1067) (lit 700)) catDetection 0
       (pointerAt 56 211) (pointerAt 900 650) initialState eq_refl eq_refl)
    as [_ [Hsel [_ [_ [[_ Hcleared] _]]]]].
  split; [exact Hsel | exact Hcleared].
Defined.

(** ** Tooltip *)

Lemma step_tooltipWithHover (props : Props) (refs : Refs) (ev : Event)
  (s : State) :
  tooltipWithHover s -> tooltipWithHover (step props refs ev s).
Proof.
  unfold tooltipWithHover. intros Hs.
  destruct ev as [e| |d|target e|f| | | |written text label| |]; simpl.
  - unfold handleMouseMove.
    destruct (hoveredDetection s) eqn:Hh; [destruct (containerRef refs)|];
      simpl.
    + rewrite Hh. split; discriminate.
    + destruct (tooltipData s); [|exact I].
      rewrite Hh. split; discriminate.
    + destruct (tooltipData s); [|exact I]. destruct Hs as [Hs _].
      now contradiction Hs.
  - exact I.
  - destruct (tooltipData s); [|exact I]. split; [discriminate | apply Hs].
  - destruct target as [d|d i|]; simpl;
      unfold handleBoxClick, handleImageClick; handler_cases s refs; exact Hs.
  - exact Hs.
  - unfold handleRulerToggle. destruct (rulerMode s); exact Hs.
  - exact Hs.
  - exact Hs.
  - destruct written; exact Hs.
  - exact Hs.
  - unfold updateDimensions. destruct (exactDimensions props); exact Hs.
Qed.

(** Over every history of events from the first render, a tooltip is
    stored only while a detection is hovered and the pointer position is
    known: the tooltip never outlives the hover. *)
Theorem tooltip_never_outlives_hover (history : History) :
  tooltipWithHover (runHistory history initialState).
Proof.
  assert (forall s, tooltipWithHover s ->
                    tooltipWithHover (runHistory history s)) as Hinv.
  { induction history as [|[[props refs] ev] history IH]; intros s Hs.
    - exact Hs.
    - simpl. apply IH. now apply step_tooltipWithHover. }
  apply Hinv. exact I.
Qed.

(** Leaving the container clears the hover, the tooltip and the pointer
    position, and the render that follows never throws, whatever the state
    before and the detections of that render: the tooltip of a stale hover
    is gone as well. *)
Theorem pointer_leave_recovers (props props' : Props) (refs : Refs)
  (s : State) :
  let left := step props refs PointerLeave s in
  hoveredDetection left = None
  /\ mousePosition left = None
  /\ onlyPointerFieldsDiffer (setHoveredDetection None s) left
  /\ exists view,
      render props' left = JS.Normal view /\ tooltip view = None.
Proof.
  intros left. split; [reflexivity|]. split; [reflexivity|].
  split; [destruct s; reflexivity|].
  unfold render. destruct (boxes_return props' left) as [bs Hbs].
  rewrite Hbs. simpl. eexists. split; reflexivity.
Qed.

(** ** Ruler mode *)

(** While ruler mode is off no event stores a ruler point: after any event
    the stored points are those before it, or none (entering ruler mode and
    the Clear button empty the collection).  The points measured before
    ruler mode was left stay until then. *)
Theorem no_ruler_point_outside_ruler_mode (props : Props) (refs : Refs)
  (ev : Event) (s : State) :
  rulerMode s = false ->
  (rulerPoints (step props refs ev s) = rulerPoints s \/
   rulerPoints (step props refs ev s) = [])
  /\ (rulerMode (step props refs ev s) = true ->
      ev = RulerToggle /\ rulerPoints (step props refs ev s) = []).
Proof.
  intros Hr.
  destruct ev as [e| |d|target e|f| | | |written text label| |]; simpl.
  - unfold handleMouseMove.
    destruct (hoveredDetection s); [destruct (containerRef refs)|]; simpl;
      (split; [now left | congruence]).
  - split; [now left | simpl; congruence].
  - split; [now left | simpl; congruence].
  - destruct target as [d|d i|]; simpl;
      unfold handleBoxClick, handleImageClick; rewrite Hr;
      destruct (containerRef refs); simpl;
      (split; [now left | congruence]).
  - split; [now left | simpl; congruence].
  - unfold handleRulerToggle. rewrite Hr. simpl.
    split; [now right | now split].
  - split; [now right | simpl; congruence].
  - split; [now left | simpl; congruence].
  - destruct written; simpl; (split; [now left | congruence]).
  - split; [now left | simpl; congruence].
  - unfold updateDimensions. destruct (exactDimensions props); simpl;
      (split; [now left | congruence]).
Qed.

Lemma no_ruler_point_outside_ruler_mode_witness :
  rulerPoints
    (step hdProps mountedRefs (Click OnSurface (pointerAt 56 211)) initialState)
  = rulerPoints initialState \/
  rulerPoints
    (step hdProps mountedRefs (Click OnSurface (pointerAt 56 211)) initialState)
  = [].
Proof.
  exact (proj1
    (no_ruler_point_outside_ruler_mode hdProps mountedRefs
       (Click OnSurface (pointerAt 56 211)) initialState eq_refl)).
Defined.

(** ** Rendering with the detections unchanged *)

Lemma findDetection_present (props : Props) (hovered : Z) :
  (exists detection,
      In detection (detections props) /\ id detection = hovered) ->
  exists found,
    findDetection props hovered = Some found /\
    In found (detections props) /\ id found = hovered.
Proof.
  unfold findDetection. intros [d [Hin Hid]].
  destruct (find (fun d0 => (id d0 =? hovered)%Z) (detections props))
    as [found|] eqn:Hfind.
  - apply find_some in Hfind as [Hfin Heq]. apply Z.eqb_eq in Heq.
    now exists found.
  - exfalso. pose proof (find_none _ _ Hfind d Hin) as Hnone.
    simpl in Hnone. apply Z.eqb_neq in Hnone. contradiction.
Qed.

Lemma step_hoverWithin (props : Props) (refs : Refs) (ev : Event)
  (s : State) :
  match ev with
  | PointerEnter detection => In detection (detections props)
  | _ => True
  end ->
  hoverWithin (detections props) s ->
  hoverWithin (detections props) (step props refs ev s).
Proof.
  intros Hev [Hhov Htip]. unfold hoverWithin.
  destruct ev as [e| |d|target e|f| | | |written text label| |]; simpl.
  - unfold handleMouseMove.
    destruct (hoveredDetection s) as [hovered|] eqn:Hh;
      [destruct (containerRef refs)|]; simpl; rewrite ?Hh;
      try (split; [exact Hhov | exact Htip]).
    split; [exact Hhov|]. intros t Ht. injection Ht as <-. simpl.
    destruct (findDetection_present props hovered (Hhov hovered eq_refl))
      as [found [Hfound [Hin _]]].
    exists found. split; assumption.
  - split; intros x Hx; discriminate Hx.
  - split; [|exact Htip]. intros hovered Hh. injection Hh as <-.
    exists d. split; [exact Hev | reflexivity].
  - destruct target as [d|d i|]; simpl;
      unfold handleBoxClick, handleImageClick; handler_cases s refs;
      split; assumption.
  - split; assumption.
  - unfold handleRulerToggle. destruct (rulerMode s); split; assumption.
  - split; assumption.
  - split; assumption.
  - destruct written; split; assumption.
  - split; assumption.
  - unfold updateDimensions. destruct (exactDimensions props);
      split; assumption.
Qed.

Lemma history_hoverWithin (ds : list DetectionData) (history : History)
  (s : State) :
  sameDetections ds history -> entersDrawnShapes history ->
  hoverWithin ds s -> hoverWithin ds (runHistory history s).
Proof.
  intros Hsame. revert s.
  induction Hsame as [|[[props refs] ev] history Hds _ IH];
    intros s Henter Hs; [exact Hs|].
  apply Forall_cons_iff in Henter as [Hev Hrest].
  simpl in Hds, Hev. simpl. apply IH; [exact Hrest|].
  rewrite <- Hds. apply step_hoverWithin; [exact Hev | now rewrite Hds].
Qed.

(** As long as every render receives the same detections and the pointer
    enters only shapes that are drawn, no history of events from the first
    render leads to a render that throws: every hovered id and every
    stored tooltip names a detection of the array. *)
Theorem render_never_throws_with_stable_detections
  (ds : list DetectionData) (history : History) (props : Props) :
  sameDetections ds history ->
  entersDrawnShapes history ->
  detections props = ds ->
  hoverWithin ds (runHistory history initialState)
  /\ JS.returns (render props (runHistory history initialState)).
Proof.
  intros Hsame Henter Hds.
  assert (hoverWithin ds (runHistory history initialState)) as Hin.
  { apply history_hoverWithin; [exact Hsame | exact Henter|].
    split; intros x Hx; discriminate Hx. }
  split; [exact Hin|].
  destruct (render_returns_or_tooltip_undefined props
              (runHistory history initialState))
    as [Hret|[t [Ht [Hnone _]]]]; [exact Hret|].
  destruct Hin as [_ Htip]. destruct (Htip t Ht) as [d [Hsome _]].
  congruence.
Qed.

Lemma render_never_throws_with_stable_detections_witness :
  JS.returns
    (render hdProps
       (runHistory
          [(hdProps, mountedRefs, PointerEnter catDetection);
           (hdProps, mountedRefs, PointerMove (pointerAt 900 650))]
          initialState)).
Proof.
  refine (proj2
    (render_never_throws_with_stable_detections [catDetection]
       [(hdProps, mountedRefs, PointerEnter catDetection);
        (hdProps, mountedRefs, PointerMove (pointerAt 900 650))]
       hdProps _ _ eq_refl)).
  - repeat constructor.
  - constructor; [left; reflexivity|]. repeat constructor.
Defined.

(** ** The boxes of a render *)

Lemma mapM_Forall2 {A B : Type} (f : A -> JS.completion B) (l : list A)
  (bs : list B) :
  mapM f l = JS.Normal bs -> Forall2 (fun a b => f a = JS.Normal b) l bs.
Proof.
  revert bs. induction l as [|a l IH]; intros bs H; simpl in H.
  - injection H as <-. constructor.
  - destruct (f a) as [b|x] eqn:Hb; [|discriminate H]. simpl in H.
    destruct (mapM f l) as [bs'|x] eqn:Hbs; [|discriminate H]. simpl in H.
    injection H as <-. constructor; [exact Hb | now apply IH].
Qed.

Lemma renderBoundingBox_selected (s : State) (detection : DetectionData)
  (box : BoxElement) :
  renderBoundingBox s detection = JS.Normal box ->
  box_key box = id detection /\
  drawnSelected box = isId (selectedDetectionId s) detection /\
  path_strokeDasharray box =
    (if isId (selectedDetectionId s) detection then "5,5" else "none").
Proof.
  unfold renderBoundingBox.
  destruct (JS.toFixed (confidence detection * lit 100)%js 0) as [p|x];
    [|discriminate].
  simpl. intros H. injection H as <-. unfold drawnSelected. simpl.
  destruct (isId (selectedDetectionId s) detection); repeat split.
Qed.

Lemma boxes_of_render (props : Props) (s : State) (view : Rendered) :
  render props s = JS.Normal view ->
  Forall2 (fun detection box => renderBoundingBox s detection = JS.Normal box)
    (detections props) (boxes view).
Proof.
  unfold render. intros H.
  destruct (mapM (renderBoundingBox s) (detections props)) as [bs|x] eqn:Hbs;
    [|discriminate H].
  simpl in H. destruct (renderTooltip props s) as [tip|x]; [|discriminate H].
  simpl in H. injection H as <-. simpl. now apply mapM_Forall2.
Qed.

(** A render that returns draws one box for each detection of the array, in
    the order of the array and keyed by the id of the detection, one circle
    for each stored ruler point, and the ruler line exactly when two points
    are stored. *)
Theorem render_draws_each_detection_once (props : Props) (s : State)
  (view : Rendered) :
  render props s = JS.Normal view ->
  map box_key (boxes view) = map id (detections props)
  /\ List.length (boxes view) = List.length (detections props)
  /\ List.length (ruler_circles view) = List.length (rulerPoints s)
  /\ (ruler_line view <> None <-> List.length (rulerPoints s) = 2%nat).
Proof.
  intros H. pose proof (boxes_of_render props s view H) as Hboxes.
  assert (map box_key (boxes view) = map id (detections props)) as Hkeys.
  { induction Hboxes as [|d b ds bs Hb _ IH]; [reflexivity|].
    simpl. destruct (renderBoundingBox_selected s d b Hb) as [-> _].
    now rewrite IH. }
  split; [exact Hkeys|].
  split; [rewrite <- (length_map box_key), Hkeys; apply length_map|].
  unfold render in H.
  destruct (mapM (renderBoundingBox s) (detections props)) as [bs|x];
    [|discriminate H].
  simpl in H. destruct (renderTooltip props s) as [tip|x]; [|discriminate H].
  simpl in H. injection H as <-. simpl.
  split; [apply length_map|].
  destruct (rulerPoints s) as [|p0 [|p1 [|p2 rest]]]; simpl;
    split; intros Hx; try discriminate; try reflexivity;
    now contradiction Hx.
Qed.

Lemma render_draws_each_detection_once_witness :
  exists view,
    render hdProps initialState = JS.Normal view /\
    map box_key (boxes view) = [1%Z].
Proof.
  eexists. split; [vm_compute; reflexivity|].
  exact (proj1 (render_draws_each_detection_once hdProps initialState _ eq_refl)).
Defined.

Lemma filter_key_unique {A : Type} (key : A -> Z) (k : Z) (l : list A) :
  NoDup (map key l) ->
  (List.length (filter (fun x => (key x =? k)%Z) l) <= 1)%nat.
Proof.
  induction l as [|a l IH]; intros Hnd; [simpl; lia|].
  simpl in Hnd. apply NoDup_cons_iff in Hnd as [Hnotin Hnd].
  simpl. destruct (key a =? k)%Z eqn:E; [|now apply IH].
  apply Z.eqb_eq in E. simpl.
  assert (filter (fun x => (key x =? k)%Z) l = []) as ->; [|simpl; lia].
  destruct (filter (fun x => (key x =? k)%Z) l) as [|b rest] eqn:Hf;
    [reflexivity|].
  exfalso. apply Hnotin.
  assert (In b (filter (fun x => (key x =? k)%Z) l)) as Hb
    by (rewrite Hf; now left).
  apply filter_In in Hb as [Hin Hk]. apply Z.eqb_eq in Hk.
  rewrite E, <- Hk. now apply in_map.
Qed.

Lemma drawnSelected_by_key (props : Props) (s : State) (view : Rendered) :
  render props s = JS.Normal view ->
  forall box,
    In box (boxes view) ->
    drawnSelected box =
    match selectedDetectionId s with
    | Some selected => (box_key box =? selected)%Z
    | None => false
    end.
Proof.
  intros H. pose proof (boxes_of_render props s view H) as Hboxes.
  induction Hboxes as [|d b ds bs Hb _ IH]; intros box Hin; [destruct Hin|].
  destruct Hin as [<-|Hin]; [|now apply IH].
  destruct (renderBoundingBox_selected s d b Hb) as [Hk [Hs _]].
  rewrite Hs, Hk. unfold isId.
  destruct (selectedDetectionId s) as [selected|]; [|reflexivity].
  apply Z.eqb_sym.
Qed.

(** With ids that are unique in the array, a render draws at most one box
    as selected (crosshair and dashes), and it is the box whose key is the
    selected id: exactly one when a detection of the array has that id,
    none when the selection is null or stale. *)
Theorem selection_highlights_one_box (props : Props) (s : State)
  (view : Rendered) :
  NoDup (map id (detections props)) ->
  render props s = JS.Normal view ->
  (forall box,
      In box (boxes view) ->
      (drawnSelected box = true <->
       selectedDetectionId s = Some (box_key box)))
  /\ (List.length (filter drawnSelected (boxes view)) <= 1)%nat
  /\ ((exists detection,
         In detection (detections props) /\
         selectedDetectionId s = Some (id detection)) <->
      List.length (filter drawnSelected (boxes view)) = 1%nat).
Proof.
  intros Hnd H.
  pose proof (drawnSelected_by_key props s view H) as Hsel.
  destruct (render_draws_each_detection_once props s view H) as [Hkeys _].
  assert (forall box,
             In box (boxes view) ->
             (drawnSelected box = true <->
              selectedDetectionId s = Some (box_key box))) as Hiff.
  { intros box Hin. rewrite (Hsel box Hin).
    destruct (selectedDetectionId s) as [selected|].
    - rewrite Z.eqb_eq. split; [now intros -> | intros E; now injection E].
    - split; discriminate. }
  split; [exact Hiff|].
  assert (List.length (filter drawnSelected (boxes view)) <= 1)%nat as Hle.
  { destruct (selectedDetectionId s) as [selected|] eqn:Hs.
    - rewrite (filter_ext_in drawnSelected
                 (fun box => (box_key box =? selected)%Z)).
      + apply filter_key_unique. now rewrite Hkeys.
      + intros box Hin. now rewrite (Hsel box Hin).
    - rewrite (filter_ext_in drawnSelected (fun _ => false)).
      + clear. induction (boxes view); simpl; [lia | assumption].
      + intros box Hin. now rewrite (Hsel box Hin). }
  split; [exact Hle|]. split.
  - intros [d [Hin Hd]].
    assert (In (id d) (map box_key (boxes view))) as Hkey
      by (rewrite Hkeys; now apply in_map).
    apply in_map_iff in Hkey as [box [Hk Hbox]].
    assert (In box (filter drawnSelected (boxes view))) as Hf.
    { apply filter_In. split; [exact Hbox|].
      apply (Hiff box Hbox). now rewrite Hk. }
    destruct (filter drawnSelected (boxes view)); [destruct Hf|].
    simpl in *. lia.
  - intros Hone.
    destruct (filter drawnSelected (boxes view)) as [|box rest] eqn:Hf;
      [discriminate Hone|].
    assert (In box (filter drawnSelected (boxes view))) as Hbox
      by (rewrite Hf; now left).
    apply filter_In in Hbox as [Hin Hd].
    apply (Hiff box Hin) in Hd.
    assert (In (box_key box) (map id (detections props))) as Hkey
      by (rewrite <- Hkeys; now apply in_map).
    apply in_map_iff in Hkey as [d [Hk Hind]].
    exists d. split; [exact Hind | now rewrite Hk].
Qed.

Lemma selection_highlights_one_box_witness :
  exists view,
    render hdProps selectedState = JS.Normal view /\
    (List.length (filter drawnSelected (boxes view)) <= 1)%nat.
Proof.
  eexists. split; [vm_compute; reflexivity|].
  refine (proj1 (proj2
    (selection_highlights_one_box hdProps selectedState _ _ eq_refl))).
  simpl. constructor; [intros [] | constructor].
Defined.

(** A click on a detection card of the parent selects the detection, or
    clears the selection when the detection is the selected one; a second
    click on the same card undoes the first, so that two clicks end on the
    detection when it was selected before and on no selection otherwise (a
    selection of another detection is not restored).  The click changes
    nothing but the selection: an open popup stays on the detection it was
    opened on. *)
Theorem card_click_toggles_selection (detection : DetectionData) (s : State) :
  selectedDetectionId (handleCardClick detection s) =
    (if isId (selectedDetectionId s) detection then None
     else Some (id detection))
  /\ selectedDetectionId
       (handleCardClick detection (handleCardClick detection s)) =
     (if isId (selectedDetectionId s) detection then Some (id detection)
      else None)
  /\ onDetectionSelect (selectedDetectionId s) (handleCardClick detection s) = s
  /\ coordinatePopup (handleCardClick detection s) = coordinatePopup s.
Proof.
  unfold handleCardClick.
  destruct (isId (selectedDetectionId s) detection) eqn:E.
  - split; [reflexivity|]. split; [reflexivity|].
    split; [destruct s; reflexivity | reflexivity].
  - split; [reflexivity|]. split.
    + unfold isId at 1. simpl. now rewrite Z.eqb_refl.
    + split; [destruct s; reflexivity | reflexivity].
Qed.

(** ** Scale factors *)

(** The scaled width and its scale factor for a finite image taller than
    the cap. *)
Lemma scaled_width_value (props : Props) (w h : Q) :
  exactDimensions props = false ->
  imageWidth props = Fin w -> imageHeight props = Fin h -> 600 < h ->
  getScaledDimensions props =
  {| width := JS.of_Z (JS.round_half_up (600 * (w / h))); height := lit 600 |}.
Proof.
  intros He Hw Hh Hlt. unfold getScaledDimensions. rewrite He, Hw, Hh.
  assert (JS.leb (Fin h) (lit 600) = false) as ->.
  { simpl. destruct (Qle_bool h 600) eqn:B; [|reflexivity].
    apply Qle_bool_iff in B. lra. }
  rewrite (div_finite w h) by (intros Z; rewrite Z in Hlt; lra).
  reflexivity.
Qed.

Lemma Qfloor_unit (x : Q) : 0 <= x -> x < 1 -> Qfloor x = 0%Z.
Proof.
  intros Hlo Hhi.
  pose proof (Qfloor_le x) as Hle. pose proof (Qlt_floor x) as Hlt.
  rewrite inject_Z_plus in Hlt. change (inject_Z 1) with 1 in Hlt.
  assert (inject_Z (Qfloor x) < 1) as H1 by lra.
  assert (-1 < inject_Z (Qfloor x)) as H2 by lra.
  assert (Qfloor x < 1)%Z by (rewrite Zlt_Qlt; exact H1).
  assert (-1 < Qfloor x)%Z by (rewrite Zlt_Qlt; exact H2).
  lia.
Qed.

(** An image taller than the cap is shown with width 0 exactly when it is
    more than 1200 times as high as it is wide: [scaleFactors.x] is then 0
    and every box collapses onto the left edge. *)
Theorem narrow_image_has_no_width (props : Props) (w h : Q) :
  exactDimensions props = false ->
  imageWidth props = Fin w -> imageHeight props = Fin h ->
  0 < w -> 600 < h ->
  exists k : Z,
    width (getScaledDimensions props) = JS.of_Z k /\
    (k = 0%Z <-> 1200 * w < h).
Proof.
  intros He Hw Hh Hpos Hlt.
  rewrite (scaled_width_value props w h He Hw Hh Hlt). cbn [width].
  eexists. split; [reflexivity|].
  assert (~ h == 0) as Hh0 by (intros E; rewrite E in Hlt; lra).
  assert (0 < h) as Hhpos by lra.
  set (x := 600 * (w / h)).
  assert (0 <= x) as Hx0.
  { unfold x. apply Qmult_le_0_compat; [lra|]. apply Qle_shift_div_l; lra. }
  assert (x * h == 600 * w) as Hxh by (unfold x; field; exact Hh0).
  destruct (round_half_up_near x) as [Hlo Hhi].
  split.
  - intros Hk. rewrite Hk in Hhi. change (inject_Z 0) with 0 in Hhi.
    assert (x * h < (1 # 2) * h) as Hm
      by (apply Qmult_lt_compat_r; [exact Hhpos | lra]).
    lra.
  - intros Hn. unfold JS.round_half_up. apply Qfloor_unit; [lra|].
    assert (x < 1 # 2); [|lra].
    apply Qnot_le_lt. intros Hge.
    assert ((1 # 2) * h <= x * h) as Hm
      by (apply Qmult_le_compat_r; lra).
    lra.
Qed.

Lemma narrow_image_has_no_width_witness :
  exists k : Z,
    width
      (getScaledDimensions
         {| imageWidth := lit 1; imageHeight := lit 1300; detections := [];
            exactDimensions := false |}) = JS.of_Z k /\
    (k = 0%Z <-> 1200 * 1 < 1300).
Proof.
  apply (narrow_image_has_no_width
           {| imageWidth := lit 1; imageHeight := lit 1300; detections := [];
              exactDimensions := false |} 1 1300); reflexivity.
Defined.

(** ** Popup placement *)

(** The popup is placed at the anchor of the click, moved left so that 320
    pixels from its left edge stay inside the display width, and moved down
    so that its top is 150 above the click but never above 10; on a
    display narrower than 320 its left edge is therefore negative. *)
Theorem popup_stays_inside_display (s : State) (popup : CoordinatePopupData)
  (x y W : Q) :
  coordinatePopup s = Some popup ->
  popup_x popup = Fin x -> popup_y popup = Fin y ->
  width (displayDimensions s) = Fin W ->
  exists l t,
    popupPosition s = Some (Fin l, Fin t)
    /\ l <= x /\ l + 320 <= W /\ (l == x \/ l == W - 320)
    /\ 10 <= t /\ y - 150 <= t /\ (t == 10 \/ t == y - 150)
    /\ (W < 320 -> l < 0).
Proof.
  intros Hp Hx Hy HW. unfold popupPosition. rewrite Hp, Hx, Hy, HW.
  unfold lit, JS.sub. cbn [JS.neg JS.add JS.min JS.max JS.leb].
  repeat
    match goal with
    | |- context [Qle_bool ?a ?b] =>
        let E := fresh "E" in
        destruct (Qle_bool a b) eqn:E;
        [apply Qle_bool_iff in E | apply Qle_bool_false_lt in E]
    end;
    eexists; eexists; (split; [reflexivity|]);
    repeat split; try lra;
    try (left; reflexivity); try (left; ring); try (right; ring);
    try (intros; lra).
Qed.

Lemma popup_stays_inside_display_witness :
  exists l t,
    popupPosition
      (step hdProps mountedRefs (Click (OnPath catDetection) (pointerAt 56 211))
         (step hdProps mountedRefs Resize initialState))
    = Some (Fin l, Fin t)
    /\ l <= 56 + - 0 /\ l + 320 <= 1067 /\ 10 <= t.
Proof.
  destruct
    (popup_stays_inside_display
       (step hdProps mountedRefs (Click (OnPath catDetection) (pointerAt 56 211))
          (step hdProps mountedRefs Resize initialState))
       {| popup_detection := catDetection;
          popup_x := (lit 56 - lit 0)%js; popup_y := (lit 211 - lit 0)%js |}
       (56 + - 0) (211 + - 0) 1067 eq_refl eq_refl eq_refl eq_refl)
    as [l [t [Hpos [Hx [HW [_ [Ht _]]]]]]].
  exists l, t. repeat split; assumption.
Defined.

(** ** From image space to the pointer and back *)





(** * Properties of the object selection *)

Import JSString.

(** ** [split], [join] and [trim] *)

Lemma split_not_nil (c : ascii) (s : string) : split c s <> [].
Proof.
  destruct s as [|x r]; cbn [split]; [discriminate|].
  destruct (Ascii.eqb x c); [discriminate|].
  destruct (split c r); discriminate.
Qed.

Lemma split_without_separator (c : ascii) (s : string) :
  contains_char c s = false -> split c s = [s].
Proof.
  induction s as [|x r IH]; cbn [split contains_char]; [reflexivity|].
  intros H. apply Bool.orb_false_iff in H as [Hx Hr].
  rewrite Hx, (IH Hr). reflexivity.
Qed.

Lemma split_cons_word (c x : ascii) (r : string) :
  Ascii.eqb x c = false ->
  split c (String x r)
  = String x (hd ""%string (split c r)) :: tl (split c r).
Proof.
  intros Hx. cbn [split]. rewrite Hx.
  destruct (split c r) eqn:E; [|reflexivity].
  exfalso. exact (split_not_nil c r E).
Qed.

Lemma split_app (c : ascii) (a b : string) :
  split c (a ++ String c b) = (split c a ++ split c b)%list.
Proof.
  induction a as [|x r IH].
  - cbn [append split]. rewrite Ascii.eqb_refl. reflexivity.
  - cbn [append]. destruct (Ascii.eqb x c) eqn:Hx.
    + cbn [split]. rewrite Hx, IH. reflexivity.
    + rewrite !split_cons_word by exact Hx. rewrite IH.
      pose proof (split_not_nil c r) as Hne.
      destruct (split c r); [contradiction|]. reflexivity.
Qed.

Lemma split_words_without_separator (c : ascii) (s : string) :
  Forall (fun w => contains_char c w = false) (split c s).
Proof.
  induction s as [|x r IH]; cbn [split].
  - constructor; [reflexivity|constructor].
  - destruct (Ascii.eqb x c) eqn:Hx.
    + constructor; [reflexivity|exact IH].
    + pose proof (split_not_nil c r) as Hne.
      destruct (split c r) as [|w ws]; [contradiction|].
      apply Forall_cons_iff in IH as [Hw Hws].
      constructor; [|exact Hws].
      cbn [contains_char]. rewrite Hx, Hw. reflexivity.
Qed.

Lemma join_cons (sep x : string) (l : list string) :
  l <> [] -> join sep (x :: l) = (x ++ sep ++ join sep l)%string.
Proof. destruct l; [contradiction|reflexivity]. Qed.

Lemma join_split (c : ascii) (s : string) :
  join (String c "") (split c s) = s.
Proof.
  induction s as [|x r IH]; [reflexivity|].
  destruct (Ascii.eqb x c) eqn:Hx.
  - cbn [split]. rewrite Hx.
    rewrite join_cons by apply split_not_nil.
    rewrite IH. apply Ascii.eqb_eq in Hx. subst x. reflexivity.
  - rewrite split_cons_word by exact Hx.
    pose proof (split_not_nil c r) as Hne.
    destruct (split c r) as [|w ws]; [contradiction|].
    cbn [hd tl]. rewrite <- IH.
    destruct ws; reflexivity.
Qed.

Lemma contains_char_app (c : ascii) (a b : string) :
  contains_char c (a ++ b) = (contains_char c a || contains_char c b)%bool.
Proof.
  induction a as [|x r IH]; cbn [append contains_char]; [reflexivity|].
  rewrite IH. apply Bool.orb_assoc.
Qed.

Lemma trimStart_contains (c : ascii) (s : string) :
  contains_char c s = false -> contains_char c (trimStart s) = false.
Proof.
  induction s as [|x r IH]; cbn [trimStart contains_char]; [tauto|].
  intros H. destruct (is_whitespace x).
  - apply IH. apply Bool.orb_false_iff in H. tauto.
  - exact H.
Qed.

Lemma trimEnd_contains (c : ascii) (s : string) :
  contains_char c s = false -> contains_char c (trimEnd s) = false.
Proof.
  induction s as [|x r IH]; cbn [trimEnd contains_char]; [tauto|].
  intros H. apply Bool.orb_false_iff in H as [Hx Hr].
  destruct (is_whitespace x && String.eqb (trimEnd r) "")%bool;
    [reflexivity|].
  cbn [contains_char]. rewrite Hx, (IH Hr). reflexivity.
Qed.

Lemma trim_contains (c : ascii) (s : string) :
  contains_char c s = false -> contains_char c (trim s) = false.
Proof.
  intros H. apply trimEnd_contains, trimStart_contains, H.
Qed.

Lemma trimStart_startsBlack (s : string) : startsBlack (trimStart s).
Proof.
  induction s as [|x r IH]; cbn [trimStart]; [exact I|].
  destruct (is_whitespace x) eqn:Hx; [exact IH|exact Hx].
Qed.

Lemma trimStart_fixed (s : string) : startsBlack s -> trimStart s = s.
Proof.
  destruct s as [|x r]; cbn [startsBlack trimStart]; [reflexivity|].
  intros ->. reflexivity.
Qed.

Lemma trimEnd_startsBlack (s : string) :
  startsBlack s -> startsBlack (trimEnd s).
Proof.
  destruct s as [|x r]; cbn [startsBlack trimEnd]; [tauto|].
  intros Hx. rewrite Hx. cbn. exact Hx.
Qed.

Lemma trimEnd_idempotent (s : string) : trimEnd (trimEnd s) = trimEnd s.
Proof.
  induction s as [|x r IH]; cbn [trimEnd]; [reflexivity|].
  destruct (is_whitespace x && String.eqb (trimEnd r) "")%bool eqn:E;
    [reflexivity|].
  cbn [trimEnd]. rewrite IH, E. reflexivity.
Qed.

Lemma trim_idempotent (s : string) : trim (trim s) = trim s.
Proof.
  unfold trim.
  rewrite (trimStart_fixed (trimEnd (trimStart s))).
  - apply trimEnd_idempotent.
  - apply trimEnd_startsBlack, trimStart_startsBlack.
Qed.

Lemma trimEnd_empty_of_blank (s : string) :
  trimStart s = ""%string -> trimEnd s = ""%string.
Proof.
  induction s as [|x r IH]; cbn [trimStart trimEnd]; [reflexivity|].
  destruct (is_whitespace x); [|discriminate].
  intros H. rewrite (IH H). reflexivity.
Qed.

Lemma trimStart_app_black (a b : string) :
  trimStart a = ""%string -> trimStart (a ++ b) = trimStart b.
Proof.
  induction a as [|x r IH]; cbn [append trimStart]; [reflexivity|].
  destruct (is_whitespace x); [exact IH|discriminate].
Qed.

Lemma trimEnd_app_black (a b : string) :
  trimEnd b = ""%string -> trimEnd (a ++ b) = trimEnd a.
Proof.
  intros Hb. induction a as [|x r IH]; cbn [append trimEnd];
    [exact Hb|].
  rewrite IH. reflexivity.
Qed.

Lemma trim_space_before (s : string) : trim (" " ++ s) = trim s.
Proof. reflexivity. Qed.


(** ** Parsing the input *)

Lemma parseObjects_app (a b : string) :
  ObjectSelection.parseObjects (a ++ String "," b)
  = (ObjectSelection.parseObjects a ++ ObjectSelection.parseObjects b)%list.
Proof.
  unfold ObjectSelection.parseObjects.
  rewrite split_app, map_app, filter_app. reflexivity.
Qed.

Lemma parseObjects_space (s : string) :
  ObjectSelection.parseObjects (String " " s)
  = ObjectSelection.parseObjects s.
Proof.
  unfold ObjectSelection.parseObjects.
  rewrite split_cons_word by reflexivity.
  pose proof (split_not_nil "," s) as Hne.
  destruct (split "," s) as [|w ws]; [contradiction|].
  reflexivity.
Qed.

Lemma length_pos_not_empty (s : string) :
  (0 <? String.length s)%nat = true <-> s <> ""%string.
Proof.
  destruct s; cbn; split; intros H; try discriminate; try reflexivity.
  contradiction.
Qed.

Lemma parseObjects_word (obj : string) :
  ObjectSelection.cleanObject obj ->
  ObjectSelection.parseObjects obj = [obj].
Proof.
  intros (Hne & Hcomma & Htrim).
  unfold ObjectSelection.parseObjects.
  rewrite (split_without_separator _ _ Hcomma). cbn [map filter].
  rewrite Htrim.
  apply length_pos_not_empty in Hne. rewrite Hne. reflexivity.
Qed.

Lemma parseObjects_clean (value : string) :
  Forall ObjectSelection.cleanObject (ObjectSelection.parseObjects value).
Proof.
  unfold ObjectSelection.parseObjects.
  apply Forall_forall. intros obj Hin.
  apply filter_In in Hin as [Hin Hlen].
  apply in_map_iff in Hin as (w & <- & Hw).
  pose proof (split_words_without_separator "," value) as Hall.
  rewrite Forall_forall in Hall. specialize (Hall w Hw). cbn beta in Hall.
  repeat split.
  - apply length_pos_not_empty, Hlen.
  - apply trim_contains, Hall.
  - apply trim_idempotent.
Qed.

Lemma parseObjects_join (objects : list string) :
  Forall ObjectSelection.cleanObject objects ->
  ObjectSelection.parseObjects (join ", " objects) = objects.
Proof.
  induction objects as [|obj rest IH]; [reflexivity|].
  intros Hall. apply Forall_cons_iff in Hall as [Hobj Hrest].
  destruct rest as [|obj' rest'].
  - cbn [join]. apply parseObjects_word, Hobj.
  - rewrite join_cons by discriminate.
    change (", " ++ join ", " (obj' :: rest'))%string
      with (String "," (String " " (join ", " (obj' :: rest')))).
    rewrite parseObjects_app, parseObjects_space, (IH Hrest).
    rewrite (parseObjects_word _ Hobj). reflexivity.
Qed.

Lemma split_join (c : ascii) (words : list string) :
  words <> [] ->
  Forall (fun w => contains_char c w = false) words ->
  split c (join (String c "") words) = words.
Proof.
  induction words as [|w rest IH]; [contradiction|].
  intros _ Hall. apply Forall_cons_iff in Hall as [Hw Hrest].
  destruct rest as [|w' rest'].
  - cbn [join]. apply split_without_separator, Hw.
  - rewrite join_cons by discriminate.
    change (String c "" ++ join (String c "") (w' :: rest'))%string
      with (String c (join (String c "") (w' :: rest'))).
    rewrite split_app, (IH ltac:(discriminate) Hrest).
    rewrite (split_without_separator _ _ Hw). reflexivity.
Qed.


(** ** The selected objects *)

Lemma filterIndex_Forall {A : Type} (P : A -> Prop) (keep : nat -> bool)
  (l : list A) :
  forall i, Forall P l -> Forall P (ObjectSelection.filterIndex keep i l).
Proof.
  induction l as [|a rest IH]; intros i Hall; cbn [ObjectSelection.filterIndex].
  - constructor.
  - apply Forall_cons_iff in Hall as [Ha Hrest].
    destruct (keep i); [constructor; [exact Ha|]|]; apply IH, Hrest.
Qed.

Lemma handleInputBlur_selected (stored : JS.completion unit)
  (s : ObjectSelection.State) :
  ObjectSelection.selectedObjects (fst (ObjectSelection.handleInputBlur stored s))
  = ObjectSelection.parseObjects (ObjectSelection.inputValue s).
Proof.
  unfold ObjectSelection.handleInputBlur,
    ObjectSelection.saveToRecentSearches.
  destruct (ObjectSelection.parseObjects (ObjectSelection.inputValue s));
    reflexivity.
Qed.

Lemma focusInput_selected (focusFires : bool)
  (rendered s : ObjectSelection.State) :
  ObjectSelection.selectedObjects
    (ObjectSelection.focusInput focusFires rendered s)
  = ObjectSelection.selectedObjects s
  /\ ObjectSelection.inputValue
       (ObjectSelection.focusInput focusFires rendered s)
     = ObjectSelection.inputValue s.
Proof.
  unfold ObjectSelection.focusInput, ObjectSelection.handleInputFocusOf.
  destruct focusFires; [|split; reflexivity].
  destruct (_ && _)%bool; split; reflexivity.
Qed.

Lemma step_selected_clean (e : ObjectSelection.Event)
  (s : ObjectSelection.State) :
  Forall ObjectSelection.cleanObject (ObjectSelection.selectedObjects s) ->
  Forall ObjectSelection.cleanObject
    (ObjectSelection.selectedObjects (fst (ObjectSelection.step e s))).
Proof.
  intros Hclean.
  destruct e; cbn [ObjectSelection.step fst]; try exact Hclean.
  - rewrite handleInputBlur_selected. apply parseObjects_clean.
  - unfold ObjectSelection.handleInputFocus,
      ObjectSelection.handleInputFocusOf.
    destruct (_ && _)%bool; exact Hclean.
  - unfold ObjectSelection.handleSuggestionClick.
    rewrite (proj1 (focusInput_selected _ _ _)). apply parseObjects_clean.
  - unfold ObjectSelection.handleRecentSearchClick.
    rewrite (proj1 (focusInput_selected _ _ _)). apply parseObjects_clean.
  - unfold ObjectSelection.handleKeyDown.
    destruct (String.eqb key "Enter"); [|exact Hclean].
    rewrite handleInputBlur_selected. apply parseObjects_clean.
  - apply filterIndex_Forall, Hclean.
Qed.

Lemma run_selected_clean (history : list ObjectSelection.Event) :
  forall s,
    Forall ObjectSelection.cleanObject (ObjectSelection.selectedObjects s) ->
    Forall ObjectSelection.cleanObject
      (ObjectSelection.selectedObjects (ObjectSelection.run history s)).
Proof.
  induction history as [|e rest IH]; intros s Hclean; [exact Hclean|].
  cbn [ObjectSelection.run]. apply IH, step_selected_clean, Hclean.
Qed.

Lemma clean_without_comma (objects : list string) :
  Forall ObjectSelection.cleanObject objects ->
  Forall (fun w => contains_char "," w = false) objects.
Proof.
  apply Forall_impl. intros obj (_ & H & _). exact H.
Qed.

(** From selected objects that are each not empty, without comma and
    without white space at either end (as at the first mount, where there
    are none), whatever is typed, chosen, removed or loaded keeps them so;
    hence the field [objects] of the detection request, the objects
    joined by commas, splits back at its commas into exactly the selected
    objects, and so does the text the input shows for them. *)
Theorem selected_objects_survive_the_request
  (history : list ObjectSelection.Event) (s : ObjectSelection.State) :
  Forall ObjectSelection.cleanObject (ObjectSelection.selectedObjects s) ->
  let objects :=
    ObjectSelection.selectedObjects (ObjectSelection.run history s) in
  Forall ObjectSelection.cleanObject objects
  /\ ObjectSelection.parseObjects (ImageUpload.objectsField objects) = objects
  /\ ObjectSelection.parseObjects (join ", " objects) = objects
  /\ (objects = []
      \/ split "," (ImageUpload.objectsField objects) = objects).
Proof.
  intros Hstart. cbv zeta.
  pose proof (run_selected_clean history s Hstart) as Hclean.
  clear Hstart.
  set (objects := ObjectSelection.selectedObjects _) in *.
  split; [exact Hclean|].
  assert (Hsplit : objects = []
                   \/ split "," (ImageUpload.objectsField objects) = objects).
  { destruct objects as [|obj rest] eqn:E; [left; reflexivity|right].
    apply split_join; [discriminate|].
    apply clean_without_comma, Hclean. }
  split; [|split; [apply parseObjects_join, Hclean|exact Hsplit]].
  destruct Hsplit as [-> | Hsplit]; [reflexivity|].
  unfold ObjectSelection.parseObjects. rewrite Hsplit.
  clear Hsplit. induction Hclean as [|obj rest Hobj Hrest IH];
    [reflexivity|].
  cbn [map filter]. destruct Hobj as (Hne & _ & Htrim).
  rewrite Htrim. apply length_pos_not_empty in Hne. rewrite Hne, IH.
  reflexivity.
Qed.

Lemma selected_objects_survive_the_request_witness :
  let history :=
    [ObjectSelection.InputChange " Cat ,, traffic light,dog ";
     ObjectSelection.InputBlur (JS.Normal tt);
     ObjectSelection.SelectedObjectsEffect;
     ObjectSelection.RemoveObject 0] in
  let objects :=
    ObjectSelection.selectedObjects
      (ObjectSelection.run history ObjectSelection.initialState) in
  objects = ["traffic light"; "dog"]%string
  /\ Forall ObjectSelection.cleanObject objects
  /\ ObjectSelection.parseObjects (ImageUpload.objectsField objects) = objects
  /\ ObjectSelection.parseObjects (join ", " objects) = objects
  /\ (objects = []
      \/ split "," (ImageUpload.objectsField objects) = objects).
Proof.
  split; [reflexivity|].
  apply (selected_objects_survive_the_request
           [ObjectSelection.InputChange " Cat ,, traffic light,dog ";
            ObjectSelection.InputBlur (JS.Normal tt);
            ObjectSelection.SelectedObjectsEffect;
            ObjectSelection.RemoveObject 0]
           ObjectSelection.initialState).
  constructor.
Defined.

(** Leaving the input (or pressing Enter) and the effect that follows
    normalise the text: the selected objects are the parsed words of the
    text, the text becomes these objects joined by a comma and a space,
    and leaving the input again changes neither. *)
Theorem blur_normalises_the_input (stored stored' : JS.completion unit)
  (s : ObjectSelection.State) :
  let s1 :=
    ObjectSelection.syncInputValue
      (fst (ObjectSelection.handleInputBlur stored s)) in
  let s2 :=
    ObjectSelection.syncInputValue
      (fst (ObjectSelection.handleInputBlur stored' s1)) in
  ObjectSelection.selectedObjects s1
  = ObjectSelection.parseObjects (ObjectSelection.inputValue s)
  /\ ObjectSelection.inputValue s1
     = join ", " (ObjectSelection.selectedObjects s1)
  /\ ObjectSelection.selectedObjects s2 = ObjectSelection.selectedObjects s1
  /\ ObjectSelection.inputValue s2 = ObjectSelection.inputValue s1
  /\ fst (ObjectSelection.handleKeyDown "Enter" stored s)
     = fst (ObjectSelection.handleInputBlur stored s).
Proof.
  cbv zeta.
  assert (Hsel : forall st t,
             ObjectSelection.selectedObjects
               (ObjectSelection.syncInputValue
                  (fst (ObjectSelection.handleInputBlur st t)))
             = ObjectSelection.parseObjects (ObjectSelection.inputValue t)).
  { intros st t. cbn [ObjectSelection.syncInputValue
                        ObjectSelection.setInputValue
                        ObjectSelection.selectedObjects].
    apply handleInputBlur_selected. }
  assert (Hin : forall t,
             ObjectSelection.inputValue (ObjectSelection.syncInputValue t)
             = join ", " (ObjectSelection.selectedObjects t))
    by reflexivity.
  assert (Hfix :
            ObjectSelection.parseObjects
              (join ", "
                 (ObjectSelection.parseObjects (ObjectSelection.inputValue s)))
            = ObjectSelection.parseObjects (ObjectSelection.inputValue s))
    by apply parseObjects_join, parseObjects_clean.
  split; [|split; [|split; [|split]]].
  - apply Hsel.
  - rewrite Hsel, Hin, handleInputBlur_selected. reflexivity.
  - rewrite (Hsel stored'), (Hsel stored), Hin, handleInputBlur_selected.
    exact Hfix.
  - rewrite !Hin, !handleInputBlur_selected, Hin, handleInputBlur_selected.
    rewrite Hfix. reflexivity.
  - reflexivity.
Qed.


(** ** Choosing a suggestion *)

Lemma setLast_app (v w : string) (words : list string) :
  ObjectSelection.setLast v (words ++ [w]) = (words ++ [v])%list.
Proof.
  induction words as [|x rest IH]; [reflexivity|].
  cbn [app ObjectSelection.setLast]. rewrite IH.
  destruct rest; reflexivity.
Qed.

Lemma join_app_last (sep v : string) (words : list string) :
  words <> [] ->
  join sep (words ++ [v]) = (join sep words ++ sep ++ v)%string.
Proof.
  induction words as [|x rest IH]; [contradiction|]. intros _.
  destruct rest as [|y rest'].
  - reflexivity.
  - change ((x :: y :: rest') ++ [v])%list
      with (x :: ((y :: rest') ++ [v]))%list.
    rewrite join_cons by discriminate.
    rewrite IH by discriminate.
    rewrite (join_cons sep x (y :: rest')) by discriminate.
    rewrite !app_assoc_string. reflexivity.
Qed.

(** A click on a suggestion that is a clean object replaces the word
    after the last comma of the text, complete or not, by the suggestion:
    the selected objects become the objects parsed before that comma
    followed by the suggestion (the suggestion alone when the text has no
    comma), the text keeps what was before the comma, and the suggestions
    are hidden. *)
Theorem suggestion_click_replaces_last_word (focusFires : bool)
  (suggestion before word : string) (s : ObjectSelection.State) :
  ObjectSelection.cleanObject suggestion ->
  contains_char "," word = false ->
  let s' := ObjectSelection.handleSuggestionClick focusFires suggestion s in
  (ObjectSelection.inputValue s = word ->
   ObjectSelection.selectedObjects s' = [suggestion]
   /\ ObjectSelection.inputValue s' = (" " ++ suggestion)%string)
  /\ (ObjectSelection.inputValue s = (before ++ "," ++ word)%string ->
      ObjectSelection.selectedObjects s'
      = (ObjectSelection.parseObjects before ++ [suggestion])%list
      /\ ObjectSelection.inputValue s'
         = (before ++ ", " ++ suggestion)%string)
  /\ ObjectSelection.showSuggestions s' = false
  /\ ObjectSelection.recentSearches s' = ObjectSelection.recentSearches s.
Proof.
  intros Hclean Hword. cbv zeta.
  unfold ObjectSelection.handleSuggestionClick.
  destruct (focusInput_selected focusFires s
              (ObjectSelection.onObjectsChange
                 (ObjectSelection.parseObjects
                    (join ","
                       (ObjectSelection.setLast (" " ++ suggestion)
                          (split "," (ObjectSelection.inputValue s)))))
                 (ObjectSelection.setShowSuggestions false
                    (ObjectSelection.setInputValue
                       (join ","
                          (ObjectSelection.setLast (" " ++ suggestion)
                             (split "," (ObjectSelection.inputValue s))))
                       s)))) as [Hsel Hin].
  split; [|split; [|split]].
  - intros Hvalue. rewrite Hsel, Hin.
    cbn [ObjectSelection.onObjectsChange ObjectSelection.selectedObjects
           ObjectSelection.inputValue ObjectSelection.setShowSuggestions
           ObjectSelection.setInputValue].
    rewrite Hvalue, (split_without_separator _ _ Hword).
    cbn [ObjectSelection.setLast join].
    split; [|reflexivity].
    change (" " ++ suggestion)%string with (String " " suggestion).
    rewrite parseObjects_space. apply parseObjects_word, Hclean.
  - intros Hvalue. rewrite Hsel, Hin.
    cbn [ObjectSelection.onObjectsChange ObjectSelection.selectedObjects
           ObjectSelection.inputValue ObjectSelection.setShowSuggestions
           ObjectSelection.setInputValue].
    rewrite Hvalue.
    change ("," ++ word)%string with (String "," word).
    rewrite split_app, (split_without_separator _ _ Hword), setLast_app.
    rewrite join_app_last by apply split_not_nil.
    rewrite join_split.
    split; [|reflexivity].
    change ("," ++ " " ++ suggestion)%string
      with (String "," (String " " suggestion)).
    rewrite parseObjects_app, parseObjects_space.
    rewrite (parseObjects_word _ Hclean). reflexivity.
  - unfold ObjectSelection.focusInput, ObjectSelection.handleInputFocusOf.
    destruct focusFires; [|reflexivity].
    destruct (_ && _)%bool; reflexivity.
  - unfold ObjectSelection.focusInput, ObjectSelection.handleInputFocusOf.
    destruct focusFires; [|reflexivity].
    destruct (_ && _)%bool; reflexivity.
Qed.

Lemma suggestion_click_replaces_last_word_witness :
  let s :=
    ObjectSelection.mkState "cat, traffic li" ["dog"; "traffic light"]
      ["traffic light"] true [] false ["cat"; "traffic li"] in
  let s' := ObjectSelection.handleSuggestionClick true "traffic light" s in
  (ObjectSelection.cleanObject "traffic light"
   /\ contains_char "," " traffic li" = false)
  /\ (ObjectSelection.inputValue s = " traffic li"%string ->
      ObjectSelection.selectedObjects s' = ["traffic light"%string]
      /\ ObjectSelection.inputValue s' = (" " ++ "traffic light")%string)
  /\ (ObjectSelection.inputValue s = ("cat" ++ "," ++ " traffic li")%string ->
      ObjectSelection.selectedObjects s'
      = (ObjectSelection.parseObjects "cat" ++ ["traffic light"%string])%list
      /\ ObjectSelection.inputValue s'
         = ("cat" ++ ", " ++ "traffic light")%string)
  /\ ObjectSelection.showSuggestions s' = false
  /\ ObjectSelection.recentSearches s' = ObjectSelection.recentSearches s.
Proof.
  assert (Hclean : ObjectSelection.cleanObject "traffic light")
    by (repeat split; discriminate).
  split; [split; [exact Hclean|reflexivity]|].
  apply (suggestion_click_replaces_last_word true "traffic light" "cat"
           " traffic li"
           (ObjectSelection.mkState "cat, traffic li"
              ["dog"; "traffic light"] ["traffic light"] true [] false
              ["cat"; "traffic li"])
           Hclean).
  reflexivity.
Defined.

(** ** Removing a tag *)

Lemma filterIndex_remove {A : Type} (l : list A) :
  forall (index start : nat),
    ObjectSelection.filterIndex
      (fun i => negb (i =? start + index)%nat) start l
    = (firstn index l ++ skipn (S index) l)%list.
Proof.
  induction l as [|a rest IH]; intros index start;
    cbn [ObjectSelection.filterIndex].
  - destruct index; reflexivity.
  - destruct index as [|index].
    + rewrite Nat.add_0_r, Nat.eqb_refl. cbn [negb firstn skipn app].
      clear IH. revert start.
      assert (H : forall k start, (start < k)%nat ->
                ObjectSelection.filterIndex
                  (fun i => negb (i =? start)%nat) k rest = rest).
      { induction rest as [|b rest' IH']; intros k start Hlt;
          cbn [ObjectSelection.filterIndex]; [reflexivity|].
        destruct (Nat.eqb_spec k start) as [->|_]; [lia|].
        cbn [negb]. rewrite IH' by lia. reflexivity. }
      intros start. apply H. lia.
    + destruct (Nat.eqb_spec start (start + S index)) as [E|_]; [lia|].
      cbn [negb firstn skipn app].
      replace (start + S index)%nat with (S start + index)%nat by lia.
      rewrite IH. reflexivity.
Qed.

(** Removing the tag at an index drops exactly that object and keeps the
    others in order: one object fewer for an index inside the list, no
    change for one outside; nothing else of the state changes. *)
Theorem removeObject_drops_one_tag (index : nat) (s : ObjectSelection.State) :
  let objects := ObjectSelection.selectedObjects s in
  let s' := ObjectSelection.removeObject index s in
  ObjectSelection.selectedObjects s'
  = (firstn index objects ++ skipn (S index) objects)%list
  /\ List.length (ObjectSelection.selectedObjects s')
     = (if (index <? List.length objects)%nat
        then List.length objects - 1 else List.length objects)%nat
  /\ ((List.length objects <= index)%nat ->
      ObjectSelection.selectedObjects s' = objects)
  /\ ObjectSelection.inputValue s' = ObjectSelection.inputValue s
  /\ ObjectSelection.recentSearches s' = ObjectSelection.recentSearches s.
Proof.
  cbv zeta.
  assert (Hsel : ObjectSelection.selectedObjects
                   (ObjectSelection.removeObject index s)
                 = (firstn index (ObjectSelection.selectedObjects s)
                    ++ skipn (S index) (ObjectSelection.selectedObjects s))%list).
  { unfold ObjectSelection.removeObject.
    cbn [ObjectSelection.onObjectsChange ObjectSelection.selectedObjects].
    apply (filterIndex_remove (ObjectSelection.selectedObjects s) index 0). }
  split; [exact Hsel|]. rewrite Hsel.
  split; [|split; [|split; reflexivity]].
  - rewrite length_app, length_firstn, length_skipn.
    destruct (Nat.ltb_spec index
                (List.length (ObjectSelection.selectedObjects s))); lia.
  - intros Hout. rewrite firstn_all2 by exact Hout.
    rewrite skipn_all2 by lia. apply app_nil_r.
Qed.


(** ** Recent searches *)

Lemma firstn_In_list {A : Type} (x : A) (l : list A) :
  forall n, In x (firstn n l) -> In x l.
Proof.
  induction l as [|a rest IH]; intros [|n]; cbn [firstn In]; try tauto.
  intros [H|H]; [left; exact H|right; exact (IH n H)].
Qed.

Lemma NoDup_firstn_list {A : Type} (l : list A) :
  forall n, NoDup l -> NoDup (firstn n l).
Proof.
  induction l as [|a rest IH]; intros [|n] Hnd; cbn [firstn];
    try constructor.
  - inversion Hnd as [|? ? Hnotin Hrest]; subst.
    intros Hin. apply Hnotin. exact (firstn_In_list _ _ _ Hin).
  - inversion Hnd; subst. apply IH. assumption.
Qed.

Lemma filter_all {A : Type} (f : A -> bool) (l : list A) :
  (forall x, In x l -> f x = true) -> filter f l = l.
Proof.
  induction l as [|a rest IH]; intros Hall; cbn [filter]; [reflexivity|].
  rewrite (Hall a (or_introl eq_refl)).
  rewrite IH; [reflexivity|]. intros x Hx. apply Hall. right. exact Hx.
Qed.

Lemma filter_other_not_in (x : string) (l : list string) :
  ~ In x (filter (fun y => negb (String.eqb y x)) l).
Proof.
  intros Hin. apply filter_In in Hin as [_ Hneq].
  rewrite String.eqb_refl in Hneq. discriminate.
Qed.

(** Committing a selection that is not empty puts its text, the objects
    joined by a comma and a space, at the head of the recent searches,
    where it then occurs exactly once; the list holds at most ten
    searches, every other one is an earlier search, a list without
    repetition stays so, committing the same selection again changes
    nothing, and the list is what the handler hands to the storage.  When
    the storage refuses the write only an error is logged: the state keeps
    the new list. *)
Theorem recent_searches_most_recent_first (stored : JS.completion unit)
  (objects : list string) (s : ObjectSelection.State) :
  objects <> [] ->
  let saved := ObjectSelection.saveToRecentSearches stored objects s in
  let recent := ObjectSelection.recentSearches (fst saved) in
  hd_error recent = Some (join ", " objects)
  /\ (List.length recent <= 10)%nat
  /\ count_occ string_dec recent (join ", " objects) = 1%nat
  /\ (forall search, In search recent ->
        search = join ", " objects
        \/ In search (ObjectSelection.recentSearches s))
  /\ (NoDup (ObjectSelection.recentSearches s) -> NoDup recent)
  /\ ObjectSelection.recentSearches
       (fst (ObjectSelection.saveToRecentSearches stored objects (fst saved)))
     = recent
  /\ In (ObjectSelection.SetItem recent) (snd saved)
  /\ fst saved
     = fst (ObjectSelection.saveToRecentSearches (JS.Normal tt) objects s)
  /\ ObjectSelection.selectedObjects (fst saved)
     = ObjectSelection.selectedObjects s.
Proof.
  intros Hne. cbv zeta.
  destruct objects as [|obj rest]; [contradiction|]. clear Hne.
  set (objects := obj :: rest).
  set (search := join ", " objects).
  set (others :=
         filter (fun x => negb (String.eqb x search))
           (ObjectSelection.recentSearches s)).
  assert (Hrecent : forall st t,
             ObjectSelection.recentSearches
               (fst (ObjectSelection.saveToRecentSearches st objects t))
             = search
               :: firstn 9
                    (filter (fun x => negb (String.eqb x search))
                       (ObjectSelection.recentSearches t)))
    by reflexivity.
  assert (Hnotin : ~ In search (firstn 9 others)).
  { intros Hin. apply firstn_In_list in Hin.
    exact (filter_other_not_in _ _ Hin). }
  rewrite !Hrecent. fold others.
  split; [reflexivity|].
  split; [cbn [List.length]; pose proof (firstn_le_length 9 others); lia|].
  split.
  { cbn [count_occ]. destruct (string_dec search search); [|contradiction].
    f_equal. apply count_occ_not_In, Hnotin. }
  split.
  { intros x [<-|Hin]; [left; reflexivity|right].
    apply firstn_In_list in Hin. apply filter_In in Hin. tauto. }
  split.
  { intros Hnd. constructor; [exact Hnotin|].
    apply NoDup_firstn_list, NoDup_filter, Hnd. }
  split.
  { f_equal. cbn [filter]. rewrite String.eqb_refl. cbn [negb].
    rewrite filter_all.
    - rewrite firstn_firstn. reflexivity.
    - intros x Hx. apply firstn_In_list in Hx.
      apply filter_In in Hx. tauto. }
  split.
  { cbn [ObjectSelection.saveToRecentSearches objects snd].
    fold objects. fold search. fold others.
    change (firstn 10 (search :: others)) with (search :: firstn 9 others).
    destruct stored; left; reflexivity. }
  split; reflexivity.
Qed.

Lemma recent_searches_most_recent_first_witness :
  let s :=
    ObjectSelection.mkState "dog, cat" [] [] false
      ["cat"; "dog, cat"; "car"] false [] in
  let saved :=
    ObjectSelection.saveToRecentSearches (JS.Throw JS.DOMException)
      ["dog"; "cat"] s in
  let recent := ObjectSelection.recentSearches (fst saved) in
  recent = ["dog, cat"; "cat"; "car"]%string
  /\ snd saved
     = [ObjectSelection.SetItem recent;
        ObjectSelection.LogError "Failed to save recent search:"]
  /\ hd_error recent = Some (join ", " ["dog"; "cat"])
  /\ (List.length recent <= 10)%nat
  /\ count_occ string_dec recent (join ", " ["dog"; "cat"]) = 1%nat
  /\ (forall search, In search recent ->
        search = join ", " ["dog"; "cat"]
        \/ In search (ObjectSelection.recentSearches s))
  /\ (NoDup (ObjectSelection.recentSearches s) -> NoDup recent)
  /\ ObjectSelection.recentSearches
       (fst (ObjectSelection.saveToRecentSearches
               (JS.Throw JS.DOMException) ["dog"; "cat"] (fst saved)))
     = recent
  /\ In (ObjectSelection.SetItem recent) (snd saved)
  /\ fst saved
     = fst (ObjectSelection.saveToRecentSearches (JS.Normal tt)
              ["dog"; "cat"] s)
  /\ ObjectSelection.selectedObjects (fst saved)
     = ObjectSelection.selectedObjects s.
Proof.
  split; [reflexivity|]. split; [reflexivity|].
  apply (recent_searches_most_recent_first (JS.Throw JS.DOMException)
           ["dog"; "cat"]%string
           (ObjectSelection.mkState "dog, cat" [] [] false
              ["cat"; "dog, cat"; "car"] false [])).
  discriminate.
Defined.


(** ** Suggestions *)

Lemma lower_char_whitespace (c : ascii) :
  is_whitespace (lower_char c) = is_whitespace c.
Proof.
  destruct c as [b0 b1 b2 b3 b4 b5 b6 b7].
  destruct b0, b1, b2, b3, b4, b5, b6, b7; reflexivity.
Qed.

Lemma toLowerCase_empty (s : string) :
  String.eqb (toLowerCase s) "" = String.eqb s "".
Proof. destruct s; reflexivity. Qed.

Lemma toLowerCase_trimStart (s : string) :
  trimStart (toLowerCase s) = toLowerCase (trimStart s).
Proof.
  induction s as [|c r IH]; cbn [toLowerCase trimStart]; [reflexivity|].
  rewrite lower_char_whitespace.
  destruct (is_whitespace c); [exact IH|reflexivity].
Qed.

Lemma toLowerCase_trimEnd (s : string) :
  trimEnd (toLowerCase s) = toLowerCase (trimEnd s).
Proof.
  induction s as [|c r IH]; cbn [toLowerCase trimEnd]; [reflexivity|].
  rewrite lower_char_whitespace, IH, toLowerCase_empty.
  destruct (is_whitespace c && String.eqb (trimEnd r) "")%bool;
    reflexivity.
Qed.

Lemma toLowerCase_trim (s : string) :
  trim (toLowerCase s) = toLowerCase (trim s).
Proof.
  unfold trim. rewrite toLowerCase_trimStart. apply toLowerCase_trimEnd.
Qed.

Lemma prefix_app (t s : string) :
  prefix t s = true -> exists b, s = (t ++ b)%string.
Proof.
  revert s. induction t as [|c r IH]; intros s H.
  - exists s. reflexivity.
  - destruct s as [|d s']; cbn [prefix] in H; [discriminate|].
    destruct (ascii_dec c d) as [->|_]; [|discriminate].
    destruct (IH s' H) as [b ->]. exists b. reflexivity.
Qed.

Lemma includes_app (s t : string) :
  includes s t = true -> exists a b, s = (a ++ t ++ b)%string.
Proof.
  induction s as [|c r IH]; cbn [includes]; intros H.
  - rewrite Bool.orb_false_r in H.
    destruct (prefix_app _ _ H) as [b Hb]. exists ""%string, b. exact Hb.
  - apply Bool.orb_true_iff in H as [H|H].
    + destruct (prefix_app _ _ H) as [b Hb]. exists ""%string, b. exact Hb.
    + destruct (IH H) as (a & b & ->). exists (String c a), b. reflexivity.
Qed.

Lemma generateSuggestions_spec (s : ObjectSelection.State) (input : string) :
  let suggested := ObjectSelection.generateSuggestions s input in
  (List.length suggested <= 8)%nat
  /\ (trim input = ""%string -> suggested = [])
  /\ (forall className, In className suggested ->
        trim input <> ""%string
        /\ In className (ObjectSelection.availableClasses s)
        /\ includes (toLowerCase className) (toLowerCase (trim input)) = true
        /\ forall obj, In obj (ObjectSelection.selectedObjects s) ->
             toLowerCase (trim obj) <> toLowerCase className).
Proof.
  cbv zeta. unfold ObjectSelection.generateSuggestions.
  destruct (String.eqb_spec (trim input) "") as [Hblank|Hword].
  { cbn [orb List.length]. repeat split; try lia; contradiction. }
  cbn [orb].
  destruct (List.length (ObjectSelection.availableClasses s) =? 0)%nat.
  { cbn [List.length]. repeat split; try lia; contradiction. }
  split; [|split].
  - rewrite length_firstn. lia.
  - intros Hblank. contradiction.
  - intros className Hin. apply firstn_In_list in Hin.
    apply filter_In in Hin as [Hin Hkeep].
    apply Bool.andb_true_iff in Hkeep as [Hinc Hnot].
    rewrite toLowerCase_trim in Hinc.
    repeat split; try assumption.
    intros obj Hobj Heq.
    apply Bool.negb_true_iff in Hnot.
    assert (Hex : JSString.array_includes
                    (map (fun obj => trim (toLowerCase obj))
                       (ObjectSelection.selectedObjects s))
                    (toLowerCase className) = true).
    { apply existsb_exists. exists (trim (toLowerCase obj)).
      split; [apply in_map_iff; exists obj; split; [reflexivity|exact Hobj]|].
      rewrite toLowerCase_trim, Heq. apply String.eqb_refl. }
    rewrite Hex in Hnot. discriminate.
Qed.

(** Typing sets the text and offers at most eight suggestions for the
    word after the last comma: each is an available class whose lower
    case contains the lower case of that word, trimmed and not blank,
    and none equals a selected object up to case and surrounding white
    space.  The dropdown is shown exactly when there is a suggestion; the
    selected objects and the recent searches are left alone. *)
Theorem typing_suggests_unselected_matches (value : string)
  (s : ObjectSelection.State) :
  let s' := ObjectSelection.handleInputChange value s in
  let word := toLowerCase (trim (last (split "," value) ""%string)) in
  ObjectSelection.inputValue s' = value
  /\ (List.length (ObjectSelection.suggestions s') <= 8)%nat
  /\ (forall className, In className (ObjectSelection.suggestions s') ->
        word <> ""%string
        /\ In className (ObjectSelection.availableClasses s)
        /\ (exists before after,
              toLowerCase className = (before ++ word ++ after)%string)
        /\ forall obj, In obj (ObjectSelection.selectedObjects s) ->
             toLowerCase (trim obj) <> toLowerCase className)
  /\ (ObjectSelection.showSuggestions s' = true
      <-> ObjectSelection.suggestions s' <> [])
  /\ ObjectSelection.selectedObjects s' = ObjectSelection.selectedObjects s
  /\ ObjectSelection.recentSearches s' = ObjectSelection.recentSearches s.
Proof.
  cbv zeta. unfold ObjectSelection.handleInputChange.
  cbn [ObjectSelection.inputValue ObjectSelection.suggestions
         ObjectSelection.showSuggestions ObjectSelection.selectedObjects
         ObjectSelection.recentSearches ObjectSelection.setShowSuggestions
         ObjectSelection.setSuggestions ObjectSelection.setInputValue].
  set (currentWord := trim (last (split "," value) ""%string)).
  destruct (generateSuggestions_spec s currentWord)
    as (Hlen & Hblank & Hin).
  assert (Htrim : trim currentWord = currentWord) by apply trim_idempotent.
  rewrite Htrim in Hblank, Hin.
  split; [reflexivity|]. split; [exact Hlen|].
  split; [|split; [|split; reflexivity]].
  - intros className Hc. destruct (Hin className Hc) as (Hw & Hav & Hinc & Hsel).
    split; [|split; [exact Hav|split; [apply includes_app, Hinc|exact Hsel]]].
    intros Hlow. apply Hw. destruct currentWord; [reflexivity|discriminate].
  - split.
    + intros Hshow. apply Bool.andb_true_iff in Hshow as [Hpos _].
      intros Hnil. rewrite Hnil in Hpos. discriminate.
    + intros Hsome. apply Bool.andb_true_iff. split.
      * destruct (ObjectSelection.generateSuggestions s currentWord);
          [contradiction|reflexivity].
      * apply length_pos_not_empty. intros Hempty.
        apply Hsome, Hblank, Hempty.
Qed.


(** ** Choosing a recent search *)

(** Committing a text with at least one object stores, at the head of
    the recent searches, a search that selects exactly the committed
    objects again: a later click on it, in whatever state, selects these
    objects, sets the text to the search and hides the recent searches
    unless the focus handler of that render shows them again. *)
Theorem recent_search_click_restores_selection
  (stored : JS.completion unit) (focusFires : bool)
  (s later : ObjectSelection.State) :
  ObjectSelection.parseObjects (ObjectSelection.inputValue s) <> [] ->
  let committed := fst (ObjectSelection.handleInputBlur stored s) in
  exists search,
    hd_error (ObjectSelection.recentSearches committed) = Some search
    /\ search = join ", " (ObjectSelection.selectedObjects committed)
    /\ ObjectSelection.selectedObjects
         (ObjectSelection.handleRecentSearchClick focusFires search later)
       = ObjectSelection.selectedObjects committed
    /\ ObjectSelection.inputValue
         (ObjectSelection.handleRecentSearchClick focusFires search later)
       = search
    /\ (focusFires = false ->
        ObjectSelection.showRecentSearches
          (ObjectSelection.handleRecentSearchClick focusFires search later)
        = false).
Proof.
  intros Hne. cbv zeta.
  rewrite handleInputBlur_selected.
  set (objects := ObjectSelection.parseObjects (ObjectSelection.inputValue s))
    in *.
  exists (join ", " objects).
  split.
  { unfold ObjectSelection.handleInputBlur. fold objects.
    destruct objects as [|obj rest] eqn:E; [contradiction|].
    reflexivity. }
  split; [reflexivity|].
  unfold ObjectSelection.handleRecentSearchClick.
  destruct (focusInput_selected focusFires later
              (ObjectSelection.onObjectsChange
                 (ObjectSelection.parseObjects (join ", " objects))
                 (ObjectSelection.setShowRecentSearches false
                    (ObjectSelection.setInputValue (join ", " objects)
                       later)))) as [Hsel Hin].
  rewrite Hsel, Hin.
  split; [|split; [reflexivity|intros ->; reflexivity]].
  cbn [ObjectSelection.onObjectsChange ObjectSelection.selectedObjects].
  apply parseObjects_join, parseObjects_clean.
Qed.

Lemma recent_search_click_restores_selection_witness :
  let s :=
    ObjectSelection.mkState " Cat ,, traffic light" [] [] false ["car"]
      false [] in
  let committed :=
    fst (ObjectSelection.handleInputBlur (JS.Normal tt) s) in
  ObjectSelection.recentSearches committed
  = ["Cat, traffic light"; "car"]%string
  /\ exists search,
      hd_error (ObjectSelection.recentSearches committed) = Some search
      /\ search = join ", " (ObjectSelection.selectedObjects committed)
      /\ ObjectSelection.selectedObjects
           (ObjectSelection.handleRecentSearchClick true search
              ObjectSelection.initialState)
         = ObjectSelection.selectedObjects committed
      /\ ObjectSelection.inputValue
           (ObjectSelection.handleRecentSearchClick true search
              ObjectSelection.initialState)
         = search
      /\ (true = false ->
          ObjectSelection.showRecentSearches
            (ObjectSelection.handleRecentSearchClick true search
               ObjectSelection.initialState)
          = false).
Proof.
  split; [reflexivity|].
  apply (recent_search_click_restores_selection (JS.Normal tt) true
           (ObjectSelection.mkState " Cat ,, traffic light" [] [] false
              ["car"] false [])
           ObjectSelection.initialState).
  discriminate.
Defined.


(** * Binary64 arithmetic *)

(** ** Powers of two *)

Lemma pow2_pos (z : Z) : 0 < 2 ^ z.
Proof. apply Qpower_0_lt. reflexivity. Qed.

Lemma pow2_plus (a b : Z) : 2 ^ (a + b) == 2 ^ a * 2 ^ b.
Proof. apply Qpower_plus. discriminate. Qed.

Lemma pow2_inject (n : Z) : (0 <= n)%Z -> inject_Z (2 ^ n) == 2 ^ n.
Proof. intros Hn. apply (Zpower_Qpower 2 n Hn). Qed.

Lemma log2_below (n : Z) : (0 < n)%Z -> 2 ^ Z.log2 n <= inject_Z n.
Proof.
  intros Hn. rewrite <- pow2_inject by apply Z.log2_nonneg.
  rewrite <- Zle_Qle. apply Z.log2_spec, Hn.
Qed.

Lemma log2_above (n : Z) : (0 < n)%Z -> inject_Z n < 2 ^ (Z.log2 n + 1).
Proof.
  intros Hn.
  rewrite <- pow2_inject by (pose proof (Z.log2_nonneg n); lia).
  rewrite <- Zlt_Qlt. replace (Z.log2 n + 1)%Z with (Z.succ (Z.log2 n)) by lia.
  apply Z.log2_spec, Hn.
Qed.

Lemma Qnum_pos (q : Q) : 0 < q -> (0 < Qnum q)%Z.
Proof. destruct q as [n d]. unfold Qlt. simpl. lia. Qed.

Lemma Q_as_quotient (q : Q) : q == inject_Z (Qnum q) / inject_Z (Z.pos (Qden q)).
Proof. destruct q as [n d]. simpl. apply Qmake_Qdiv. Qed.

(** [floor_log2] is the exponent of its argument. *)
Lemma floor_log2_spec (q : Q) :
  0 < q ->
  2 ^ Binary64.floor_log2 q <= q /\ q < 2 ^ (Binary64.floor_log2 q + 1).
Proof.
  intros Hq. unfold Binary64.floor_log2.
  set (n := Qnum q). set (d := Z.pos (Qden q)).
  assert (Hn : (0 < n)%Z) by (apply Qnum_pos, Hq).
  assert (Hd : (0 < d)%Z) by (unfold d; lia).
  pose proof (log2_below n Hn) as Hn1. pose proof (log2_above n Hn) as Hn2.
  pose proof (log2_below d Hd) as Hd1. pose proof (log2_above d Hd) as Hd2.
  pose proof (pow2_pos (Z.log2 n)) as Pn.
  pose proof (pow2_pos (Z.log2 d)) as Pd.
  assert (HD : 0 < inject_Z d) by (unfold Qlt; simpl; lia).
  assert (HN : 0 < inject_Z n) by (unfold Qlt; simpl; lia).
  assert (Hquot : q == inject_Z n / inject_Z d) by apply Q_as_quotient.
  assert (E1 : 2 ^ (Z.log2 n - Z.log2 d - 1) * 2 ^ (Z.log2 d + 1)
               == 2 ^ Z.log2 n).
  { rewrite <- pow2_plus.
    replace (Z.log2 n - Z.log2 d - 1 + (Z.log2 d + 1))%Z with (Z.log2 n)
      by ring.
    reflexivity. }
  assert (E2 : 2 ^ (Z.log2 n - Z.log2 d + 1) * 2 ^ Z.log2 d
               == 2 ^ (Z.log2 n + 1)).
  { rewrite <- pow2_plus.
    replace (Z.log2 n - Z.log2 d + 1 + Z.log2 d)%Z with (Z.log2 n + 1)%Z
      by ring.
    reflexivity. }
  pose proof (pow2_pos (Z.log2 n - Z.log2 d - 1)) as Plo.
  pose proof (pow2_pos (Z.log2 n - Z.log2 d + 1)) as Phi.
  destruct (Qle_bool (2 ^ (Z.log2 n - Z.log2 d)) q) eqn:T.
  - apply Qle_bool_iff in T. split; [exact T|].
    rewrite Hquot. apply Qlt_shift_div_r; [exact HD|].
    apply Qlt_le_trans with (2 ^ (Z.log2 n + 1)); [exact Hn2|].
    rewrite <- E2. apply Qmult_le_l; [exact Phi|exact Hd1].
  - apply Qle_bool_false_lt in T. split.
    + rewrite Hquot. apply Qle_shift_div_l; [exact HD|].
      apply Qle_trans with (2 ^ Z.log2 n); [|exact Hn1].
      rewrite <- E1. apply Qmult_le_l; [exact Plo|]. apply Qlt_le_weak, Hd2.
    + replace (Z.log2 n - Z.log2 d - 1 + 1)%Z with (Z.log2 n - Z.log2 d)%Z
        by ring.
      exact T.
Qed.


(** ** Rounding *)

Lemma round_half_even_near (q : Q) :
  Qabs (inject_Z (Binary64.round_half_even q) - q) <= 1 # 2.
Proof.
  unfold Binary64.round_half_even.
  pose proof (Qfloor_le q) as Hlo. pose proof (Qlt_floor q) as Hhi.
  rewrite inject_Z_plus in Hhi. change (inject_Z 1) with 1 in Hhi.
  apply Qabs_Qle_condition.
  destruct (Qcompare (q - inject_Z (Qfloor q)) (1 # 2)) eqn:C.
  - apply Qeq_alt in C.
    destruct (Z.even (Qfloor q)).
    + split; lra.
    + rewrite inject_Z_plus. change (inject_Z 1) with 1. split; lra.
  - apply Qlt_alt in C. split; lra.
  - apply Qgt_alt in C. rewrite inject_Z_plus. change (inject_Z 1) with 1.
    split; lra.
Qed.

(** Half a unit in the last place is at most [2 ^ -53] of the value, for a
    value of the normal range. *)
Lemma half_ulp_bound (q : Q) :
  0 < q -> 2 ^ (-1022) <= q ->
  (1 # 2) * 2 ^ Binary64.ulp_exponent q <= q * 2 ^ (-53).
Proof.
  intros Hq Hnormal. unfold Binary64.ulp_exponent.
  destruct (floor_log2_spec q Hq) as [Hlo _].
  pose proof (pow2_pos (-53)) as P53.
  destruct (Z.max_spec (Binary64.floor_log2 q - 52) (-1074)) as [[_ ->]|[_ ->]].
  - apply Qle_trans with (2 ^ (-1022) * 2 ^ (-53)).
    + rewrite <- pow2_plus. apply Qle_lteq. right. reflexivity.
    + apply Qmult_le_r; [exact P53|exact Hnormal].
  - apply Qle_trans with (2 ^ Binary64.floor_log2 q * 2 ^ (-53)).
    + replace (Binary64.floor_log2 q - 52)%Z
        with (Binary64.floor_log2 q + (-52))%Z by ring.
      rewrite pow2_plus.
      setoid_replace (2 ^ (-53)) with ((1 # 2) * 2 ^ (-52)) by reflexivity.
      apply Qle_lteq. right. ring.
    + apply Qmult_le_r; [exact P53|exact Hlo].
Qed.

Lemma round64_pos (q : Q) :
  0 < q ->
  Binary64.round64 q
  = inject_Z (Binary64.round_half_even (q / 2 ^ Binary64.ulp_exponent q))
    * 2 ^ Binary64.ulp_exponent q.
Proof.
  intros Hq. unfold Binary64.round64.
  apply Qgt_alt in Hq. rewrite Hq. reflexivity.
Qed.

Lemma round64_neg (q : Q) :
  q < 0 -> Binary64.round64 q = - Binary64.round64 (- q).
Proof.
  intros Hq. unfold Binary64.round64 at 1.
  assert (Hc : Qcompare q 0 = Lt) by (apply Qlt_alt, Hq).
  rewrite Hc. rewrite round64_pos by lra. reflexivity.
Qed.

Lemma round64_zero (q : Q) : q == 0 -> Binary64.round64 q = 0.
Proof.
  intros Hq. unfold Binary64.round64.
  apply Qeq_alt in Hq. rewrite Hq. reflexivity.
Qed.

Lemma round64_error_pos (q : Q) :
  0 < q -> 2 ^ (-1022) <= q ->
  Qabs (Binary64.round64 q - q) <= q * 2 ^ (-53).
Proof.
  intros Hq Hnormal. rewrite round64_pos by exact Hq.
  set (u := Binary64.ulp_exponent q).
  pose proof (pow2_pos u) as Pu.
  pose proof (round_half_even_near (q / 2 ^ u)) as Hm.
  set (m := inject_Z (Binary64.round_half_even (q / 2 ^ u))) in *.
  apply Qle_trans with ((1 # 2) * 2 ^ u); [|apply half_ulp_bound; assumption].
  setoid_replace (m * 2 ^ u - q) with ((m - q / 2 ^ u) * 2 ^ u)
    by (field; lra).
  rewrite Qabs_Qmult, (Qabs_pos (2 ^ u)) by lra.
  apply Qmult_le_r; [exact Pu|exact Hm].
Qed.

(** The relative error of one rounding is at most [2 ^ -53] on the normal
    range. *)
Lemma round64_error (q : Q) :
  q == 0 \/ 2 ^ (-1022) <= Qabs q ->
  Qabs (Binary64.round64 q - q) <= Qabs q * 2 ^ (-53).
Proof.
  intros [Hz|Hnormal].
  - rewrite (round64_zero q Hz), Hz. vm_compute. discriminate.
  - pose proof (pow2_pos (-1022)) as P.
    destruct (Qlt_le_dec q 0) as [Hneg|Hpos].
    + rewrite (Qabs_neg q) in * by lra.
      rewrite round64_neg by exact Hneg.
      setoid_replace (- Binary64.round64 (- q) - q)
        with (- (Binary64.round64 (- q) - - q)) by ring.
      rewrite Qabs_opp. apply round64_error_pos; [lra|exact Hnormal].
    + rewrite (Qabs_pos q) in * by exact Hpos.
      apply round64_error_pos; [lra|exact Hnormal].
Qed.

(** A quotient or product of the normal range, below [2 ^ 1023], is
    rounded to a finite value within [2 ^ -53] of it, relatively. *)
Lemma fl_near (q : Q) :
  q == 0 \/ 2 ^ (-1022) <= Qabs q -> Qabs q <= 2 ^ 1023 ->
  exists r,
    Binary64.fl (Fin q) = Fin r /\ Qabs (r - q) <= Qabs q * 2 ^ (-53).
Proof.
  intros Hrange Hmax. pose proof (round64_error q Hrange) as Herr.
  exists (Binary64.round64 q). split; [|exact Herr].
  unfold Binary64.fl. cbv zeta.
  destruct (Qle_bool (2 ^ 1024) (Qabs (Binary64.round64 q))) eqn:B;
    [|reflexivity].
  exfalso. apply Qle_bool_iff in B.
  pose proof (Qabs_triangle (Binary64.round64 q - q) q) as Ht.
  setoid_replace (Binary64.round64 q - q + q) with (Binary64.round64 q) in Ht
    by ring.
  pose proof (Qabs_nonneg q) as Hq0.
  assert (H53 : 2 ^ (-53) <= 1) by (vm_compute; discriminate).
  assert (Hprod : Qabs q * 2 ^ (-53) <= Qabs q * 1)
    by (apply Qmult_le_compat_nonneg; split; try lra; exact (Qle_refl _)
        || apply Qlt_le_weak, pow2_pos).
  assert (H1024 : 2 ^ 1024 == 2 * 2 ^ 1023) by reflexivity.
  pose proof (pow2_pos 1023) as P.
  rewrite H1024 in B. lra.
Qed.


(** ** Reference values

    The rounding against binary64 values known from the standard: a third,
    a tenth, the quotient and the product of the 393 x 720 image, the
    quotient of 72 by 1920, the ties at the two ends of the range, and the
    overflow. *)
Example fl_reference_values :
  JS.num_eq (Binary64.fl (Fin (1 # 3)))
    (Fin (6004799503160661 / 2 ^ 54))
  /\ JS.num_eq (Binary64.fl (Fin (1 # 10)))
       (Fin (3602879701896397 / 2 ^ 55))
  /\ JS.num_eq (Binary64.div (lit 393) (lit 720))
       (Fin (4916429593212791 / 2 ^ 53))
  /\ JS.num_eq (Binary64.mul (lit 600) (Binary64.div (lit 393) (lit 720)))
       (Fin (5761440929546239 / 2 ^ 44))
  /\ JS.num_eq (Binary64.div (lit 72) (lit 1920))
       (Fin (5404319552844595 / 2 ^ 57))
  /\ JS.num_eq (Binary64.fl (Fin (2 ^ (-1075)))) (Fin 0)
  /\ JS.num_eq (Binary64.fl (Fin (3 * 2 ^ (-1075)))) (Fin (2 ^ (-1073)))
  /\ JS.num_eq (Binary64.fl (Fin (2 ^ 1024 - 2 ^ 971)))
       (Fin (2 ^ 1024 - 2 ^ 971))
  /\ Binary64.fl (Fin (2 ^ 1024 - 2 ^ 970)) = PosInf
  /\ Binary64.fl (Fin (- 2 ^ 1024)) = NegInf.
Proof. vm_compute. repeat split. Qed.

(** ** Scaling in binary64 *)

Lemma quotient_range (w h : Q) (lo hi : Z) :
  0 < w -> 0 < h -> h <= w * 2 ^ lo -> w <= h * 2 ^ hi ->
  0 < w / h /\ 2 ^ (- lo) <= w / h /\ w / h <= 2 ^ hi.
Proof.
  intros Hw Hh Hlo Hhi.
  pose proof (pow2_pos lo) as Plo.
  split; [apply Qlt_shift_div_l; lra|]. split.
  - apply Qle_shift_div_l; [exact Hh|].
    rewrite Qpower_opp.
    setoid_replace (/ 2 ^ lo * h) with (h / 2 ^ lo)
      by (unfold Qdiv; ring).
    apply Qle_shift_div_r; [exact Plo|exact Hlo].
  - apply Qle_shift_div_r; [exact Hh|]. lra.
Qed.

(** The product [600 * (w / h)] as the engine computes it: two roundings
    away from the exact value. *)
Lemma scaled_width_binary64 (w h : Q) :
  0 < w -> 0 < h -> h <= w * 2 ^ 1000 -> w <= h * 2 ^ 40 ->
  exists r,
    Binary64.mul (lit 600) (Binary64.div (Fin w) (Fin h)) = Fin r
    /\ Qabs (r - 600 * w / h) <= 600 * w / h * 2 ^ (-51).
Proof.
  intros Hw Hh Hlo Hhi.
  destruct (quotient_range w h 1000 40 Hw Hh Hlo Hhi) as (Ha0 & Ha1 & Ha2).
  assert (Hne : ~ h == 0) by lra.
  unfold Binary64.div. rewrite (div_finite w h Hne).
  setoid_replace (600 * w / h) with (600 * (w / h)) by (field; exact Hne).
  set (a := w / h) in *.
  assert (Habs : Qabs a == a) by (apply Qabs_pos; lra).
  destruct (fl_near a) as (r1 & -> & H1).
  { right. rewrite Habs. change (- (1000))%Z with (-1000)%Z in Ha1. lra. }
  { rewrite Habs. lra. }
  rewrite Habs in H1. apply Qabs_Qle_condition in H1.
  unfold Binary64.mul. cbn [JS.mul lit].
  assert (Hr1 : 0 < r1) by lra.
  assert (Habs1 : Qabs (600 * r1) == 600 * r1) by (apply Qabs_pos; lra).
  destruct (fl_near (600 * r1)) as (r2 & -> & H2).
  { right. rewrite Habs1. change (- (1000))%Z with (-1000)%Z in Ha1. lra. }
  { rewrite Habs1. lra. }
  rewrite Habs1 in H2. apply Qabs_Qle_condition in H2.
  exists r2. split; [reflexivity|].
  apply Qabs_Qle_condition. split; lra.
Qed.

(** The claimed width fails on a 393 x 720 image: the engine rounds the
    quotient 393 / 720 before it multiplies by 600, the product is just
    below 327.5, and the width is 327, where [round(600 * 393 / 720)] is
    328. *)
Lemma scaled_width_rounds_the_quotient_first :
  let props :=
    {| imageWidth := lit 393; imageHeight := lit 720; detections := [];
       exactDimensions := false |} in
  width (Binary64.getScaledDimensions props) = JS.of_Z 327
  /\ height (Binary64.getScaledDimensions props) = lit 600
  /\ width
       (computeDisplayExtents {| width := lit 393; height := lit 720 |}
          (lit 600) false)
     = JS.of_Z 328
  /\ JS.round_half_up (600 * 393 / 720) = 328%Z.
Proof. vm_compute. repeat split. Qed.

(** C4, amended.  Display extents under the cap of 600, as the engine
    computes them: the image extents unchanged under [exactDimensions]
    (scale factors 1, 1) or when the image is at most 600 high; otherwise
    height 600 and width [Math.round(600 * (imageWidth / imageHeight))],
    the quotient and the product each rounded to binary64.  For a positive
    width and an aspect ratio between [2 ^ -1000] and [2 ^ 40] that width
    is less than one pixel from [600 * imageWidth / imageHeight] and at
    most one pixel from its rounding; for a 393 x 720 image it is 327.
    The height never exceeds 600 unless [exactDimensions] holds, and the
    result depends on the image extents and the flag alone. *)
Theorem getScaledDimensions_binary64_spec (props : Props) (s : State) :
  let image := {| width := imageWidth props; height := imageHeight props |} in
  (exactDimensions props = true ->
   Binary64.getScaledDimensions props = image /\
   displayDimensions (Binary64.updateDimensions props s) = image /\
   scaleFactors (Binary64.updateDimensions props s)
   = {| px := lit 1; py := lit 1 |})
  /\ (exactDimensions props = false ->
      JS.leb (imageHeight props) (lit 600) = true ->
      Binary64.getScaledDimensions props = image)
  /\ (exactDimensions props = false ->
      JS.leb (imageHeight props) (lit 600) = false ->
      height (Binary64.getScaledDimensions props) = lit 600 /\
      width (Binary64.getScaledDimensions props) =
        JS.to_number
          (JS.round
             (Binary64.mul (lit 600)
                (Binary64.div (imageWidth props) (imageHeight props)))))
  /\ (exactDimensions props = false ->
      JS.leb (height (Binary64.getScaledDimensions props)) (lit 600) = true)
  /\ (forall w h : Q,
      exactDimensions props = false ->
      imageWidth props = Fin w -> imageHeight props = Fin h ->
      0 < w -> 600 < h -> h <= w * 2 ^ 1000 -> w <= h * 2 ^ 40 ->
      exists k : Z,
        Binary64.getScaledDimensions props
        = {| width := JS.of_Z k; height := lit 600 |} /\
        Qabs (inject_Z k - 600 * w / h)
        <= (1 # 2) + 600 * w / h * 2 ^ (-51) /\
        Qabs (inject_Z k - 600 * w / h) < 1 /\
        (Z.abs (k - JS.round_half_up (600 * w / h)) <= 1)%Z)
  /\ (exactDimensions props = false ->
      imageWidth props = lit 393 -> imageHeight props = lit 720 ->
      Binary64.getScaledDimensions props
      = {| width := JS.of_Z 327; height := lit 600 |})
  /\ (forall props' : Props,
      imageWidth props' = imageWidth props ->
      imageHeight props' = imageHeight props ->
      exactDimensions props' = exactDimensions props ->
      Binary64.getScaledDimensions props'
      = Binary64.getScaledDimensions props).
Proof.
  intros image. unfold Binary64.updateDimensions, Binary64.getScaledDimensions.
  cbv zeta. split; [|split; [|split; [|split; [|split; [|split]]]]].
  - intros E. rewrite E. repeat split.
  - intros E L. now rewrite E, L.
  - intros E L. rewrite E, L. split; reflexivity.
  - intros E. rewrite E.
    destruct (JS.leb (imageHeight props) (lit 600)) eqn:L; cbn [height].
    + exact L.
    + exact leb_cap_refl.
  - intros w h E Hw Hh Hwpos Hlt Hlo Hhi. rewrite E, Hw, Hh.
    assert (L : JS.leb (Fin h) (lit 600) = false).
    { simpl. destruct (Qle_bool h 600) eqn:B; [|reflexivity].
      apply Qle_bool_iff in B. lra. }
    rewrite L.
    assert (Hhpos : 0 < h) by lra.
    destruct (scaled_width_binary64 w h Hwpos Hhpos Hlo Hhi) as (r & -> & Hr).
    cbn [JS.round JS.to_number].
    exists (JS.round_half_up r). split; [reflexivity|].
    destruct (quotient_range w h 1000 40 Hwpos Hhpos Hlo Hhi)
      as (Ha0 & _ & Ha2).
    assert (Hne : ~ h == 0) by lra.
    assert (Hx : 600 * w / h == 600 * (w / h)) by (field; exact Hne).
    clear Hlo Hhi.
    remember (w / h) as a eqn:Ea. remember (600 * w / h) as x eqn:Ex.
    clear Ea Ex.
    destruct (round_half_up_near r) as [Hlo' Hhi'].
    destruct (round_half_up_near x) as [Xlo Xhi].
    apply Qabs_Qle_condition in Hr.
    assert (Hnear : Qabs (inject_Z (JS.round_half_up r) - x) < 1).
    { apply Qabs_Qlt_condition. split; lra. }
    split; [apply Qabs_Qle_condition; split; lra|].
    split; [exact Hnear|].
    apply Qabs_Qlt_condition in Hnear.
    assert (Hd : inject_Z (JS.round_half_up r - JS.round_half_up x) < 2
                 /\ -2 < inject_Z (JS.round_half_up r - JS.round_half_up x)).
    { unfold Zminus. rewrite inject_Z_plus, inject_Z_opp. split; lra. }
    destruct Hd as [Hd1 Hd2].
    change 2 with (inject_Z 2) in Hd1. change (-2) with (inject_Z (-2)) in Hd2.
    rewrite <- Zlt_Qlt in Hd1, Hd2. lia.
  - intros E Hw Hh. rewrite E, Hw, Hh. vm_compute. reflexivity.
  - intros props' Hw Hh He. rewrite Hw, Hh, He. reflexivity.
Qed.


(** ** Formatting in binary64 *)












(** ** Scale factors in binary64 *)

Lemma round_half_even_le (x : Q) (N : Z) :
  x <= inject_Z N -> (Binary64.round_half_even x <= N)%Z.
Proof.
  intros Hx. unfold Binary64.round_half_even.
  pose proof (Qfloor_le x) as Hlo.
  assert (Hk : (Qfloor x <= N)%Z).
  { rewrite <- (Qfloor_Z N). apply Qfloor_resp_le, Hx. }
  assert (Hstep : 1 # 2 <= x - inject_Z (Qfloor x) -> (Qfloor x + 1 <= N)%Z).
  { intros Hhalf. destruct (Z.eq_dec (Qfloor x) N) as [E|E]; [|lia].
    rewrite E in Hhalf. lra. }
  destruct (Qcompare (x - inject_Z (Qfloor x)) (1 # 2)) eqn:C.
  - apply Qeq_alt in C. destruct (Z.even (Qfloor x)); [exact Hk|].
    apply Hstep. lra.
  - exact Hk.
  - apply Qgt_alt in C. apply Hstep. lra.
Qed.

(** Rounding does not cross 1. *)
Lemma round64_below_one (q : Q) :
  0 < q -> q <= 1 -> Binary64.round64 q <= 1.
Proof.
  intros Hq Hone. rewrite round64_pos by exact Hq.
  destruct (floor_log2_spec q Hq) as [Hlo _].
  assert (He : (Binary64.floor_log2 q <= 0)%Z).
  { apply (Qpower_le_compat_l_inv 2); [|reflexivity].
    change (2 ^ 0) with 1. lra. }
  set (u := Binary64.ulp_exponent q).
  assert (Hu : (u <= -52)%Z) by (unfold u, Binary64.ulp_exponent; lia).
  pose proof (pow2_pos u) as Pu.
  assert (Hunit : 2 ^ (- u) * 2 ^ u == 1).
  { rewrite <- pow2_plus. replace (- u + u)%Z with 0%Z by ring. reflexivity. }
  assert (Hm : (Binary64.round_half_even (q / 2 ^ u) <= 2 ^ (- u))%Z).
  { apply round_half_even_le. rewrite pow2_inject by lia.
    apply Qle_shift_div_r; [exact Pu|]. rewrite Hunit. exact Hone. }
  rewrite Zle_Qle, pow2_inject in Hm by lia.
  rewrite <- Hunit. apply Qmult_le_r; [exact Pu|exact Hm].
Qed.

Lemma fl_below_one (q : Q) :
  0 < q -> q <= 1 -> exists r, Binary64.fl (Fin q) = Fin r /\ r <= 1.
Proof.
  intros Hq Hone. pose proof (round64_below_one q Hq Hone) as Hr.
  exists (Binary64.round64 q). split; [|exact Hr].
  unfold Binary64.fl. cbv zeta.
  destruct (Qle_bool (2 ^ 1024) (Qabs (Binary64.round64 q))) eqn:B;
    [|reflexivity].
  exfalso. apply Qle_bool_iff in B.
  assert (H0 : 0 <= Binary64.round64 q).
  { rewrite round64_pos by exact Hq.
    apply Qmult_le_0_compat; [|apply Qlt_le_weak, pow2_pos].
    change 0 with (inject_Z 0). rewrite <- Zle_Qle.
    pose proof (round_half_even_near
                  (q / 2 ^ Binary64.ulp_exponent q)) as Hn.
    apply Qabs_Qle_condition in Hn.
    assert (Hpos : 0 < q / 2 ^ Binary64.ulp_exponent q).
    { apply Qlt_shift_div_l; [apply pow2_pos|lra]. }
    assert (Hlt : inject_Z (-1)
                  < inject_Z (Binary64.round_half_even
                                (q / 2 ^ Binary64.ulp_exponent q))).
    { change (inject_Z (-1)) with (-1). lra. }
    rewrite <- Zlt_Qlt in Hlt. lia. }
  rewrite (Qabs_pos _ H0) in B. lra.
Qed.


Lemma fl_unit_interval (q : Q) :
  0 <= q -> q <= 1 -> q == 0 \/ 2 ^ (-1022) <= q ->
  exists r,
    Binary64.fl (Fin q) = Fin r /\ 0 <= r /\ r <= 1
    /\ Qabs (r - q) <= q * 2 ^ (-53).
Proof.
  intros H0 H1 Hrange.
  assert (Habs : Qabs q == q) by (apply Qabs_pos; exact H0).
  destruct (fl_near q) as (r & Hr & Herr).
  { rewrite Habs. exact Hrange. }
  { rewrite Habs. lra. }
  rewrite Habs in Herr. exists r. split; [exact Hr|].
  pose proof Herr as Hband. apply Qabs_Qle_condition in Hband.
  split; [lra|]. split; [|exact Herr].
  destruct Hrange as [Hz|Hn]; [lra|].
  pose proof (pow2_pos (-1022)) as P.
  destruct (fl_below_one q ltac:(lra) H1) as (r' & Hr' & Hle).
  rewrite Hr in Hr'. injection Hr' as <-. exact Hle.
Qed.

(** What [updateDimensions] computes for an image of [n] by [m] pixels
    that is higher than the cap: the display width [k], and the two scale
    factors [a] and [b]. *)
Lemma binary64_scale_values (n m : Z) :
  (1 <= n <= 2 ^ 31)%Z -> (600 < m <= 2 ^ 31)%Z ->
  exists (k : Z) (a b : Q),
    JS.to_number
      (JS.round
         (Binary64.mul (lit 600) (Binary64.div (JS.of_Z n) (JS.of_Z m))))
    = JS.of_Z k
    /\ Binary64.div (JS.of_Z k) (JS.of_Z n) = Fin a
    /\ Binary64.div (lit 600) (JS.of_Z m) = Fin b
    /\ (0 <= k <= n)%Z
    /\ Qabs (inject_Z k - 600 * inject_Z n / inject_Z m)
       <= (1 # 2) + 600 * inject_Z n / inject_Z m * 2 ^ (-51)
    /\ 0 <= a /\ a <= 1
    /\ Qabs (a - inject_Z k / inject_Z n)
       <= inject_Z k / inject_Z n * 2 ^ (-53)
    /\ 0 < b /\ b <= 1
    /\ Qabs (b - 600 / inject_Z m) <= 600 / inject_Z m * 2 ^ (-53).
Proof.
  intros [Hn1 Hn2] [Hm1 Hm2].
  set (N := inject_Z n). set (M := inject_Z m).
  assert (HN1 : 1 <= N) by (unfold N, Qle; simpl; lia).
  assert (HN2 : N <= 2147483648) by (unfold N, Qle; simpl; lia).
  assert (HM1 : 601 <= M) by (unfold M, Qle; simpl; lia).
  assert (HM2 : M <= 2147483648) by (unfold M, Qle; simpl; lia).
  assert (HMne : ~ M == 0) by lra. assert (HNne : ~ N == 0) by lra.
  destruct (scaled_width_binary64 N M) as (r & Hr & Herr); try lra.
  (* the exact scaled width *)
  assert (Hx : 600 * N / M * M == 600 * N) by (field; exact HMne).
  assert (Hx0 : 0 < 600 * N / M) by (apply Qlt_shift_div_l; lra).
  remember (600 * N / M) as x eqn:Ex.
  assert (Hx1 : 601 * x <= 600 * N).
  { rewrite <- Hx. rewrite (Qmult_comm 601 x).
    apply Qmult_le_l; [exact Hx0|exact HM1]. }
  apply Qabs_Qle_condition in Herr.
  destruct (round_half_up_near r) as [Klo Khi].
  set (k := JS.round_half_up r) in *. set (K := inject_Z k) in *.
  assert (Hk : (0 <= k <= n)%Z).
  { split.
    - assert (Hlt : inject_Z (-1) < K) by (change (inject_Z (-1)) with (-1); lra).
      unfold K in Hlt. rewrite <- Zlt_Qlt in Hlt. lia.
    - assert (Hlt : K < inject_Z (n + 1)).
      { rewrite inject_Z_plus. change (inject_Z 1) with 1. fold N. lra. }
      unfold K in Hlt. rewrite <- Zlt_Qlt in Hlt. lia. }
  assert (HK0 : 0 <= K) by (unfold K, Qle; simpl; lia).
  assert (HKN : K <= N) by (unfold K, N; rewrite <- Zle_Qle; lia).
  (* the horizontal factor *)
  assert (Hq1 : 0 <= K / N /\ K / N <= 1).
  { split; [apply Qle_shift_div_l; lra|apply Qle_shift_div_r; lra]. }
  assert (Hq1n : K / N == 0 \/ 2 ^ (-1022) <= K / N).
  { destruct (Z.eq_dec k 0) as [E|E].
    - left. unfold K. rewrite E. unfold Qdiv. ring.
    - right. assert (H1K : 1 <= K) by (unfold K, Qle; simpl; lia).
      apply Qle_shift_div_l; [lra|]. lra. }
  destruct (fl_unit_interval (K / N)) as (a & Ha & Ha0 & Ha1 & Haerr);
    try tauto.
  (* the vertical factor *)
  assert (Hq2 : 0 < 600 / M /\ 600 / M <= 1).
  { split; [apply Qlt_shift_div_l; lra|apply Qle_shift_div_r; lra]. }
  assert (Hq2n : 2 ^ (-1022) <= 600 / M).
  { apply Qle_shift_div_l; lra. }
  destruct (fl_unit_interval (600 / M)) as (b & Hb & Hb0 & Hb1 & Hberr);
    try tauto; try lra.
  exists k, a, b.
  split; [unfold JS.of_Z; fold N M; rewrite Hr; reflexivity|].
  split; [unfold Binary64.div, JS.of_Z; fold N K;
          rewrite (div_finite K N HNne); exact Ha|].
  split; [unfold Binary64.div, JS.of_Z, lit; fold M;
          rewrite (div_finite 600 M HMne); exact Hb|].
  split; [exact Hk|]. fold K.
  split; [apply Qabs_Qle_condition; split; lra|].
  split; [exact Ha0|]. split; [exact Ha1|]. split; [exact Haerr|].
  split; [|split; [exact Hb1|exact Hberr]].
  apply Qabs_Qle_condition in Hberr. destruct Hq2 as [Hq2 _].
  remember (600 / M) as q2. lra.
Qed.


Lemma scale_back (N q a e K : Q) :
  0 < N -> q * N == K -> Qabs (a - q) <= q * e ->
  Qabs (N * a - K) <= K * e.
Proof.
  intros HN HK Herr.
  setoid_replace (N * a - K) with (N * (a - q)) by (rewrite <- HK; ring).
  rewrite Qabs_Qmult, (Qabs_pos N) by lra.
  setoid_replace (K * e) with (N * (q * e)) by (rewrite <- HK; ring).
  apply Qmult_le_l; [exact HN|exact Herr].
Qed.

(** After [updateDimensions] on an image of [n] by [m] pixels that is
    higher than the cap, the display extents are those of
    [getScaledDimensions] and the scale factors take the image extents
    onto them up to the rounding of one binary64 division: the image width
    times [scaleFactors.x] is within [2 ^ -53] of the display width,
    relatively, and the image height times [scaleFactors.y] within
    [2 ^ -53] of 600.  Nothing else of the state changes. *)
Theorem binary64_scale_factors_map_image_onto_display (props : Props)
  (s : State) (n m : Z) :
  exactDimensions props = false ->
  imageWidth props = JS.of_Z n -> imageHeight props = JS.of_Z m ->
  (1 <= n <= 2 ^ 31)%Z -> (600 < m <= 2 ^ 31)%Z ->
  let s' := Binary64.updateDimensions props s in
  exists (k : Z) (a b : Q),
    displayDimensions s' = Binary64.getScaledDimensions props
    /\ displayDimensions s' = {| width := JS.of_Z k; height := lit 600 |}
    /\ scaleFactors s' = {| px := Fin a; py := Fin b |}
    /\ Qabs (inject_Z n * a - inject_Z k) <= inject_Z k * 2 ^ (-53)
    /\ Qabs (inject_Z m * b - 600) <= 600 * 2 ^ (-53)
    /\ setScaleFactors (scaleFactors s)
         (setDisplayDimensions (displayDimensions s) s') = s.
Proof.
  intros E Hw Hh Hn Hm. cbv zeta.
  destruct (binary64_scale_values n m Hn Hm)
    as (k & a & b & Hk & Ha & Hb & _ & _ & _ & _ & Haerr & _ & _ & Hberr).
  assert (L : JS.leb (JS.of_Z m) (lit 600) = false).
  { unfold JS.leb, JS.of_Z, lit. destruct (Qle_bool (inject_Z m) 600) eqn:B;
      [|reflexivity].
    apply Qle_bool_iff in B. unfold Qle in B. simpl in B. lia. }
  assert (Hdims : Binary64.getScaledDimensions props
                  = {| width := JS.of_Z k; height := lit 600 |}).
  { unfold Binary64.getScaledDimensions. rewrite E, Hw, Hh, L. cbv zeta.
    rewrite Hk. reflexivity. }
  assert (HN : 0 < inject_Z n) by (unfold Qlt; simpl; lia).
  assert (HM : 0 < inject_Z m) by (unfold Qlt; simpl; lia).
  exists k, a, b.
  unfold Binary64.updateDimensions. cbv zeta. rewrite E, Hdims.
  cbn [width height]. rewrite Hw, Hh, Ha, Hb.
  split; [reflexivity|]. split; [reflexivity|]. split; [reflexivity|].
  split; [|split].
  - apply (scale_back _ (inject_Z k / inject_Z n)); [exact HN| |exact Haerr].
    field. lra.
  - apply (scale_back _ (600 / inject_Z m)); [exact HM| |exact Hberr].
    field. lra.
  - destruct s; reflexivity.
Qed.

Lemma binary64_scale_factors_map_image_onto_display_witness :
  let props :=
    {| imageWidth := JS.of_Z 1027; imageHeight := JS.of_Z 608;
       detections := []; exactDimensions := false |} in
  let s' := Binary64.updateDimensions props initialState in
  exists (k : Z) (a b : Q),
    displayDimensions s' = Binary64.getScaledDimensions props
    /\ displayDimensions s' = {| width := JS.of_Z k; height := lit 600 |}
    /\ scaleFactors s' = {| px := Fin a; py := Fin b |}
    /\ Qabs (inject_Z 1027 * a - inject_Z k) <= inject_Z k * 2 ^ (-53)
    /\ Qabs (inject_Z 608 * b - 600) <= 600 * 2 ^ (-53)
    /\ setScaleFactors (scaleFactors initialState)
         (setDisplayDimensions (displayDimensions initialState) s')
       = initialState.
Proof.
  apply (binary64_scale_factors_map_image_onto_display
           {| imageWidth := JS.of_Z 1027; imageHeight := JS.of_Z 608;
              detections := []; exactDimensions := false |}
           initialState 1027 608); try reflexivity; lia.
Defined.

(** For an image of [n] by [m] pixels that is higher than the cap the
    scale factors never enlarge: [scaleFactors.x] lies between 0 and 1,
    [scaleFactors.y] above 0 and at most 1, and the two differ by at most
    half a pixel over the width of the image and the rounding of the
    engine, [2 ^ -50]. *)
Theorem binary64_scale_factors_never_enlarge (props : Props) (s : State)
  (n m : Z) :
  exactDimensions props = false ->
  imageWidth props = JS.of_Z n -> imageHeight props = JS.of_Z m ->
  (1 <= n <= 2 ^ 31)%Z -> (600 < m <= 2 ^ 31)%Z ->
  exists a b,
    scaleFactors (Binary64.updateDimensions props s)
    = {| px := Fin a; py := Fin b |}
    /\ 0 <= a /\ a <= 1 /\ 0 < b /\ b <= 1
    /\ Qabs (a - b) <= 1 / (2 * inject_Z n) + 2 ^ (-50).
Proof.
  intros E Hw Hh Hn Hm.
  destruct (binary64_scale_values n m Hn Hm)
    as (k & a & b & Hk & Ha & Hb & Hkn & Hkerr & Ha0 & Ha1 & Haerr
        & Hb0 & Hb1 & Hberr).
  assert (L : JS.leb (JS.of_Z m) (lit 600) = false).
  { unfold JS.leb, JS.of_Z, lit. destruct (Qle_bool (inject_Z m) 600) eqn:B;
      [|reflexivity].
    apply Qle_bool_iff in B. unfold Qle in B. simpl in B. lia. }
  exists a, b. split.
  { unfold Binary64.updateDimensions, Binary64.getScaledDimensions.
    cbv zeta. rewrite E, Hw, Hh, L. cbn [width height].
    rewrite Hk, Ha, Hb. reflexivity. }
  split; [exact Ha0|]. split; [exact Ha1|]. split; [exact Hb0|].
  split; [exact Hb1|].
  set (N := inject_Z n) in *. set (M := inject_Z m) in *.
  set (K := inject_Z k) in *.
  assert (HN1 : 1 <= N) by (unfold N, Qle; simpl; lia).
  assert (HM1 : 601 <= M) by (unfold M, Qle; simpl; lia).
  assert (HK0 : 0 <= K) by (unfold K, Qle; simpl; lia).
  assert (HKN : K <= N) by (unfold K, N; rewrite <- Zle_Qle; lia).
  assert (Hq1 : K / N * N == K) by (field; lra).
  assert (Hq2 : 600 / M * N == 600 * N / M) by (field; lra).
  assert (Hc : 1 / (2 * N) * N == 1 # 2) by (field; lra).
  assert (Hq1le : K / N <= 1) by (apply Qle_shift_div_r; lra).
  assert (Hq2le : 600 / M <= 1) by (apply Qle_shift_div_r; lra).
  assert (Hq2pos : 0 < 600 / M) by (apply Qlt_shift_div_l; lra).
  assert (Hxle : 600 * N / M <= N).
  { rewrite <- Hq2. rewrite <- (Qmult_1_l N) at 2.
    apply Qmult_le_r; [lra|exact Hq2le]. }
  assert (Hq1pos : 0 <= K / N) by (apply Qle_shift_div_l; lra).
  remember (K / N) as q1 eqn:E1. remember (600 / M) as q2 eqn:E2.
  remember (600 * N / M) as x eqn:Ex. remember (1 / (2 * N)) as c eqn:Ec.
  clear E1 E2 Ex Ec.
  apply Qabs_Qle_condition in Hkerr, Haerr, Hberr.
  assert (Hd : - (c + 2 ^ (-51)) <= q1 - q2 /\ q1 - q2 <= c + 2 ^ (-51)).
  { split.
    - apply (Qmult_le_r _ _ N); [lra|].
      setoid_replace (- (c + 2 ^ (-51)) * N)
        with (- (c * N) - 2 ^ (-51) * N) by ring.
      setoid_replace ((q1 - q2) * N) with (q1 * N - q2 * N) by ring.
      rewrite Hc, Hq1, Hq2. lra.
    - apply (Qmult_le_r _ _ N); [lra|].
      setoid_replace ((c + 2 ^ (-51)) * N)
        with (c * N + 2 ^ (-51) * N) by ring.
      setoid_replace ((q1 - q2) * N) with (q1 * N - q2 * N) by ring.
      rewrite Hc, Hq1, Hq2. lra. }
  apply Qabs_Qle_condition. split; lra.
Qed.

Lemma binary64_scale_factors_never_enlarge_witness :
  let props :=
    {| imageWidth := JS.of_Z 38; imageHeight := JS.of_Z 608;
       detections := []; exactDimensions := false |} in
  exists a b,
    scaleFactors (Binary64.updateDimensions props initialState)
    = {| px := Fin a; py := Fin b |}
    /\ 0 <= a /\ a <= 1 /\ 0 < b /\ b <= 1
    /\ Qabs (a - b) <= 1 / (2 * inject_Z 38) + 2 ^ (-50).
Proof.
  apply (binary64_scale_factors_never_enlarge
           {| imageWidth := JS.of_Z 38; imageHeight := JS.of_Z 608;
              detections := []; exactDimensions := false |}
           initialState 38 608); try reflexivity; lia.
Defined.


(** ** Scenarios of the specification in binary64 *)

(** A 1920 x 1080 image is shown at 1067 x 600; an image of 800 x 600 and
    an image under [exactDimensions] keep their extents. *)
Example getScaledDimensions_binary64_hd :
  Binary64.getScaledDimensions hdProps
  = {| width := lit 1067; height := lit 600 |}
  /\ Binary64.getScaledDimensions
       {| imageWidth := lit 800; imageHeight := lit 600; detections := [];
          exactDimensions := false |}
     = {| width := lit 800; height := lit 600 |}
  /\ Binary64.getScaledDimensions
       {| imageWidth := lit 1920; imageHeight := lit 1080; detections := [];
          exactDimensions := true |}
     = {| width := lit 1920; height := lit 1080 |}.
Proof. vm_compute. repeat split. Qed.

(** The amended width on the 393 x 720 image: 327, within a pixel of
    327.5. *)
Example getScaledDimensions_binary64_tie :
  exists k : Z,
    Binary64.getScaledDimensions
      {| imageWidth := lit 393; imageHeight := lit 720; detections := [];
         exactDimensions := false |}
    = {| width := JS.of_Z k; height := lit 600 |}
    /\ k = 327%Z
    /\ Qabs (inject_Z k - 600 * 393 / 720) < 1.
Proof.
  exists 327%Z. split; [vm_compute; reflexivity|].
  split; [reflexivity|]. vm_compute. reflexivity.
Qed.

(** The ruler scenario: a distance of 500 on a 1920 x 1080 image prints
    as 500 in pixels and as 0.260 normalized; values on either side of
    zero and a value that is not a number print as the engine prints
    them. *)
Example formatCoordinate_binary64_distance :
  let fmt := Binary64.formatCoordinate hdProps in
  fmt pixels (lit 500) None = JS.Normal "500" /\
  fmt normalized (lit 500) None = JS.Normal "0.260" /\
  fmt percentage (lit 960) (Some axis_x) = JS.Normal "50.0%" /\
  fmt percentage (Binary64.fl (lit (-0.4))) None = JS.Normal "-0.0%" /\
  fmt percentage NaN None = JS.Normal "NaN%".
Proof. vm_compute. repeat split. Qed.

(** * Stale references *)



